(** * Voice bot: the per-call session orchestrator

    A shallow embedding of
      - [src/voice/streamHandler.ts]  (handleStream, processUserInput),
      - the speech-to-text bridge     (createSttStream: start / write / stop),
      - the text-to-speech front end  (textToSpeech and its provider chain),
      - [src/config/verticals.ts]     (getVertical, getVerticalIds),
    as one event-driven transition system.  Every handler of the source is a
    procedure on the session state that also returns the external effects it
    performs (provider calls, channel writes, console output), in order.

    Around it:
      - [src/telephony/twilio.ts]     (the TwiML responses and escapeXml),
      - the reasoning engine          (runBrain, runTool, provider selection),
      - the test page's voice channel (handleTestVoice),
    the last one as a second transition system over the same bridge. *)

From Stdlib Require Import ZArith Lia Ascii String.
From Stdlib.Strings Require Import Byte.
From stdpp Require Import base option list strings gmap.
Import ListNotations.

(** ** JavaScript runtime primitives used by the source *)

Module JS.

Local Open Scope string_scope.

(** Strings are sequences of code units below 256. *)

Definition code (c : ascii) : N := N_of_ascii c.

(** White space removed by [String.prototype.trim] (among code units below
    256): TAB, LF, VT, FF, CR, SPACE and NBSP. *)
Definition is_white_space (c : ascii) : bool :=
  let n := code c in
  ((9 <=? n) && (n <=? 13) || (n =? 32) || (n =? 160))%N.

Fixpoint trimStart (s : string) : string :=
  match s with
  | EmptyString => EmptyString
  | String c s' => if is_white_space c then trimStart s' else s
  end.

(** [trimEnd] keeps a character when it is not white space or when
    something remains after it. *)
Fixpoint trimEnd (s : string) : string :=
  match s with
  | EmptyString => EmptyString
  | String c s' =>
      match trimEnd s' with
      | EmptyString => if is_white_space c then EmptyString else String c EmptyString
      | r => String c r
      end
  end.

Definition trim (s : string) : string := trimEnd (trimStart s).

(** Truthiness of a string: non-empty. *)
Definition truthy (s : string) : bool :=
  match s with EmptyString => false | _ => true end.

(** Truthiness of [string | null | undefined]. *)
Definition truthy_opt (o : option string) : bool :=
  match o with Some s => truthy s | None => false end.

Definition lower_char (c : ascii) : ascii :=
  let n := code c in
  if ((65 <=? n) && (n <=? 90))%N then ascii_of_N (n + 32)
  else if ((192 <=? n) && (n <=? 222) && negb (n =? 215))%N then ascii_of_N (n + 32)
  else c.

Fixpoint toLowerCase (s : string) : string :=
  match s with
  | EmptyString => EmptyString
  | String c s' => String (lower_char c) (toLowerCase s')
  end.

(** *** Base64: [buf.toString('base64')] and [Buffer.from(s, 'base64')] *)

Definition b64_alphabet : string :=
  "ABCDEFGHIJKLMNOPQRSTUVWXYZabcdefghijklmnopqrstuvwxyz0123456789+/".

Definition b64_digit (n : N) : ascii :=
  match String.get (N.to_nat n) b64_alphabet with
  | Some c => c
  | None => "="%char
  end.

Definition pad : ascii := "="%char.

Fixpoint toString_base64 (bs : list byte) : string :=
  match bs with
  | [] => EmptyString
  | [a] =>
      let n := N.shiftl (Byte.to_N a) 16 in
      String (b64_digit (N.shiftr n 18))
        (String (b64_digit (N.land (N.shiftr n 12) 63))
           (String pad (String pad EmptyString)))
  | [a; b] =>
      let n := N.lor (N.shiftl (Byte.to_N a) 16) (N.shiftl (Byte.to_N b) 8) in
      String (b64_digit (N.shiftr n 18))
        (String (b64_digit (N.land (N.shiftr n 12) 63))
           (String (b64_digit (N.land (N.shiftr n 6) 63))
              (String pad EmptyString)))
  | a :: b :: c :: rest =>
      let n := N.lor (N.lor (N.shiftl (Byte.to_N a) 16) (N.shiftl (Byte.to_N b) 8))
                     (Byte.to_N c) in
      String (b64_digit (N.shiftr n 18))
        (String (b64_digit (N.land (N.shiftr n 12) 63))
           (String (b64_digit (N.land (N.shiftr n 6) 63))
              (String (b64_digit (N.land n 63)) (toString_base64 rest))))
  end.

(** The decoder of the runtime is lenient: it accepts both the standard and
    the URL-safe alphabet, skips any other character and stops at the first
    padding character. *)
Definition unbase64 (c : ascii) : option N :=
  let n := code c in
  if ((65 <=? n) && (n <=? 90))%N then Some (n - 65)%N
  else if ((97 <=? n) && (n <=? 122))%N then Some (n - 71)%N
  else if ((48 <=? n) && (n <=? 57))%N then Some (n + 4)%N
  else if ((n =? 43) || (n =? 45))%N then Some 62%N
  else if ((n =? 47) || (n =? 95))%N then Some 63%N
  else None.

Fixpoint sextets (s : string) : list N :=
  match s with
  | EmptyString => []
  | String c s' =>
      if Ascii.eqb c pad then []
      else match unbase64 c with
           | Some v => v :: sextets s'
           | None => sextets s'
           end
  end.

Definition byte_of_N (n : N) : byte :=
  match Byte.of_N (N.land n 255) with Some b => b | None => Byte.x00 end.

Fixpoint octets (l : list N) : list byte :=
  match l with
  | a :: b :: c :: d :: rest =>
      byte_of_N (N.lor (N.shiftl a 2) (N.shiftr b 4))
      :: byte_of_N (N.lor (N.shiftl b 4) (N.shiftr c 2))
      :: byte_of_N (N.lor (N.shiftl c 6) d)
      :: octets rest
  | [a; b; c] =>
      [byte_of_N (N.lor (N.shiftl a 2) (N.shiftr b 4));
       byte_of_N (N.lor (N.shiftl b 4) (N.shiftr c 2))]
  | [a; b] => [byte_of_N (N.lor (N.shiftl a 2) (N.shiftr b 4))]
  | _ => []
  end.

Definition Buffer_from_base64 (s : string) : list byte := octets (sextets s).

(** *** JSON.stringify on the objects the handler builds *)

#[warnings="-register-all"]
Inductive json :=
| JString (s : string)
| JObject (fields : list (string * json)).

Definition dquote : string := String "034"%char EmptyString.
Definition backslash : string := String "092"%char EmptyString.

Definition hex_digit (n : N) : ascii :=
  match String.get (N.to_nat n) "0123456789abcdef" with
  | Some c => c
  | None => "0"%char
  end.

Definition escape_char (c : ascii) : string :=
  let n := code c in
  if (n =? 34)%N then backslash ++ dquote
  else if (n =? 92)%N then backslash ++ backslash
  else if (n =? 8)%N then backslash ++ "b"
  else if (n =? 12)%N then backslash ++ "f"
  else if (n =? 10)%N then backslash ++ "n"
  else if (n =? 13)%N then backslash ++ "r"
  else if (n =? 9)%N then backslash ++ "t"
  else if (n <? 32)%N then
    backslash ++ "u00" ++ String (hex_digit (N.shiftr n 4))
                            (String (hex_digit (N.land n 15)) EmptyString)
  else String c EmptyString.

Fixpoint quote_body (s : string) : string :=
  match s with
  | EmptyString => EmptyString
  | String c s' => escape_char c ++ quote_body s'
  end.

Definition quote (s : string) : string := dquote ++ quote_body s ++ dquote.

Fixpoint stringify (j : json) : string :=
  match j with
  | JString s => quote s
  | JObject fields =>
      let fix members (l : list (string * json)) : string :=
        match l with
        | [] => EmptyString
        | [(k, v)] => quote k ++ ":" ++ stringify v
        | (k, v) :: l' => quote k ++ ":" ++ stringify v ++ "," ++ members l'
        end in
      "{" ++ members fields ++ "}"
  end.

End JS.

Local Open Scope string_scope.
Local Open Scope list_scope.
Local Open Scope Z_scope.

(** ** Persona configuration ([src/config/verticals.ts]) *)

(** The fields the orchestrator reads.  [systemPrompt] and [compliance] are
    free text handed to the reasoning engine and play no role here. *)
Record VerticalConfig := {
  name : string;
  greeting : string;
  tools : list string;
}.

Definition sales : VerticalConfig := {|
  name := "Sales";
  greeting := "Hi, thanks for calling. I'm here to help you learn more about what we offer. What brought you to us today?";
  tools := ["book_meeting"; "update_crm"; "escalate_to_agent"] |}.

Definition support : VerticalConfig := {|
  name := "Support";
  greeting := "Thanks for calling. I'm here to help. What can I assist you with?";
  tools := ["create_ticket"; "search_kb"; "escalate_to_agent"] |}.

Definition banking : VerticalConfig := {|
  name := "Banking";
  greeting := "Welcome to banking support. How can I help you today?";
  tools := ["account_balance"; "recent_transactions"; "escalate_to_agent"] |}.

Definition healthcare : VerticalConfig := {|
  name := "Healthcare";
  greeting := "Thank you for calling. How may I help you today?";
  tools := ["book_appointment"; "cancel_appointment"; "escalate_to_agent"] |}.

Definition hr : VerticalConfig := {|
  name := "HR";
  greeting := "Hello, you've reached HR. How can I help you today?";
  tools := ["book_meeting"; "create_ticket"; "escalate_to_agent"] |}.

Definition hospitality : VerticalConfig := {|
  name := "Hospitality";
  greeting := "Thank you for calling. How may I help you today?";
  tools := ["book_meeting"; "create_ticket"; "escalate_to_agent"] |}.

Definition verticals : gmap string VerticalConfig :=
  list_to_map [("sales", sales); ("support", support); ("banking", banking);
               ("healthcare", healthcare); ("hr", hr); ("hospitality", hospitality)].

(** ** Process-wide configuration, fixed at start-up *)

Record Env := {
  (** [DEEPGRAM_API_KEY] is set: the [dg] client exists (STT and TTS). *)
  deepgram_configured : bool;
  (** [OPENAI_API_KEY] is set: the [openai] client of the TTS module exists. *)
  openai_configured : bool;
  (** [ELEVENLABS_API_KEY] is set. *)
  elevenLabs_configured : bool;
  (** [process.env.BOT_VERTICAL]. *)
  BOT_VERTICAL : option string;
  (** Contents of config/custom-verticals.json. *)
  customVerticals : gmap string VerticalConfig;
}.

Definition getVertical (env : Env) (vertical : string) : VerticalConfig :=
  let id := JS.toLowerCase (if JS.truthy vertical then vertical else "sales") in
  match customVerticals env !! id with
  | Some custom => custom
  | None =>
      match verticals !! id with
      | Some builtIn => builtIn
      | None => sales
      end
  end.

(** ** Text to speech (the TTS module) *)

(** What the external services answer to one [textToSpeech] call; [None] is a
    rejected promise. *)
Record TtsOracle := {
  deepgram_speak : option (list byte);
  elevenLabs_fetch : option (list byte);
  openai_speech : option (list byte);
  ffmpeg_mulaw : option (list byte);
}.

Definition CONVERT_TO_TWILIO : bool := true.

Definition openaiTts (env : Env) (o : TtsOracle) : option (list byte) :=
  if negb (openai_configured env) then Some [] else openai_speech o.

Definition elevenLabsTts (o : TtsOracle) : option (list byte) := elevenLabs_fetch o.

Definition fallbackTts (env : Env) (o : TtsOracle) : option (list byte) :=
  if elevenLabs_configured env then
    match elevenLabsTts o with
    | Some b => Some b
    | None => openaiTts env o
    end
  else openaiTts env o.

Definition deepgramTts (env : Env) (o : TtsOracle) : option (list byte) :=
  if negb (deepgram_configured env) then Some [] else deepgram_speak o.

Definition getRawTts (env : Env) (o : TtsOracle) : option (list byte) :=
  if deepgram_configured env then
    match deepgramTts env o with
    | Some b => Some b
    | None => fallbackTts env o
    end
  else fallbackTts env o.

Definition toMulaw8k (o : TtsOracle) : option (list byte) := ffmpeg_mulaw o.

Definition textToSpeech (env : Env) (o : TtsOracle) : option (list byte) :=
  match getRawTts env o with
  | None => None
  | Some raw =>
      if Nat.eqb (length raw) 0 then Some raw
      else if CONVERT_TO_TWILIO then
        match toMulaw8k o with
        | Some mulaw => Some mulaw
        | None => Some raw
        end
      else Some raw
  end.

(** ** Session state *)

Inductive Role := user | assistant.

Record Message := { role : Role; content : string }.

Record StreamContext := {
  callSid : string;
  streamSid : option string;
  vertical : string;
  messages : list Message;
  lastActivityAt : Z;
  isSpeaking : bool;
  streamStart : Z;
}.

Inductive Encoding := mulaw | linear16.

Record SttStreamOptions := {
  encoding : option Encoding;
  sample_rate : option Z;
  channels : option Z;
  utterance_end_ms : option Z;
}.

Definition DEFAULT_OPTIONS : SttStreamOptions :=
  {| encoding := Some mulaw; sample_rate := Some 8000; channels := Some 1;
     utterance_end_ms := None |}.

Definition no_options : SttStreamOptions :=
  {| encoding := None; sample_rate := None; channels := None; utterance_end_ms := None |}.

(** Object spread [{ ...a, ...b }]: a field of [b] wins when it is present. *)
Definition spread (a b : SttStreamOptions) : SttStreamOptions :=
  {| encoding := match encoding b with Some x => Some x | None => encoding a end;
     sample_rate := match sample_rate b with Some x => Some x | None => sample_rate a end;
     channels := match channels b with Some x => Some x | None => channels a end;
     utterance_end_ms :=
       match utterance_end_ms b with Some x => Some x | None => utterance_end_ms a end |}.

(** The argument of [dg.listen.live]. *)
Record LiveSchema := {
  live_model : string;
  live_language : string;
  live_encoding : option Encoding;
  live_sample_rate : option Z;
  live_channels : Z;
  live_interim_results : bool;
  live_utterance_end_ms : Z;
  live_vad_events : bool;
}.

Definition live_schema (opts : SttStreamOptions) : LiveSchema :=
  {| live_model := "nova-2";
     live_language := "en";
     live_encoding := encoding opts;
     live_sample_rate := sample_rate opts;
     live_channels := default 1 (channels opts);
     live_interim_results := true;
     live_utterance_end_ms := default 1000 (utterance_end_ms opts);
     live_vad_events := true |}.

(** The closure variables of one [createSttStream] object. *)
Record SttStream := {
  opts : SttStreamOptions;
  connection : option nat;
  closed : bool;
}.

(** A provider connection returned by [dg.listen.live]: the bridge whose
    [start] opened it (its Open, Close and Error listeners close over that
    bridge) and the number of Transcript listeners registered on it. *)
Record Connection := {
  owner : nat;
  transcript_listeners : nat;
}.

Inductive TimerCallback :=
| SilenceCallback   (* resetSilenceTimer: if (ctx.isSpeaking) return; *)
| TurnCallback.     (* processUserInput: ctx.isSpeaking = false *)

Inductive TimerStatus := Armed | Cleared | Fired (fired_at : Z).

Record Timer := {
  deadline : Z;
  callback : TimerCallback;
  status : TimerStatus;
}.

(** A suspended asynchronous function, named by the [await] it is parked on. *)
Inductive Task :=
| AwaitRunBrain (timeout : nat)       (* processUserInput, await runBrain *)
| AwaitTextToSpeech (timeout : nat)   (* processUserInput, await textToSpeech(reply) *)
| AwaitFallback (timeout : nat)       (* processUserInput, await textToSpeech(fallback) *)
| AwaitGreeting                       (* greeting dispatch, await textToSpeech(greeting) *)
| Settled (fulfilled : bool).

Inductive ReadyState := CONNECTING | OPEN | CLOSING | CLOSED.

Definition is_open (r : ReadyState) : bool :=
  match r with OPEN => true | _ => false end.

Record Session := {
  (* closure variables of handleStream *)
  ctx : StreamContext;
  sttStream : option nat;
  silenceTimer : option nat;
  turnTimeout : option nat;
  (* runtime objects reachable from the session *)
  bridges : list SttStream;
  connections : list Connection;
  timers : list Timer;
  tasks : list Task;
  readyState : ReadyState;
  now : Z;
}.

(** ** External effects, in the order they are performed *)

Inductive Effect :=
| ProviderOpen (c : nat) (schema : LiveSchema)     (* dg.listen.live(...) *)
| ProviderSend (c : nat) (chunk : list byte)       (* connection.send(...) *)
| ProviderFinish (c : nat)                         (* connection.finish() *)
| WsSend (data : string)                           (* ws.send(...) *)
| RunBrain (k : nat) (config : VerticalConfig) (history : list Message)
| TextToSpeech (k : nat) (text : string)
| ConsoleWarn (text : string)
| ConsoleError (text : string)
| UnhandledRejection (k : nat).

(** ** Events delivered by the event loop *)

Record TranscriptData := {
  alternative_transcript : option string;  (* data?.channel?.alternatives?.[0]?.transcript *)
  speech_final : option bool;
  is_final : option bool;
}.

Record StartInfo := {
  start_streamSid : option string;
  start_vertical : option string;          (* start.customParameters?.vertical *)
}.

Record InboundMessage := {
  event : string;
  msg_streamSid : option string;
  media_payload : option string;           (* msg.media?.payload *)
  start : option StartInfo;
}.

Inductive Event :=
| WsMessage (m : option InboundMessage)   (* None: JSON.parse throws *)
| WsClose
| WsReadyState (r : ReadyState)           (* the channel changes state; no handler runs *)
| ConnOpen (c : nat)
| ConnTranscript (c : nat) (d : TranscriptData)
| ConnClose (c : nat)
| ConnError (c : nat)
| BrainSettled (k : nat) (reply : option string)   (* None: runBrain rejects *)
| TtsSettled (k : nat) (o : TtsOracle)
| Elapse (dt : Z).

(** ** Field updates *)

Definition set_ctx (f : StreamContext -> StreamContext) (s : Session) : Session :=
  {| ctx := f (ctx s); sttStream := sttStream s; silenceTimer := silenceTimer s;
     turnTimeout := turnTimeout s; bridges := bridges s; connections := connections s;
     timers := timers s; tasks := tasks s; readyState := readyState s; now := now s |}.

Definition set_sttStream (v : option nat) (s : Session) : Session :=
  {| ctx := ctx s; sttStream := v; silenceTimer := silenceTimer s;
     turnTimeout := turnTimeout s; bridges := bridges s; connections := connections s;
     timers := timers s; tasks := tasks s; readyState := readyState s; now := now s |}.

Definition set_silenceTimer (v : option nat) (s : Session) : Session :=
  {| ctx := ctx s; sttStream := sttStream s; silenceTimer := v;
     turnTimeout := turnTimeout s; bridges := bridges s; connections := connections s;
     timers := timers s; tasks := tasks s; readyState := readyState s; now := now s |}.

Definition set_turnTimeout (v : option nat) (s : Session) : Session :=
  {| ctx := ctx s; sttStream := sttStream s; silenceTimer := silenceTimer s;
     turnTimeout := v; bridges := bridges s; connections := connections s;
     timers := timers s; tasks := tasks s; readyState := readyState s; now := now s |}.

Definition set_bridges (v : list SttStream) (s : Session) : Session :=
  {| ctx := ctx s; sttStream := sttStream s; silenceTimer := silenceTimer s;
     turnTimeout := turnTimeout s; bridges := v; connections := connections s;
     timers := timers s; tasks := tasks s; readyState := readyState s; now := now s |}.

Definition set_connections (v : list Connection) (s : Session) : Session :=
  {| ctx := ctx s; sttStream := sttStream s; silenceTimer := silenceTimer s;
     turnTimeout := turnTimeout s; bridges := bridges s; connections := v;
     timers := timers s; tasks := tasks s; readyState := readyState s; now := now s |}.

Definition set_timers (v : list Timer) (s : Session) : Session :=
  {| ctx := ctx s; sttStream := sttStream s; silenceTimer := silenceTimer s;
     turnTimeout := turnTimeout s; bridges := bridges s; connections := connections s;
     timers := v; tasks := tasks s; readyState := readyState s; now := now s |}.

Definition set_tasks (v : list Task) (s : Session) : Session :=
  {| ctx := ctx s; sttStream := sttStream s; silenceTimer := silenceTimer s;
     turnTimeout := turnTimeout s; bridges := bridges s; connections := connections s;
     timers := timers s; tasks := v; readyState := readyState s; now := now s |}.

Definition set_readyState (v : ReadyState) (s : Session) : Session :=
  {| ctx := ctx s; sttStream := sttStream s; silenceTimer := silenceTimer s;
     turnTimeout := turnTimeout s; bridges := bridges s; connections := connections s;
     timers := timers s; tasks := tasks s; readyState := v; now := now s |}.

Definition set_now (v : Z) (s : Session) : Session :=
  {| ctx := ctx s; sttStream := sttStream s; silenceTimer := silenceTimer s;
     turnTimeout := turnTimeout s; bridges := bridges s; connections := connections s;
     timers := timers s; tasks := tasks s; readyState := readyState s; now := v |}.

Definition with_streamSid (v : option string) (c : StreamContext) : StreamContext :=
  {| callSid := callSid c; streamSid := v; vertical := vertical c;
     messages := messages c; lastActivityAt := lastActivityAt c;
     isSpeaking := isSpeaking c; streamStart := streamStart c |}.

Definition with_vertical (v : string) (c : StreamContext) : StreamContext :=
  {| callSid := callSid c; streamSid := streamSid c; vertical := v;
     messages := messages c; lastActivityAt := lastActivityAt c;
     isSpeaking := isSpeaking c; streamStart := streamStart c |}.

Definition with_messages (v : list Message) (c : StreamContext) : StreamContext :=
  {| callSid := callSid c; streamSid := streamSid c; vertical := vertical c;
     messages := v; lastActivityAt := lastActivityAt c;
     isSpeaking := isSpeaking c; streamStart := streamStart c |}.

Definition with_lastActivityAt (v : Z) (c : StreamContext) : StreamContext :=
  {| callSid := callSid c; streamSid := streamSid c; vertical := vertical c;
     messages := messages c; lastActivityAt := v;
     isSpeaking := isSpeaking c; streamStart := streamStart c |}.

Definition with_isSpeaking (v : bool) (c : StreamContext) : StreamContext :=
  {| callSid := callSid c; streamSid := streamSid c; vertical := vertical c;
     messages := messages c; lastActivityAt := lastActivityAt c;
     isSpeaking := v; streamStart := streamStart c |}.

(** ** Procedures: state passing with an effect log *)

Definition Proc := Session -> Session * list Effect.

Definition skip : Proc := fun s => (s, []).

Definition emit (e : Effect) : Proc := fun s => (s, [e]).

Definition update (f : Session -> Session) : Proc := fun s => (f s, []).

Definition and_then (p q : Proc) : Proc :=
  fun s => let r1 := p s in let r2 := q r1.1 in (r2.1, r1.2 ++ r2.2).

Notation "p >> q" := (and_then p q) (at level 62, right associativity).

Definition when (b : bool) (p : Proc) : Proc := if b then p else skip.

Fixpoint repeat_proc (n : nat) (p : Proc) : Proc :=
  match n with
  | O => skip
  | S n' => p >> repeat_proc n' p
  end.

(** ** Timers of the runtime *)

Definition setTimeout (cb : TimerCallback) (ms : Z) (s : Session) : nat * Session :=
  (length (timers s),
   set_timers (timers s ++ [{| deadline := now s + ms; callback := cb; status := Armed |}]) s).

Definition clear (t : Timer) : Timer :=
  match status t with
  | Armed => {| deadline := deadline t; callback := callback t; status := Cleared |}
  | _ => t
  end.

Definition clearTimeout (i : nat) (s : Session) : Session :=
  set_timers (alter clear i (timers s)) s.

(** ** The transcription bridge ([createSttStream]) *)

Module Bridge.

Definition put (b : nat) (br : SttStream) (s : Session) : Session :=
  set_bridges (<[b := br]> (bridges s)) s.

Definition start (env : Env) (b : nat) : Proc := fun s =>
  match bridges s !! b with
  | None => (s, [])
  | Some br =>
      if negb (deepgram_configured env) then
        (s, [ConsoleWarn "[STT] DEEPGRAM_API_KEY not set; STT disabled"])
      else
        match connection br with
        | Some _ => (s, [])
        | None =>
            let c := length (connections s) in
            (set_connections
               (connections s ++ [{| owner := b; transcript_listeners := 0 |}])
               (put b {| opts := opts br; connection := Some c; closed := false |} s),
             [ProviderOpen c (live_schema (opts br))])
        end
  end.

Definition write (b : nat) (chunk : list byte) : Proc := fun s =>
  match bridges s !! b with
  | None => (s, [])
  | Some br =>
      match connection br with
      | Some c =>
          if negb (closed br) && negb (Nat.eqb (length chunk) 0)
          then (s, [ProviderSend c chunk])
          else (s, [])
      | None => (s, [])
      end
  end.

Definition stop (b : nat) : Proc := fun s =>
  match bridges s !! b with
  | None => (s, [])
  | Some br =>
      (put b {| opts := opts br; connection := None; closed := true |} s,
       match connection br with
       | Some c => [ProviderFinish c]
       | None => []
       end)
  end.

(** Provider events.  The listeners of connection [c] close over the
    variables of the bridge that opened it. *)

Definition add_listener (c : nat) (s : Session) : Session :=
  set_connections
    (alter (fun cn => {| owner := owner cn;
                         transcript_listeners := S (transcript_listeners cn) |})
           c (connections s)) s.

(** Open: [connection?.on(Transcript, ...)] on the bridge's current
    connection. *)
Definition on_open (c : nat) : Proc := fun s =>
  match connections s !! c with
  | None => (s, [])
  | Some cn =>
      match bridges s !! owner cn with
      | None => (s, [])
      | Some br =>
          match connection br with
          | Some c' => (add_listener c' s, [])
          | None => (s, [])
          end
      end
  end.

Definition on_close (c : nat) : Proc := fun s =>
  match connections s !! c with
  | None => (s, [])
  | Some cn =>
      match bridges s !! owner cn with
      | None => (s, [])
      | Some br =>
          (put (owner cn) {| opts := opts br; connection := None; closed := closed br |} s, [])
      end
  end.

Definition on_error (c : nat) : Proc := fun s =>
  match connections s !! c with
  | None => (s, [])
  | Some cn =>
      match bridges s !! owner cn with
      | None => (s, [])
      | Some br =>
          (put (owner cn) {| opts := opts br; connection := None; closed := closed br |} s,
           if negb (closed br)
           then [ConsoleWarn "[STT] Deepgram connection error (client may have disconnected):"]
           else [])
      end
  end.

Definition transcript_text (d : TranscriptData) : string :=
  default "" (alternative_transcript d).

Definition transcript_isFinal (d : TranscriptData) : bool :=
  match speech_final d with
  | Some b => b
  | None => default true (is_final d)
  end.

(** One Transcript listener, given the bridge's callback. *)
Definition listener (onTranscript : string -> bool -> Proc) (d : TranscriptData) : Proc :=
  let transcript := transcript_text d in
  let isFinal := transcript_isFinal d in
  when (JS.truthy transcript) (onTranscript (JS.trim transcript) isFinal).

Definition on_transcript (onTranscript : string -> bool -> Proc)
    (c : nat) (d : TranscriptData) : Proc := fun s =>
  match connections s !! c with
  | None => (s, [])
  | Some cn => repeat_proc (transcript_listeners cn) (listener onTranscript d) s
  end.

End Bridge.

Definition createSttStream (options : SttStreamOptions) (s : Session) : nat * Session :=
  (length (bridges s),
   set_bridges (bridges s ++ [{| opts := spread DEFAULT_OPTIONS options;
                                 connection := None; closed := false |}]) s).

(** ** The stream handler ([handleStream], [processUserInput]) *)

Definition SILENCE_TIMEOUT_MS : Z := 4000.
Definition MAX_TURN_DURATION_MS : Z := 30000.

Definition FALLBACK : string := "Sorry, I had a small hiccup. Can you say that again?".

Definition resetSilenceTimer : Proc := fun s =>
  let s1 := match silenceTimer s with
            | Some i => clearTimeout i s
            | None => s
            end in
  let s2 := set_ctx (with_lastActivityAt (now s1)) s1 in
  let r := setTimeout SilenceCallback SILENCE_TIMEOUT_MS s2 in
  (set_silenceTimer (Some r.1) r.2, []).

Definition clearTurnTimeout : Proc := fun s =>
  match turnTimeout s with
  | Some i => (set_turnTimeout None (clearTimeout i s), [])
  | None => (s, [])
  end.

Definition push (m : Message) : Proc :=
  update (set_ctx (fun c => with_messages (messages c ++ [m]) c)).

Definition park (k : nat) (t : Task) : Proc :=
  update (fun s => set_tasks (<[k := t]> (tasks s)) s).

Definition media_event (sid : string) (audio : list byte) : JS.json :=
  JS.JObject [("event", JS.JString "media");
              ("streamSid", JS.JString sid);
              ("media", JS.JObject [("payload", JS.JString (JS.toString_base64 audio))])].

(** [if (audio && ws.readyState === WebSocket.OPEN && ctx.streamSid) ws.send(...)];
    [audio] is a Buffer (always truthy) or the [null] of the fallback path. *)
Definition send_media (audio : option (list byte)) : Proc := fun s =>
  match audio, streamSid (ctx s) with
  | Some buf, Some sid =>
      if is_open (readyState s) && JS.truthy sid
      then (s, [WsSend (JS.stringify (media_event sid buf))])
      else (s, [])
  | _, _ => (s, [])
  end.

(** [processUserInput] up to its first [await]. *)
Definition processUserInput (env : Env) (text : string) : Proc := fun s =>
  let s1 := (push {| role := user; content := text |} s).1 in
  let s2 := set_ctx (with_isSpeaking true) s1 in
  let r := setTimeout TurnCallback MAX_TURN_DURATION_MS s2 in
  let timeout := r.1 in
  let s3 := r.2 in
  let config := getVertical env (vertical (ctx s3)) in
  let k := length (tasks s3) in
  (set_tasks (tasks s3 ++ [AwaitRunBrain timeout]) s3,
   [RunBrain k config (messages (ctx s3))]).

(** The [catch] block up to its [await]. *)
Definition pipeline_catch (k timeout : nat) : Proc :=
  emit (ConsoleError "[stream] runBrain error") >>
  emit (TextToSpeech k FALLBACK) >>
  park k (AwaitFallback timeout).

(** The [finally] block; the promise of [processUserInput] is fulfilled. *)
Definition pipeline_finally (k timeout : nat) : Proc :=
  update (clearTimeout timeout) >>
  update (set_ctx (with_isSpeaking false)) >>
  park k (Settled true).

(** [ctx.lastActivityAt = Date.now()] *)
Definition touch : Proc := fun s => (set_ctx (with_lastActivityAt (now s)) s, []).

(** [onTranscript] of the bridge created by the handler. *)
Definition onTranscript (env : Env) (text : string) (isFinal : bool) : Proc :=
  if negb (JS.truthy (JS.trim text)) || negb isFinal then skip
  else touch >> clearTurnTimeout >> processUserInput env text.

(** The asynchronous greeting function, up to its [await]. *)
Definition greet (verticalConfig : VerticalConfig) : Proc := fun s =>
  let s1 := set_ctx (with_isSpeaking true) s in
  let k := length (tasks s1) in
  (set_tasks (tasks s1 ++ [AwaitGreeting]) s1, [TextToSpeech k (greeting verticalConfig)]).

(** [if (!sttStream) { sttStream = createSttStream({...}); sttStream.start(); }] *)
Definition ensure_sttStream (env : Env) : Proc := fun s =>
  match sttStream s with
  | None =>
      let r := createSttStream no_options s in
      (update (set_sttStream (Some r.1)) >> Bridge.start env r.1) r.2
  | Some _ => (s, [])
  end.

(** [sttStream.write(chunk)] *)
Definition write_sttStream (chunk : list byte) : Proc := fun s =>
  match sttStream s with
  | Some b => Bridge.write b chunk s
  | None => (s, [])
  end.

(** [sttStream?.stop()] *)
Definition stop_sttStream : Proc := fun s =>
  match sttStream s with
  | Some b => Bridge.stop b s
  | None => (s, [])
  end.

Definition on_media (env : Env) (payload : string) : Proc :=
  ensure_sttStream env >>
  write_sttStream (JS.Buffer_from_base64 payload) >>
  resetSilenceTimer.

(** The greeting dispatch of the 'start' branch. *)
Definition dispatch_greeting (env : Env) : Proc := fun s =>
  let verticalConfig := getVertical env (vertical (ctx s)) in
  (resetSilenceTimer >> greet verticalConfig) s.

Definition on_start (env : Env) (msg : InboundMessage) : Proc :=
  let streamSid :=
    match msg_streamSid msg with
    | Some x => Some x
    | None => start msg ≫= start_streamSid
    end in
  when (JS.truthy_opt streamSid) (update (set_ctx (with_streamSid streamSid))) >>
  when (JS.truthy_opt (start msg ≫= start_vertical))
       (update (set_ctx (with_vertical (default "" (start msg ≫= start_vertical))))) >>
  dispatch_greeting env.

Definition on_stop : Proc :=
  stop_sttStream >> update (set_sttStream None).

(** The 'message' listener. *)
Definition on_message (env : Env) (m : option InboundMessage) : Proc :=
  match m with
  | None => emit (ConsoleError "[stream] message error")
  | Some msg =>
      when (String.eqb (event msg) "media" && JS.truthy_opt (media_payload msg))
           (on_media env (default "" (media_payload msg))) >>
      when (String.eqb (event msg) "start") (on_start env msg) >>
      when (String.eqb (event msg) "stop") on_stop
  end.

(** [if (silenceTimer) clearTimeout(silenceTimer)] *)
Definition clear_silenceTimer : Proc := fun s =>
  match silenceTimer s with
  | Some i => (clearTimeout i s, [])
  | None => (s, [])
  end.

(** The 'close' listener. *)
Definition on_close : Proc :=
  clear_silenceTimer >> clearTurnTimeout >> stop_sttStream.

(** [processUserInput] resumed when [runBrain] settles. *)
Definition resume_brain (k : nat) (reply : option string) : Proc := fun s =>
  match tasks s !! k with
  | Some (AwaitRunBrain timeout) =>
      match reply with
      | Some r =>
          (push {| role := assistant; content := r |} >>
           emit (TextToSpeech k r) >>
           park k (AwaitTextToSpeech timeout)) s
      | None => pipeline_catch k timeout s
      end
  | _ => (s, [])
  end.

(** A suspended function resumed when its [textToSpeech] call settles. *)
Definition resume_tts (env : Env) (k : nat) (o : TtsOracle) : Proc := fun s =>
  match tasks s !! k with
  | Some (AwaitTextToSpeech timeout) =>
      match textToSpeech env o with
      | Some audio => (send_media (Some audio) >> pipeline_finally k timeout) s
      | None => pipeline_catch k timeout s
      end
  | Some (AwaitFallback timeout) =>
      (* textToSpeech(fallback).catch(() => null) *)
      (send_media (textToSpeech env o) >> pipeline_finally k timeout) s
  | Some AwaitGreeting =>
      match textToSpeech env o with
      | Some audio =>
          (send_media (Some audio) >>
           update (set_ctx (with_isSpeaking false)) >>
           park k (Settled true)) s
      | None =>
          (update (set_ctx (with_isSpeaking false)) >>
           park k (Settled false) >>
           emit (UnhandledRejection k)) s
      end
  | _ => (s, [])
  end.

(** ** Passage of time *)

Definition due (target : Z) (t : Timer) : bool :=
  match status t with
  | Armed => deadline t <=? target
  | _ => false
  end.

(** The armed timer with the least deadline not after [target]; among equal
    deadlines the one created first.  [i] is the index of the head of [ts]. *)
Fixpoint next_due (target : Z) (ts : list Timer) (i : nat) : option (nat * Z) :=
  match ts with
  | [] => None
  | t :: ts' =>
      let rest := next_due target ts' (S i) in
      if due target t then
        match rest with
        | Some (j, d) => if d <? deadline t then Some (j, d) else Some (i, deadline t)
        | None => Some (i, deadline t)
        end
      else rest
  end.

Definition run_callback (cb : TimerCallback) (s : Session) : Session :=
  match cb with
  | SilenceCallback => s        (* if (ctx.isSpeaking) return; and nothing else *)
  | TurnCallback => set_ctx (with_isSpeaking false) s
  end.

Definition fire (i : nat) (s : Session) : Session :=
  match timers s !! i with
  | Some t =>
      run_callback (callback t)
        (set_timers (<[i := {| deadline := deadline t; callback := callback t;
                               status := Fired (deadline t) |}]> (timers s))
           (set_now (Z.max (now s) (deadline t)) s))
  | None => s
  end.

Fixpoint run_timers (fuel : nat) (target : Z) (s : Session) : Session :=
  match fuel with
  | O => s
  | S fuel' =>
      match next_due target (timers s) 0 with
      | Some (i, _) => run_timers fuel' target (fire i s)
      | None => s
      end
  end.

Definition elapse (dt : Z) : Proc := fun s =>
  let target := now s + Z.max 0 dt in
  (set_now target (run_timers (length (timers s)) target s), []).

(** ** The transition function *)

Definition step (env : Env) (ev : Event) : Proc :=
  match ev with
  | WsMessage m => on_message env m
  | WsClose => update (set_readyState CLOSED) >> on_close
  | WsReadyState r => update (set_readyState r)
  | ConnOpen c => Bridge.on_open c
  | ConnTranscript c d => Bridge.on_transcript (onTranscript env) c d
  | ConnClose c => Bridge.on_close c
  | ConnError c => Bridge.on_error c
  | BrainSettled k reply => resume_brain k reply
  | TtsSettled k o => resume_tts env k o
  | Elapse dt => elapse dt
  end.

Fixpoint run (env : Env) (evs : list Event) : Proc :=
  match evs with
  | [] => skip
  | ev :: evs' => step env ev >> run env evs'
  end.

(** [handleStream(ws, params)] at time [t0]: the session it sets up. *)
Definition handleStream (env : Env) (params : gmap string string) (t0 : Z) : Session :=
  let callSid := default "unknown" (params !! "CallSid") in
  let vertical :=
    match params !! "vertical" with
    | Some v => v
    | None => default "sales" (BOT_VERTICAL env)
    end in
  {| ctx := {| callSid := callSid; streamSid := None; vertical := vertical;
               messages := []; lastActivityAt := t0; isSpeaking := false;
               streamStart := t0 |};
     sttStream := None; silenceTimer := None; turnTimeout := None;
     bridges := []; connections := []; timers := []; tasks := [];
     readyState := OPEN; now := t0 |}.

Definition reachable (env : Env) (s : Session) : Prop :=
  exists params t0 evs, s = (run env evs (handleStream env params t0)).1.

(** ** Speech synthesis for the browser *)

(** [textToSpeechForBrowser(text, options)]: the raw audio, not converted.
    The options only shape the request sent to Deepgram. *)
Definition textToSpeechForBrowser (env : Env) (o : TtsOracle) : option (list byte) :=
  getRawTts env o.

(** ** The list of persona identifiers ([getVerticalIds]) *)

(** [Object.keys(verticals)], in the order of the literal. *)
Definition builtIn_ids : list string :=
  ["sales"; "support"; "banking"; "healthcare"; "hr"; "hospitality"].

(** [Object.keys(customVerticals)].  The keys come in the order of the file
    they were read from, of which [Env] keeps no record; here they come in
    the order of the map. *)
Definition custom_ids (env : Env) : list string :=
  (map_to_list (customVerticals env)).*1.

Definition getVerticalIds (env : Env) : list string :=
  let builtIn := builtIn_ids in
  let custom := filter (fun k => k ∉ builtIn) (custom_ids env) in
  builtIn ++ custom.

(** ** TwiML responses ([src/telephony/twilio.ts]) *)

Module Twilio.

(** [s.replace(/c/g, r)] for a pattern of one character. *)
Fixpoint replace_char (c : ascii) (r : string) (s : string) : string :=
  match s with
  | EmptyString => EmptyString
  | String x s' =>
      if Ascii.eqb x c then r ++ replace_char c r s'
      else String x (replace_char c r s')
  end.

Definition c_amp : ascii := "&"%char.
Definition c_lt : ascii := "<"%char.
Definition c_gt : ascii := ">"%char.
Definition c_quot : ascii := "034"%char.
Definition c_apos : ascii := "'"%char.

Definition escapeXml (s : string) : string :=
  replace_char c_apos "&apos;"
    (replace_char c_quot "&quot;"
       (replace_char c_gt "&gt;"
          (replace_char c_lt "&lt;"
             (replace_char c_amp "&amp;" s)))).

(** [s.replace(/\/$/, '')]: a slash at the very end is removed. *)
Fixpoint strip_trailing_slash (s : string) : string :=
  match s with
  | EmptyString => EmptyString
  | String c EmptyString => if Ascii.eqb c "/" then EmptyString else s
  | String c s' => String c (strip_trailing_slash s')
  end.

(** [process.env.BASE_URL?.replace(/\/$/, '') || 'http://localhost:3000'] *)
Definition baseUrl (BASE_URL : option string) : string :=
  match BASE_URL with
  | Some u =>
      let r := strip_trailing_slash u in
      if JS.truthy r then r else "http://localhost:3000"
  | None => "http://localhost:3000"
  end.

Definition streamUrl (BASE_URL : option string) : string :=
  baseUrl BASE_URL ++ "/voice/stream".

(** [process.env.BOT_VERTICAL || 'sales'], the value of the [vertical]
    parameter of the stream. *)
Definition vertical_parameter (env : Env) : string :=
  match BOT_VERTICAL env with
  | Some v => if JS.truthy v then v else "sales"
  | None => "sales"
  end.

(** What a handler hands to the Express response. *)
Record Response := { content_type : string; body : string }.

Definition nl : string := String "010"%char EmptyString.
Definition q : string := JS.dquote.

Definition xml_declaration : string :=
  "<?xml version=" ++ q ++ "1.0" ++ q ++ " encoding=" ++ q ++ "UTF-8" ++ q ++ "?>".

Definition twimlConnectStream (env : Env) (BASE_URL : option string) : Response :=
  {| content_type := "text/xml";
     body :=
       xml_declaration ++ nl ++
       "<Response>" ++ nl ++
       "  <Connect>" ++ nl ++
       "    <Stream url=" ++ q ++ streamUrl BASE_URL ++ q ++
         " track=" ++ q ++ "both_tracks" ++ q ++ ">" ++ nl ++
       "      <Parameter name=" ++ q ++ "vertical" ++ q ++
         " value=" ++ q ++ vertical_parameter env ++ q ++ " />" ++ nl ++
       "    </Stream>" ++ nl ++
       "  </Connect>" ++ nl ++
       "</Response>" |}.

Definition twimlSayAndHangup (message : string) : Response :=
  {| content_type := "text/xml";
     body :=
       xml_declaration ++ nl ++
       "<Response>" ++ nl ++
       "  <Say voice=" ++ q ++ "Polly.Joanna" ++ q ++ ">" ++ escapeXml message ++ "</Say>" ++ nl ++
       "  <Hangup/>" ++ nl ++
       "</Response>" |}.

Definition twimlSayAndRedirect (message redirectUrl : string) : Response :=
  {| content_type := "text/xml";
     body :=
       xml_declaration ++ nl ++
       "<Response>" ++ nl ++
       "  <Say voice=" ++ q ++ "Polly.Joanna" ++ q ++ ">" ++ escapeXml message ++ "</Say>" ++ nl ++
       "  <Redirect>" ++ escapeXml redirectUrl ++ "</Redirect>" ++ nl ++
       "</Response>" |}.

(** [src/telephony/webhooks.ts] *)
Definition handleInbound (env : Env) (BASE_URL : option string) : Response :=
  twimlConnectStream env BASE_URL.

Definition handleOutbound (env : Env) (BASE_URL : option string) : Response :=
  twimlConnectStream env BASE_URL.

Definition handleFallback : Response :=
  twimlSayAndHangup "We are unable to take your call right now. Please try again later.".

End Twilio.

(** ** The reasoning engine (the brain module: [runBrain], [runTool]) *)

Module Brain.

(** Configuration of the module, read when it is loaded.  The OpenAI key is
    the one of [Env] ([openai_configured]). *)
Record LlmEnv := {
  (** [GROQ_API_KEY || GROK_API_KEY || ''] *)
  groqApiKey : string;
  LLM_PROVIDER : option string;
  GROQ_CHAT_MODEL : option string;
  OLLAMA_CHAT_MODEL : option string;
  OPENAI_CHAT_MODEL : option string;
}.

Inductive Client := GroqClient | OpenAIClient | OllamaClient.

Definition groqClient (lenv : LlmEnv) : option Client :=
  if JS.truthy (groqApiKey lenv) then Some GroqClient else None.

Definition openaiClient (env : Env) : option Client :=
  if openai_configured env then Some OpenAIClient else None.

Definition is_ollama (lenv : LlmEnv) : bool :=
  match LLM_PROVIDER lenv with
  | Some p => String.eqb p "ollama"
  | None => false
  end.

Definition ollamaClient (lenv : LlmEnv) : option Client :=
  if is_ollama lenv then Some OllamaClient else None.

Definition exists_ {A} (c : option A) : bool :=
  match c with Some _ => true | None => false end.

(** [a ?? b] *)
Definition nullish {A} (a b : option A) : option A :=
  match a with Some x => Some x | None => b end.

(** A provider name is a string at run time: the server passes on what the
    request says. *)
Definition getClient (env : Env) (lenv : LlmEnv) (provider : string) : option Client :=
  if String.eqb provider "groq" then groqClient lenv
  else if String.eqb provider "openai" then openaiClient env
  else if String.eqb provider "ollama" then ollamaClient lenv
  else nullish (groqClient lenv) (nullish (openaiClient env) (ollamaClient lenv)).

Definition getAvailableProviders (env : Env) (lenv : LlmEnv) : list string :=
  let out :=
    (if exists_ (groqClient lenv) || JS.truthy (groqApiKey lenv) then ["groq"] else [])
    ++ (if exists_ (openaiClient env) then ["openai"] else [])
    ++ (if exists_ (ollamaClient lenv) then ["ollama"] else []) in
  if negb (Nat.eqb (length out) 0) then out
  else if JS.truthy (groqApiKey lenv) then ["groq"] else [].

Definition getProvider (env : Env) (lenv : LlmEnv) : string :=
  if JS.truthy (groqApiKey lenv) then "groq"
  else if openai_configured env then "openai"
  else if is_ollama lenv then "ollama"
  else "groq".

(** [a || b] on an optional string. *)
Definition or_else (a : option string) (b : string) : string :=
  match a with
  | Some x => if JS.truthy x then x else b
  | None => b
  end.

Definition getDefaultModel (lenv : LlmEnv) (provider : string) : string :=
  if String.eqb provider "groq" then or_else (GROQ_CHAT_MODEL lenv) "llama-3.3-70b-versatile"
  else if String.eqb provider "ollama" then or_else (OLLAMA_CHAT_MODEL lenv) "llama3.2"
  else or_else (OPENAI_CHAT_MODEL lenv) "gpt-4o-mini".

(** The keys of the [toolDefinitions] literal, in its order. *)
Definition toolDefinitions_keys : list string :=
  ["book_meeting"; "update_crm"; "escalate_to_agent"; "create_ticket"; "search_kb";
   "account_balance"; "recent_transactions"; "book_appointment"; "cancel_appointment"].

(** Names that every object literal answers to through its prototype, all
    with a truthy value. *)
Definition Object_prototype_keys : list string :=
  ["constructor"; "__defineGetter__"; "__defineSetter__"; "hasOwnProperty";
   "__lookupGetter__"; "__lookupSetter__"; "isPrototypeOf"; "propertyIsEnumerable";
   "toString"; "valueOf"; "__proto__"; "toLocaleString"].

Definition mem (x : string) (l : list string) : bool :=
  existsb (String.eqb x) l.

(** [Boolean(toolDefinitions[name])] *)
Definition has_definition (name : string) : bool :=
  mem name toolDefinitions_keys || mem name Object_prototype_keys.

(** [config.tools.map((name) => toolDefinitions[name]).filter(Boolean)],
    each definition named by its key. *)
Definition offered_tools (config : VerticalConfig) : list string :=
  List.filter has_definition (tools config).

Definition not_implemented (name : string) : string :=
  "Tool " ++ name ++ " is not implemented yet.".

Definition runTool (name : string) : string :=
  if String.eqb name "escalate_to_agent" then
    "Escalation requested. In production, this would transfer the call to a human agent."
  else if String.eqb name "book_meeting" || String.eqb name "book_appointment" then
    "Booking noted. In production, this would integrate with your calendar."
  else if String.eqb name "update_crm" then "CRM update noted."
  else if String.eqb name "create_ticket" then
    "Ticket created. A support agent will follow up."
  else if String.eqb name "search_kb" then
    "Knowledge base search completed. Use the answer from the knowledge base in your reply."
  else if String.eqb name "account_balance" || String.eqb name "recent_transactions" then
    "In production, verify caller identity then return balance or transactions."
  else if String.eqb name "cancel_appointment" then
    "Cancellation noted. In production, this would cancel the appointment."
  else not_implemented name.

(** What a completion carries, as far as [runBrain] reads it. *)
Record ToolCall := {
  call_id : string;
  function_name : string;
  function_arguments : string;
}.

Record ChoiceMessage := {
  message_content : option string;      (* string | null *)
  tool_calls : list ToolCall;           (* absent: [] *)
}.

(** The answers of the provider to the first and to the follow-up request;
    [None] is a rejected promise, the list is [choices]. *)
Record LlmOracle := {
  completion : option (list ChoiceMessage);
  followUp : option (list ChoiceMessage);
}.

Record RunBrainOptions := {
  provider : option string;
  model : option string;
}.

Definition no_options : RunBrainOptions := {| provider := None; model := None |}.

(** A request to [client.chat.completions.create].  The system message is
    free text built from the persona and is left out. *)
Record Request := {
  req_client : Client;
  req_model : string;
  req_history : list Message;
  (** [tools.length ? tools : undefined]; absent in the follow-up. *)
  req_tools : option (list string);
  (** The follow-up adds the assistant's message and the tool result. *)
  req_tool_result : option (ChoiceMessage * string * string);
}.

Definition no_key (provider : string) : string :=
  "No API key for " ++ provider ++ ". Set GROQ_API_KEY and/or OPENAI_API_KEY in .env.".

(** [runBrain(config, messages, options)]: the requests it makes and what
    its promise settles to ([None]: rejected). *)
Definition runBrain (env : Env) (lenv : LlmEnv) (o : LlmOracle)
    (config : VerticalConfig) (messages : list Message) (options : RunBrainOptions)
    : list Request * option string :=
  let provider := default (getProvider env lenv) (provider options) in
  match getClient env lenv provider with
  | None => ([], Some (no_key provider))
  | Some client =>
      let model := or_else (model options) (getDefaultModel lenv provider) in
      let tools := offered_tools config in
      let first :=
        {| req_client := client; req_model := model; req_history := messages;
           req_tools := if negb (Nat.eqb (length tools) 0) then Some tools else None;
           req_tool_result := None |} in
      match completion o with
      | None => ([first], None)
      | Some [] => ([first], Some "I did not get a response. Can you repeat?")
      | Some (msg :: _) =>
          match tool_calls msg with
          | toolCall :: _ =>
              let toolResult := runTool (function_name toolCall) in
              let second :=
                {| req_client := client; req_model := model; req_history := messages;
                   req_tools := None;
                   req_tool_result := Some (msg, call_id toolCall, toolResult) |} in
              match followUp o with
              | None => ([first; second], None)
              | Some choices =>
                  let text := head choices ≫= message_content in
                  ([first; second],
                   Some (match text with
                         | Some t =>
                             if JS.truthy t && JS.truthy (JS.trim t) then t
                             else "Done. Anything else?"
                         | None => "Done. Anything else?"
                         end))
              end
          | [] =>
              ([first],
               Some (match message_content msg with
                     | Some t =>
                         if JS.truthy t && JS.truthy (JS.trim t) then JS.trim t
                         else "Anything else I can help with?"
                     | None => "Anything else I can help with?"
                     end))
          end
      end
  end.

End Brain.

(** ** The test page's voice channel ([handleTestVoice]) *)

Module TestVoice.

(** The options of the bridge: what the browser sends. *)
Definition options : SttStreamOptions :=
  {| encoding := Some linear16; sample_rate := Some 16000; channels := Some 1;
     utterance_end_ms := Some 4000 |}.

(** [JSON.stringify({ transcript: text, isFinal })] *)
Definition transcript_event (text : string) (isFinal : bool) : string :=
  "{" ++ JS.quote "transcript" ++ ":" ++ JS.quote text ++ ","
      ++ JS.quote "isFinal" ++ ":" ++ (if isFinal then "true" else "false") ++ "}".

(** [onTranscript] of the bridge: [if (ws.readyState !== 1) return; ws.send(...)] *)
Definition onTranscript (text : string) (isFinal : bool) : Proc := fun s =>
  if negb (is_open (readyState s)) then (s, [])
  else (s, [WsSend (transcript_event text isFinal)]).

Inductive Event :=
| Message (data : option (list byte))   (* None: an array of buffers, not a Buffer *)
| Close
| Error
| ReadyState (r : ReadyState)           (* the channel changes state; no handler runs *)
| ConnOpen (c : nat)
| ConnTranscript (c : nat) (d : TranscriptData)
| ConnClose (c : nat)
| ConnError (c : nat).

(** [if (Buffer.isBuffer(data) && data.length) sttStream.write(data)] *)
Definition on_message (data : option (list byte)) : Proc :=
  match data with
  | Some buf => when (negb (Nat.eqb (length buf) 0)) (write_sttStream buf)
  | None => skip
  end.

Definition step (ev : Event) : Proc :=
  match ev with
  | Message data => on_message data
  | Close => update (set_readyState CLOSED) >> stop_sttStream
  | Error => stop_sttStream
  | ReadyState r => update (set_readyState r)
  | ConnOpen c => Bridge.on_open c
  | ConnTranscript c d => Bridge.on_transcript onTranscript c d
  | ConnClose c => Bridge.on_close c
  | ConnError c => Bridge.on_error c
  end.

Fixpoint run (evs : list Event) : Proc :=
  match evs with
  | [] => skip
  | ev :: evs' => step ev >> run evs'
  end.

(** The runtime objects of a channel that has just been accepted.  The test
    page keeps no call context: [ctx], the timers and the pending work of
    [Session] stay as they are here. *)
Definition accepted (t0 : Z) : Session :=
  {| ctx := {| callSid := ""; streamSid := None; vertical := ""; messages := [];
               lastActivityAt := t0; isSpeaking := false; streamStart := t0 |};
     sttStream := None; silenceTimer := None; turnTimeout := None;
     bridges := []; connections := []; timers := []; tasks := [];
     readyState := OPEN; now := t0 |}.

(** [handleTestVoice(ws)]: the bridge is created and started at once. *)
Definition handleTestVoice (env : Env) (t0 : Z) : Session * list Effect :=
  let r := createSttStream options (accepted t0) in
  (update (set_sttStream (Some r.1)) >> Bridge.start env r.1) r.2.

Definition is_teardown (ev : Event) : bool :=
  match ev with Close | Error => true | _ => false end.

Definition is_transcript (ev : Event) : bool :=
  match ev with ConnTranscript _ _ => true | _ => false end.

End TestVoice.

(** * Definitions used in the statements *)

(** [respects I Q p]: from a state satisfying [I], procedure [p] ends in a
    state satisfying [I] and performs only effects satisfying [Q]. *)
Definition respects (I : Session -> Prop) (Q : Effect -> Prop) (p : Proc) : Prop :=
  forall s, I s -> I (p s).1 /\ Forall Q (p s).2.

Definition any_effect (e : Effect) : Prop := True.

(** ** Invariants of the sessions the handler can be in *)

Definition turnTimeout_null (s : Session) : Prop := turnTimeout s = None.

Definition streamSid_assigned_nonempty (s : Session) : Prop :=
  streamSid (ctx s) <> Some "".

(** ** Pending work and the events that settle it *)

(** [ev] settles the reasoning or synthesis call of task [k]. *)
Definition settles (k : nat) (ev : Event) : bool :=
  match ev with
  | BrainSettled k' _ | TtsSettled k' _ => Nat.eqb k' k
  | _ => false
  end.

Definition task_is (k : nat) (t : Task) (s : Session) : Prop := tasks s !! k = Some t.

(** What makes a pipeline parked at task [k] fail: the reasoning engine
    rejects, or the synthesis of the reply rejects. *)
Definition pipeline_failure (env : Env) (s : Session) (k timeout : nat) (ev : Event) : Prop :=
  (tasks s !! k = Some (AwaitRunBrain timeout) /\ ev = BrainSettled k None)
  \/ (exists o, tasks s !! k = Some (AwaitTextToSpeech timeout)
                /\ ev = TtsSettled k o /\ textToSpeech env o = None).

(** ** Conversation history *)

Definition extends_history (M : list Message) (s : Session) : Prop :=
  exists added, messages (ctx s) = M ++ added.

(** Events that start no other turn and settle no other reasoning call. *)
Definition quiet (k : nat) (ev : Event) : bool :=
  match ev with
  | ConnTranscript _ d =>
      negb (Bridge.transcript_isFinal d)
      || negb (JS.truthy (JS.trim (Bridge.transcript_text d)))
  | BrainSettled k' _ => Nat.eqb k' k
  | _ => true
  end.

(** The first settlement of the reasoning call of task [k] among [evs]. *)
Fixpoint first_reply (k : nat) (evs : list Event) : option (option string) :=
  match evs with
  | [] => None
  | BrainSettled k' r :: evs' => if Nat.eqb k' k then Some r else first_reply k evs'
  | _ :: evs' => first_reply k evs'
  end.

Definition agent_turn (k : nat) (evs : list Event) : list Message :=
  match first_reply k evs with
  | Some (Some reply) => [{| role := assistant; content := reply |}]
  | _ => []
  end.

Definition awaits_reasoning (t : Task) : bool :=
  match t with AwaitRunBrain _ => true | _ => false end.

(** Task [k] exists and is past its reasoning call; the history is [M]. *)
Definition past_reasoning (k : nat) (M : list Message) (s : Session) : Prop :=
  (exists t, tasks s !! k = Some t /\ awaits_reasoning t = false)
  /\ messages (ctx s) = M.

Definition awaiting_reasoning (k : nat) (M : list Message) (s : Session) : Prop :=
  (exists timeout, tasks s !! k = Some (AwaitRunBrain timeout))
  /\ messages (ctx s) = M.

Definition is_BrainSettled (ev : Event) : bool :=
  match ev with BrainSettled _ _ => true | _ => false end.

(** The turns one event appends: a final non-empty transcript appends a
    caller turn for each listener of its connection, the successful
    settlement of a reasoning call that is awaited appends an agent turn, and
    nothing else appends anything. *)
Definition appended (ev : Event) (s : Session) : list Message :=
  match ev with
  | ConnTranscript c d =>
      if Bridge.transcript_isFinal d && JS.truthy (JS.trim (Bridge.transcript_text d))
      then
        match connections s !! c with
        | Some cn =>
            replicate (transcript_listeners cn)
              {| role := user; content := JS.trim (Bridge.transcript_text d) |}
        | None => []
        end
      else []
  | BrainSettled k (Some reply) =>
      match tasks s !! k with
      | Some (AwaitRunBrain _) => [{| role := assistant; content := reply |}]
      | _ => []
      end
  | _ => []
  end.

(** Task [k] exists and is past its reasoning call. *)
Definition reasoned (k : nat) (s : Session) : Prop :=
  exists t, tasks s !! k = Some t /\ awaits_reasoning t = false.

Definition history_is (M : list Message) (s : Session) : Prop := messages (ctx s) = M.

Definition starts_clean (s : string) : Prop :=
  match s with
  | EmptyString => True
  | String c _ => JS.is_white_space c = false
  end.

(** ** Bridges, connections and teardown *)

(** Only the bridge the handler currently holds can be connected. *)
Definition others_released (s : Session) : Prop :=
  forall b br, bridges s !! b = Some br -> sttStream s <> Some b -> connection br = None.

(** Connections opened before a given point are numbered below [n]; from a
    state in which no bridge holds such a connection, none is ever written
    to again. *)
Definition fresh_only (n : nat) (s : Session) : Prop :=
  (forall b br c, bridges s !! b = Some br -> connection br = Some c -> (n <= c)%nat)
  /\ (n <= length (connections s))%nat.

Definition sends_fresh (n : nat) (e : Effect) : Prop :=
  match e with
  | ProviderSend c _ => (n <= c)%nat
  | _ => True
  end.

Definition is_stop (ev : Event) : bool :=
  match ev with
  | WsMessage (Some m) => String.eqb (event m) "stop"
  | _ => false
  end.

Definition is_teardown (ev : Event) : bool :=
  match ev with
  | WsClose => true
  | _ => is_stop ev
  end.

Definition all_released (s : Session) : Prop :=
  forall b br, bridges s !! b = Some br -> connection br = None.

(** ** Concrete environments, messages and sessions *)

Definition env_dg : Env :=
  {| deepgram_configured := true; openai_configured := false;
     elevenLabs_configured := false; BOT_VERTICAL := None; customVerticals := ∅ |}.

Definition env_unconfigured : Env :=
  {| deepgram_configured := false; openai_configured := false;
     elevenLabs_configured := false; BOT_VERTICAL := None; customVerticals := ∅ |}.

Definition media_message (payload : string) : InboundMessage :=
  {| event := "media"; msg_streamSid := None; media_payload := Some payload; start := None |}.

Definition stop_message : InboundMessage :=
  {| event := "stop"; msg_streamSid := None; media_payload := None; start := None |}.

Definition start_message (sid : string) : InboundMessage :=
  {| event := "start"; msg_streamSid := Some sid; media_payload := None;
     start := Some {| start_streamSid := Some sid; start_vertical := None |} |}.

Definition final_transcript (text : string) : TranscriptData :=
  {| alternative_transcript := Some text; speech_final := Some true; is_final := Some true |}.

Definition interim_transcript (text : string) : TranscriptData :=
  {| alternative_transcript := Some text; speech_final := Some false; is_final := Some false |}.

Definition silent_oracle : TtsOracle :=
  {| deepgram_speak := None; elevenLabs_fetch := None; openai_speech := None;
     ffmpeg_mulaw := None |}.

Definition session0 : Session := handleStream env_dg ∅ 0.

Definition telephony_schema : LiveSchema := live_schema (spread DEFAULT_OPTIONS no_options).

(** ** Statements of the specification that fail on the code *)

Definition provider_io (e : Effect) : bool :=
  match e with
  | ProviderOpen _ _ | ProviderSend _ _ => true
  | _ => false
  end.

(** The claim as the specification words it: once a teardown event has been
    processed, nothing that follows opens or writes a provider connection. *)
Definition no_provider_io_after_teardown : Prop :=
  forall env s td after,
    reachable env s -> is_teardown td = true ->
    forallb (fun e => negb (provider_io e)) (run env after (step env td s).1).2 = true.

(** The claim as the specification words it: after a provider error on the
    connection of the bridge the handler holds, the next frame starts a new
    provider connection. *)
Definition error_recovery_on_next_frame : Prop :=
  forall env s c cn m,
    reachable env s ->
    deepgram_configured env = true ->
    connections s !! c = Some cn ->
    sttStream s = Some (owner cn) ->
    event m = "media" ->
    JS.truthy_opt (media_payload m) = true ->
    let s1 := (step env (ConnError c) s).1 in
    exists c' schema, In (ProviderOpen c' schema) (step env (WsMessage (Some m)) s1).2.

(** The claim as the specification words it, second half: a transcript
    callback delivered after teardown changes nothing and triggers nothing. *)
Definition no_transcript_honored_after_teardown : Prop :=
  forall env s td c d,
    reachable env s -> is_teardown td = true ->
    let s1 := (step env td s).1 in
    step env (ConnTranscript c d) s1 = (s1, []).

(** ** Teardown and timers *)

(** The bridge the handler holds, if any, has been stopped. *)
Definition stopped (s : Session) : Prop :=
  forall b br, sttStream s = Some b -> bridges s !! b = Some br ->
               connection br = None /\ closed br = true.

Definition not_armed_at (i : nat) (l : list Timer) : Prop :=
  forall t, l !! i = Some t -> status t <> Armed.

Definition pipeline_timer (t : Task) : option nat :=
  match t with
  | AwaitRunBrain x | AwaitTextToSpeech x | AwaitFallback x => Some x
  | _ => None
  end.

Definition timer_armed (s : Session) (i : nat) : bool :=
  match timers s !! i with
  | Some t => match status t with Armed => true | _ => false end
  | None => false
  end.

(** Timer handles held by the session refer to timers that exist. *)
Definition timers_bounded (s : Session) : Prop :=
  (forall i, silenceTimer s = Some i -> (i < length (timers s))%nat)
  /\ (forall k task x, tasks s !! k = Some task -> pipeline_timer task = Some x ->
                       (x < length (timers s))%nat).

Fixpoint due_count (target : Z) (ts : list Timer) : nat :=
  match ts with
  | [] => 0
  | t :: ts' => (if due target t then 1 else 0) + due_count target ts'
  end.

(** The turn timer [x] with deadline [D]: still armed, or fired at [D] with
    [isSpeaking] cleared since. *)
Definition armed_or_fired (x : nat) (D : Z) (s : Session) : Prop :=
  timers s !! x = Some {| deadline := D; callback := TurnCallback; status := Armed |}
  \/ (timers s !! x = Some {| deadline := D; callback := TurnCallback; status := Fired D |}
      /\ isSpeaking (ctx s) = false).

Definition stalled (k x : nat) (D : Z) (s : Session) : Prop :=
  tasks s !! k = Some (AwaitRunBrain x)
  /\ timers s !! x = Some {| deadline := D; callback := TurnCallback; status := Armed |}
  /\ turnTimeout s = None
  /\ (forall i, silenceTimer s = Some i -> i <> x)
  /\ (forall k' task, tasks s !! k' = Some task -> pipeline_timer task = Some x -> k' = k).

Definition is_Elapse (ev : Event) : bool :=
  match ev with Elapse _ => true | _ => false end.

Definition elapsed_by (ev : Event) : Z :=
  match ev with Elapse dt => Z.max 0 dt | _ => 0 end.

Fixpoint elapsed (evs : list Event) : Z :=
  match evs with
  | [] => 0
  | ev :: evs' => elapsed_by ev + elapsed evs'
  end.

Definition now_is (N : Z) (s : Session) : Prop := now s = N.

(** The events of one pipeline parked at task [k], from the settlement of
    its reasoning call to its completion, with unrelated events [g1], [g2] in
    between: success, reasoning failure, or synthesis failure. *)
Definition pipeline_run (env : Env) (k : nat) (reply : option string)
    (o1 o2 : TtsOracle) (g1 g2 : list Event) : list Event :=
  BrainSettled k reply :: g1 ++
  match reply with
  | None => [TtsSettled k o2]
  | Some _ =>
      TtsSettled k o1 ::
      match textToSpeech env o1 with
      | Some _ => []
      | None => g2 ++ [TtsSettled k o2]
      end
  end.

Definition cleaned_up (k timeout : nat) (s : Session) : Prop :=
  tasks s !! k = Some (Settled true)
  /\ timer_armed s timeout = false
  /\ isSpeaking (ctx s) = false.

(** ** More concrete sessions *)

Definition two_turns_before : Session :=
  (run env_dg [WsMessage (Some (media_message "AAEC")); ConnOpen 0;
               ConnTranscript 0 (final_transcript "hello"); Elapse 5000] session0).1.

Definition speaking_oracle : TtsOracle :=
  {| deepgram_speak := Some [x01; x02]; elevenLabs_fetch := None; openai_speech := None;
     ffmpeg_mulaw := Some [x07] |}.

Definition started : Session :=
  (run env_dg [WsMessage (Some (start_message "MZ1"))] session0).1.

Definition hung_up : Session :=
  (run env_dg [WsMessage (Some (start_message "MZ1")); WsClose] session0).1.

Definition in_turn : Session :=
  (run env_dg [WsMessage (Some (start_message "MZ1"));
               WsMessage (Some (media_message "AAEC")); ConnOpen 0;
               ConnTranscript 0 (final_transcript "hello")] session0).1.

Definition connected : Session :=
  (run env_dg [WsMessage (Some (media_message "AAEC")); ConnOpen 0] session0).1.

Definition greeting_pending : Session :=
  (run env_unconfigured [WsMessage (Some (start_message "MZ1"))]
     (handleStream env_unconfigured ∅ 0)).1.

(** * Definitions used in the further properties *)

(** ** Kinds of effects and events *)

Definition is_provider_effect (e : Effect) : bool :=
  match e with
  | ProviderOpen _ _ | ProviderSend _ _ | ProviderFinish _ => true
  | _ => false
  end.

Definition is_WsSend (e : Effect) : bool :=
  match e with WsSend _ => true | _ => false end.

Definition is_start (ev : Event) : bool :=
  match ev with
  | WsMessage (Some m) => String.eqb (event m) "start"
  | _ => false
  end.

Definition is_WsReadyState (ev : Event) : bool :=
  match ev with WsReadyState _ => true | _ => false end.

(** A frame written to the provider carries at least one byte. *)
Definition sends_audio (e : Effect) : Prop :=
  match e with
  | ProviderSend _ chunk => chunk <> []
  | _ => True
  end.

(** A reasoning request carries a history whose last turn is the caller's,
    with text that is not blank. *)
Definition asks_after_caller_turn (e : Effect) : Prop :=
  match e with
  | RunBrain _ _ history =>
      exists earlier text,
        history = earlier ++ [{| role := user; content := text |}]
        /\ JS.truthy (JS.trim text) = true
  | _ => True
  end.

(** No bridge is connected and no provider connection was ever opened. *)
Definition never_connected (s : Session) : Prop :=
  all_released s /\ connections s = [].

(** The only silence timer that can still fire is the one the handler holds. *)
Definition single_silence_timer (s : Session) : Prop :=
  forall i t, timers s !! i = Some t -> callback t = SilenceCallback -> status t = Armed ->
              silenceTimer s = Some i.

(** What [Elapse] leaves alone. *)
Definition same_but_timers (s s' : Session) : Prop :=
  messages (ctx s') = messages (ctx s)
  /\ streamSid (ctx s') = streamSid (ctx s)
  /\ vertical (ctx s') = vertical (ctx s)
  /\ sttStream s' = sttStream s
  /\ silenceTimer s' = silenceTimer s
  /\ bridges s' = bridges s
  /\ connections s' = connections s
  /\ tasks s' = tasks s
  /\ readyState s' = readyState s
  /\ length (timers s') = length (timers s)
  /\ (isSpeaking (ctx s') = true -> isSpeaking (ctx s) = true).

(** ** Frames and the silence timer *)

(** Frames that follow one another: before each frame, the time since the
    previous one. *)
Definition frame_events (frames : list (Z * string)) : list Event :=
  flat_map (fun f => [Elapse f.1; WsMessage (Some (media_message f.2))]) frames.

(** The frame carries a payload and comes less than the silence timeout
    after the previous one. *)
Definition in_time (f : Z * string) : Prop :=
  f.1 < SILENCE_TIMEOUT_MS /\ f.2 <> "".

(** Every silence timer that has fired in [s'] had already fired in [s]. *)
Definition no_silence_since (s s' : Session) : Prop :=
  forall i t d, timers s' !! i = Some t -> callback t = SilenceCallback ->
                status t = Fired d -> timers s !! i = Some t.

(** Armed silence timers are due strictly after [T]. *)
Definition silence_due_after (T : Z) (s : Session) : Prop :=
  forall i t, timers s !! i = Some t -> callback t = SilenceCallback ->
              status t = Armed -> T < deadline t.

(** ** Speech providers, personas and markup *)

(** The providers that are consulted, in the order of the source, with what
    each one answers; the last one is OpenAI, which answers with an empty
    buffer when it has no key. *)
Definition provider_chain (env : Env) (o : TtsOracle) : list (option (list byte)) :=
  (if deepgram_configured env then [deepgram_speak o] else [])
  ++ (if elevenLabs_configured env then [elevenLabs_fetch o] else [])
  ++ [if openai_configured env then openai_speech o else Some []].

Fixpoint first_answer (answers : list (option (list byte))) : option (list byte) :=
  match answers with
  | [] => None
  | Some audio :: _ => Some audio
  | None :: rest => first_answer rest
  end.

Definition with_customVerticals (m : gmap string VerticalConfig) (env : Env) : Env :=
  {| deepgram_configured := deepgram_configured env;
     openai_configured := openai_configured env;
     elevenLabs_configured := elevenLabs_configured env;
     BOT_VERTICAL := BOT_VERTICAL env;
     customVerticals := m |}.

Definition env_custom : Env :=
  {| deepgram_configured := true; openai_configured := false;
     elevenLabs_configured := false; BOT_VERTICAL := None;
     customVerticals :=
       list_to_map
         [("Retail", {| name := "Retail"; greeting := "Welcome to the shop."; tools := [] |});
          ("support", {| name := "Helpdesk"; greeting := "Helpdesk here."; tools := [] |})] |}.

(** The characters that are markup in XML text and attribute values. *)
Definition is_markup (c : ascii) : bool :=
  Ascii.eqb c Twilio.c_lt || Ascii.eqb c Twilio.c_gt
  || Ascii.eqb c Twilio.c_quot || Ascii.eqb c Twilio.c_apos.

Definition is_special (c : ascii) : bool := Ascii.eqb c Twilio.c_amp || is_markup c.

(** The entity that stands for a character. *)
Definition entity (c : ascii) : string :=
  if Ascii.eqb c Twilio.c_amp then "&amp;"
  else if Ascii.eqb c Twilio.c_lt then "&lt;"
  else if Ascii.eqb c Twilio.c_gt then "&gt;"
  else if Ascii.eqb c Twilio.c_quot then "&quot;"
  else if Ascii.eqb c Twilio.c_apos then "&apos;"
  else String c EmptyString.

Fixpoint escape_each (s : string) : string :=
  match s with
  | EmptyString => EmptyString
  | String c s' => entity c ++ escape_each s'
  end.

Fixpoint count_char (c : ascii) (s : string) : nat :=
  match s with
  | EmptyString => 0
  | String x s' => (if Ascii.eqb x c then 1 else 0) + count_char c s'
  end.

Fixpoint string_forall (p : ascii -> bool) (s : string) : bool :=
  match s with
  | EmptyString => true
  | String x s' => p x && string_forall p s'
  end.

Definition ends_with_slash (s : string) : bool :=
  negb (String.eqb (Twilio.strip_trailing_slash s) s).


(** ** Replies of the reasoning engine *)

(** The settlement event of the reasoning call of task [k], when the call is
    served by [runBrain]. *)
Definition brain_settles (env : Env) (lenv : Brain.LlmEnv) (o : Brain.LlmOracle)
    (k : nat) (config : VerticalConfig) (history : list Message) : Event :=
  BrainSettled k (Brain.runBrain env lenv o config history Brain.no_options).2.

Definition blank (s : string) : bool := negb (JS.truthy (JS.trim s)).

Definition builtIn_personas : list VerticalConfig :=
  [sales; support; banking; healthcare; hr; hospitality].

Definition implemented (name : string) : Prop :=
  Brain.runTool name <> Brain.not_implemented name.

Definition no_llm : Brain.LlmEnv :=
  {| Brain.groqApiKey := ""; Brain.LLM_PROVIDER := None; Brain.GROQ_CHAT_MODEL := None;
     Brain.OLLAMA_CHAT_MODEL := None; Brain.OPENAI_CHAT_MODEL := None |}.

(** The provider answers with white space only. *)
Definition blank_answer : Brain.LlmOracle :=
  {| Brain.completion :=
       Some [{| Brain.message_content := Some "   "; Brain.tool_calls := [] |}];
     Brain.followUp := None |}.

(** ** The channel of the test page *)

(** The bridge the handler holds, if any, is not connected. *)
Definition held_released (s : Session) : Prop :=
  forall b br, sttStream s = Some b -> bridges s !! b = Some br -> connection br = None.

(** At most one provider connection exists, and a bridge can only hold that
    one. *)
Definition one_connection (s : Session) : Prop :=
  (length (connections s) <= 1)%nat
  /\ (forall b br c, bridges s !! b = Some br -> connection br = Some c -> c = 0%nat).

Definition on_first_connection (e : Effect) : Prop :=
  match e with
  | ProviderOpen _ _ => False
  | ProviderSend c _ | ProviderFinish c => c = 0%nat
  | _ => True
  end.

(** A channel of the test page whose provider connection is open. *)
Definition test_listening : Session :=
  (TestVoice.run [TestVoice.ConnOpen 0] (TestVoice.handleTestVoice env_dg 0).1).1.

Definition is_TextToSpeech (e : Effect) : bool :=
  match e with TextToSpeech _ _ => true | _ => false end.

Definition env_openai : Env :=
  {| deepgram_configured := true; openai_configured := true;
     elevenLabs_configured := false; BOT_VERTICAL := None; customVerticals := ∅ |}.

(** A call that has just started, with every speech provider configured. *)
Definition started_openai : Session :=
  (run env_openai [WsMessage (Some (start_message "MZ1"))] (handleStream env_openai ∅ 0)).1.

(** * Properties *)

Example trim_example : JS.trim "  I need help " = "I need help".
Proof. reflexivity. Qed.

Example base64_example :
  JS.toString_base64 [Byte.x00; Byte.x01; Byte.x02; Byte.xff] = "AAEC/w=="
  /\ JS.Buffer_from_base64 "AAEC/w==" = [Byte.x00; Byte.x01; Byte.x02; Byte.xff].
Proof. split; reflexivity. Qed.

(** ** Reasoning about procedures *)

Lemma and_then_state (p q : Proc) s : ((p >> q) s).1 = (q (p s).1).1.
Proof. reflexivity. Qed.

Lemma and_then_effects (p q : Proc) s : ((p >> q) s).2 = (p s).2 ++ (q (p s).1).2.
Proof. reflexivity. Qed.

Lemma and_then_skip_l (p : Proc) s : (skip >> p) s = p s.
Proof. unfold and_then, skip; simpl. by destruct (p s). Qed.

Lemma repeat_proc_noop n (p : Proc) s : p s = (s, []) -> repeat_proc n p s = (s, []).
Proof.
  intros Hp. induction n as [|n IH]; [done|].
  simpl. unfold and_then. rewrite Hp. simpl. by rewrite IH.
Qed.

Lemma run_app env evs1 evs2 s :
  run env (evs1 ++ evs2) s =
  (let r1 := run env evs1 s in
   let r2 := run env evs2 r1.1 in (r2.1, r1.2 ++ r2.2)).
Proof.
  revert s. induction evs1 as [|ev evs1 IH]; intros s; simpl.
  - unfold skip. simpl. by destruct (run env evs2 s).
  - unfold and_then. rewrite IH. simpl. by rewrite app_assoc.
Qed.

Lemma run_cons env ev evs s :
  run env (ev :: evs) s =
  (let r1 := step env ev s in
   let r2 := run env evs r1.1 in (r2.1, r1.2 ++ r2.2)).
Proof. reflexivity. Qed.

(** ** Interim and empty transcripts *)

Lemma trim_empty : JS.trim "" = "".
Proof. reflexivity. Qed.

Lemma truthy_false s : JS.truthy s = false <-> s = "".
Proof. destruct s; simpl; split; congruence. Qed.

Lemma onTranscript_ignored env text isFinal s :
  isFinal = false \/ JS.trim text = "" ->
  onTranscript env text isFinal s = (s, []).
Proof.
  intros H. unfold onTranscript.
  destruct H as [-> | ->]; simpl; [|done].
  by rewrite orb_true_r.
Qed.

Lemma conn_transcript_ignored env c d s :
  Bridge.transcript_isFinal d = false \/ JS.trim (Bridge.transcript_text d) = "" ->
  step env (ConnTranscript c d) s = (s, []).
Proof.
  intros H. simpl. unfold Bridge.on_transcript.
  destruct (connections s !! c) as [cn|]; [|done].
  apply repeat_proc_noop. unfold Bridge.listener, when.
  destruct (JS.truthy (Bridge.transcript_text d)); [|done].
  apply onTranscript_ignored.
  destruct H as [H | H]; [by left|].
  right. by rewrite H.
Qed.

(** C6. A transcript event that is interim (not final) or whose trimmed text
    is empty changes nothing: the callback of the handler, and the provider
    event that invokes it through every registered listener, return the
    session as it was (history, flags, timers and pending work) and perform
    no effect. *)
Theorem interim_or_empty_transcript_changes_nothing env s :
  (forall text isFinal,
      isFinal = false \/ JS.trim text = "" ->
      onTranscript env text isFinal s = (s, []))
  /\ (forall c d,
      Bridge.transcript_isFinal d = false \/ JS.trim (Bridge.transcript_text d) = "" ->
      step env (ConnTranscript c d) s = (s, [])).
Proof.
  split.
  - intros text isFinal H. by apply onTranscript_ignored.
  - intros c d H. by apply conn_transcript_ignored.
Qed.

(** ** Invariants and effect properties, structurally *)

Section Respects.
Variable I : Session -> Prop.
Variable Q : Effect -> Prop.

Lemma respects_skip : respects I Q skip.
Proof. intros s Hs. split; [done|constructor]. Qed.

Lemma respects_emit e : Q e -> respects I Q (emit e).
Proof. intros He s Hs. split; [done|]. by repeat constructor. Qed.

Lemma respects_and_then p q : respects I Q p -> respects I Q q -> respects I Q (p >> q).
Proof.
  intros Hp Hq s Hs. destruct (Hp s Hs) as [H1 E1]. destruct (Hq _ H1) as [H2 E2].
  split; [done|]. rewrite and_then_effects. by apply Forall_app.
Qed.

Lemma respects_when b p : respects I Q p -> respects I Q (when b p).
Proof. intros Hp. destruct b; [done|apply respects_skip]. Qed.

Lemma respects_repeat n p : respects I Q p -> respects I Q (repeat_proc n p).
Proof.
  intros Hp. induction n as [|n IH]; simpl.
  - apply respects_skip.
  - by apply respects_and_then.
Qed.

Lemma respects_update f : (forall s, I s -> I (f s)) -> respects I Q (update f).
Proof. intros Hf s Hs. split; [by apply Hf|constructor]. Qed.

Lemma respects_onTranscript env text isFinal :
  respects I Q touch -> respects I Q clearTurnTimeout ->
  respects I Q (processUserInput env text) ->
  respects I Q (onTranscript env text isFinal).
Proof.
  intros H1 H2 H3. unfold onTranscript.
  destruct (_ || _); [apply respects_skip|].
  by repeat apply respects_and_then.
Qed.

Lemma respects_on_transcript (cb : string -> bool -> Proc) c d :
  (forall text isFinal, respects I Q (cb text isFinal)) ->
  respects I Q (Bridge.on_transcript cb c d).
Proof.
  intros Hcb s Hs. unfold Bridge.on_transcript.
  destruct (connections s !! c) as [cn|]; [|by apply respects_skip].
  apply respects_repeat; [|done].
  unfold Bridge.listener. by apply respects_when.
Qed.

Lemma run_timers_invariant fuel target :
  (forall i s, I s -> I (fire i s)) ->
  forall s, I s -> I (run_timers fuel target s).
Proof.
  intros Hfire. induction fuel as [|fuel IH]; intros s Hs; simpl; [done|].
  destruct (next_due target (timers s) 0) as [[i d]|]; auto.
Qed.

Lemma respects_elapse dt :
  (forall i s, I s -> I (fire i s)) ->
  (forall t s, I s -> I (set_now t s)) ->
  respects I Q (elapse dt).
Proof.
  intros Hfire Hnow s Hs. split; [|constructor].
  unfold elapse; simpl. apply Hnow. by apply run_timers_invariant.
Qed.

Lemma respects_run env evs :
  (forall ev, In ev evs -> respects I Q (step env ev)) -> respects I Q (run env evs).
Proof.
  induction evs as [|ev evs IH]; intros Hstep; simpl.
  - apply respects_skip.
  - apply respects_and_then; [apply Hstep; by left|].
    apply IH. intros ev' Hin. apply Hstep. by right.
Qed.
End Respects.

Ltac respects_struct :=
  repeat first
    [ apply respects_skip
    | apply respects_and_then
    | apply respects_when
    | apply respects_repeat
    | apply respects_onTranscript
    | apply respects_on_transcript; intros ].

Ltac unfold_composite :=
  unfold on_message, on_media, on_start, on_stop, on_close.

Ltac unfold_leaves :=
  unfold resume_brain, resume_tts, pipeline_catch, pipeline_finally, send_media,
    processUserInput, dispatch_greeting, greet, resetSilenceTimer, clearTurnTimeout,
    clear_silenceTimer, ensure_sttStream, write_sttStream, stop_sttStream, touch,
    Bridge.on_open, Bridge.on_close, Bridge.on_error,
    Bridge.start, Bridge.write, Bridge.stop, Bridge.put, Bridge.add_listener,
    createSttStream, setTimeout, clearTimeout, push, park, fire, run_callback,
    when, emit, update, skip, and_then in *.

Arguments getVertical : simpl never.
Arguments textToSpeech : simpl never.
Arguments JS.stringify : simpl never.
Arguments JS.Buffer_from_base64 : simpl never.
Arguments JS.trim : simpl never.
Arguments String.eqb : simpl never.

(** Case analysis on every [match] and [if] of an unfolded handler. *)
Ltac crush_proc :=
  repeat match goal with
         | |- context [match ?x with _ => _ end] => destruct x eqn:?; simpl in *
         | |- context [if ?x then _ else _] => destruct x eqn:?; simpl in *
         end;
  simpl in *.

(** One handler, reduced to its leaves. *)
Ltac handler_leaves := simpl in *; unfold_composite; respects_struct.

(** One event, reduced to the leaves of its handler. *)
Ltac step_leaves :=
  match goal with
  | |- respects _ _ (step _ ?ev) =>
      destruct ev as [[?m|]| |?r|?c|?c ?d|?c|?c|?k ?reply|?k ?o|?dt]; handler_leaves
  end.

Ltac leaf := let s := fresh "s" in let Hs := fresh "Hs" in
  intros s Hs; unfold_leaves; crush_proc.

(** Effect obligations, one per effect of the list. *)
Ltac effects_ok :=
  repeat first [ apply List.Forall_nil | apply List.Forall_cons; [cbv beta|] ]; auto.

Ltac finish := solve [done | congruence].

(** *** [turnTimeout] is never assigned *)

Lemma turnTimeout_null_step env ev : respects turnTimeout_null any_effect (step env ev).
Proof.
  unfold turnTimeout_null, any_effect.
  step_leaves; try (leaf; (split; [done|effects_ok])).
  apply respects_elapse; intros; unfold_leaves; crush_proc; done.
Qed.

Lemma turnTimeout_null_reachable env s : reachable env s -> turnTimeout s = None.
Proof.
  intros (params & t0 & evs & ->).
  eapply respects_run; [intros; apply turnTimeout_null_step|done].
Qed.

Lemma respects_when_guard I Q b p : (b = true -> respects I Q p) -> respects I Q (when b p).
Proof. intros Hp. destruct b; [by apply Hp|apply respects_skip]. Qed.

(** *** An assigned [streamSid] is never the empty string *)

Lemma streamSid_step env ev :
  respects streamSid_assigned_nonempty any_effect (step env ev).
Proof.
  unfold streamSid_assigned_nonempty, any_effect.
  destruct ev as [[m|]| |r|c|c d|c|c|k reply|k o|dt]; simpl;
    unfold_composite;
    repeat first [ apply respects_and_then | apply respects_when_guard; intros ?
                 | apply respects_on_transcript; intros
                 | apply respects_onTranscript ];
    try (leaf; (split; [finish|effects_ok])).
  - leaf; (split; [|effects_ok]); intros E.
    + injection E as ->. done.
    + rewrite E in *. done.
  - apply respects_elapse; intros; unfold_leaves; crush_proc; done.
Qed.

Lemma streamSid_reachable env s : reachable env s -> streamSid (ctx s) <> Some "".
Proof.
  intros (params & t0 & evs & ->).
  eapply respects_run; [intros; apply streamSid_step|done].
Qed.

(** ** The output sender *)

Lemma send_media_closed audio s :
  is_open (readyState s) = false \/ streamSid (ctx s) = None ->
  send_media audio s = (s, []).
Proof.
  intros H. unfold send_media.
  destruct audio as [buf|]; [|done].
  destruct (streamSid (ctx s)) as [sid|]; [|done].
  destruct H as [-> | H]; [done|congruence].
Qed.

Lemma send_media_open buf sid s :
  readyState s = OPEN -> streamSid (ctx s) = Some sid -> sid <> "" ->
  send_media (Some buf) s = (s, [WsSend (JS.stringify (media_event sid buf))]).
Proof.
  intros Ho Hsid Hne. unfold send_media. rewrite Hsid, Ho. simpl.
  destruct sid; [done|reflexivity].
Qed.

(** C9. For every synthesized audio buffer handed to the output sender in a
    session the handler can be in: nothing is written when the channel is not
    open or no streamSid has been assigned; otherwise exactly one message is
    written, the serialized media envelope
    [{event: 'media', streamSid, media: {payload}}] carrying the session's
    streamSid and the base64 encoding of the audio bytes. *)
Theorem output_sender_guard_and_envelope env s (audio : list byte) :
  reachable env s ->
  (readyState s <> OPEN \/ streamSid (ctx s) = None ->
   send_media (Some audio) s = (s, []))
  /\ (forall sid,
        readyState s = OPEN -> streamSid (ctx s) = Some sid ->
        send_media (Some audio) s =
          (s, [WsSend (JS.stringify
                 (JS.JObject
                    [("event", JS.JString "media");
                     ("streamSid", JS.JString sid);
                     ("media", JS.JObject
                        [("payload", JS.JString (JS.toString_base64 audio))])]))])).
Proof.
  intros Hr. split.
  - intros [H|H]; apply send_media_closed; [left|by right].
    by destruct (readyState s).
  - intros sid Ho Hsid. apply send_media_open; [done..|].
    intros ->. by apply (streamSid_reachable env s Hr).
Qed.

(** ** Pending work is touched only by the event that settles it *)

Lemma task_frame_step env k t ev :
  settles k ev = false -> respects (task_is k t) any_effect (step env ev).
Proof.
  unfold task_is, any_effect. intros Hev.
  step_leaves; try (leaf; (split; [finish|effects_ok])).
  - leaf; (split; [|effects_ok]); by apply lookup_app_l_Some.
  - leaf; (split; [|effects_ok]); by apply lookup_app_l_Some.
  - apply Nat.eqb_neq in Hev.
    leaf; (split; [|effects_ok]); try finish; by rewrite list_lookup_insert_ne.
  - apply Nat.eqb_neq in Hev.
    leaf; (split; [|effects_ok]); try finish; by rewrite list_lookup_insert_ne.
  - apply respects_elapse; intros; unfold_leaves; crush_proc; done.
Qed.

Lemma task_frame_run env k t evs s :
  forallb (fun ev => negb (settles k ev)) evs = true ->
  tasks s !! k = Some t ->
  tasks (run env evs s).1 !! k = Some t.
Proof.
  intros Hevs Hs.
  eapply (respects_run (task_is k t) any_effect); [|done].
  intros ev Hin. apply task_frame_step.
  rewrite forallb_forall in Hevs. specialize (Hevs ev Hin).
  by destruct (settles k ev).
Qed.

(** ** Failure handling of the response pipeline *)

Lemma lookup_insert_same {A} (l : list A) k x y : l !! k = Some x -> <[k := y]> l !! k = Some y.
Proof. intros H. apply list_lookup_insert_eq. by eapply lookup_lt_Some. Qed.

Lemma resume_brain_rejected k timeout s :
  tasks s !! k = Some (AwaitRunBrain timeout) ->
  resume_brain k None s =
    (set_tasks (<[k := AwaitFallback timeout]> (tasks s)) s,
     [ConsoleError "[stream] runBrain error"; TextToSpeech k FALLBACK]).
Proof. intros H. unfold resume_brain. rewrite H. reflexivity. Qed.

Lemma resume_tts_rejected env k timeout o s :
  tasks s !! k = Some (AwaitTextToSpeech timeout) ->
  textToSpeech env o = None ->
  resume_tts env k o s =
    (set_tasks (<[k := AwaitFallback timeout]> (tasks s)) s,
     [ConsoleError "[stream] runBrain error"; TextToSpeech k FALLBACK]).
Proof. intros H Ho. unfold resume_tts. rewrite H, Ho. reflexivity. Qed.

Lemma send_media_state audio s : (send_media audio s).1 = s.
Proof. unfold send_media. crush_proc; done. Qed.

Arguments send_media : simpl never.

Lemma resume_tts_fallback env k timeout o s :
  tasks s !! k = Some (AwaitFallback timeout) ->
  resume_tts env k o s =
    (set_tasks (<[k := Settled true]> (tasks s))
       (set_ctx (with_isSpeaking false) (clearTimeout timeout s)),
     (send_media (textToSpeech env o) s).2).
Proof.
  intros H. unfold resume_tts. rewrite H.
  unfold pipeline_finally, and_then, update, park. simpl.
  rewrite send_media_state. by rewrite app_nil_r.
Qed.

Lemma resume_tts_success env k timeout o audio s :
  tasks s !! k = Some (AwaitTextToSpeech timeout) ->
  textToSpeech env o = Some audio ->
  resume_tts env k o s =
    (set_tasks (<[k := Settled true]> (tasks s))
       (set_ctx (with_isSpeaking false) (clearTimeout timeout s)),
     (send_media (Some audio) s).2).
Proof.
  intros H Ho. unfold resume_tts. rewrite H, Ho.
  unfold pipeline_finally, and_then, update, park. simpl.
  rewrite send_media_state. by rewrite app_nil_r.
Qed.

(** C4. When the reasoning call or the synthesis call of a pipeline fails,
    the error is logged, not thrown, and exactly one synthesis of the fixed
    fallback phrase is requested.  Whatever else happens in between, when
    that synthesis settles the pipeline completes normally: if it succeeded,
    its audio is handed to the output sender (one media message when the
    channel is open and a streamSid is assigned); if it failed too, the
    failure is swallowed: nothing is sent, nothing further is requested and
    the pipeline's promise is fulfilled. *)
Theorem pipeline_failure_speaks_fallback env s k timeout ev :
  pipeline_failure env s k timeout ev ->
  let r1 := step env ev s in
  r1.2 = [ConsoleError "[stream] runBrain error"; TextToSpeech k FALLBACK]
  /\ tasks r1.1 !! k = Some (AwaitFallback timeout)
  /\ forall others o2,
       forallb (fun e => negb (settles k e)) others = true ->
       let s2 := (run env others r1.1).1 in
       let r3 := step env (TtsSettled k o2) s2 in
       tasks r3.1 !! k = Some (Settled true)
       /\ match textToSpeech env o2 with
          | Some audio =>
              r3.2 = (send_media (Some audio) s2).2
              /\ forall sid,
                   readyState s2 = OPEN -> streamSid (ctx s2) = Some sid -> sid <> "" ->
                   r3.2 = [WsSend (JS.stringify (media_event sid audio))]
          | None => r3.2 = []
          end.
Proof.
  intros Hfail r1.
  assert (r1 = (set_tasks (<[k := AwaitFallback timeout]> (tasks s)) s,
                [ConsoleError "[stream] runBrain error"; TextToSpeech k FALLBACK])) as Hr1.
  { destruct Hfail as [[Ht ->] | (o & Ht & -> & Ho)]; subst r1; simpl.
    - by apply resume_brain_rejected.
    - by apply resume_tts_rejected. }
  assert (tasks s !! k = Some (AwaitRunBrain timeout)
          \/ tasks s !! k = Some (AwaitTextToSpeech timeout)) as Hk.
  { destruct Hfail as [[Ht _] | (o & Ht & _)]; auto. }
  assert (tasks r1.1 !! k = Some (AwaitFallback timeout)) as Hpark.
  { rewrite Hr1. simpl. destruct Hk; by eapply lookup_insert_same. }
  split; [by rewrite Hr1|]. split; [done|].
  intros others o2 Hothers s2 r3.
  assert (tasks s2 !! k = Some (AwaitFallback timeout)) as Hs2
    by (by apply task_frame_run).
  subst r3. simpl. rewrite (resume_tts_fallback env k timeout o2 s2 Hs2). simpl.
  split; [by eapply lookup_insert_same|].
  destruct (textToSpeech env o2) as [audio|]; [|done].
  split; [done|]. intros sid Ho Hsid Hne.
  by rewrite (send_media_open audio sid s2).
Qed.

(** ** Empty audio buffers *)

Lemma resume_tts_greeting env k o audio s :
  tasks s !! k = Some AwaitGreeting ->
  textToSpeech env o = Some audio ->
  resume_tts env k o s =
    (set_tasks (<[k := Settled true]> (tasks s)) (set_ctx (with_isSpeaking false) s),
     (send_media (Some audio) s).2).
Proof.
  intros H Ho. unfold resume_tts. rewrite H, Ho.
  unfold and_then, update, park. simpl.
  rewrite send_media_state. by rewrite app_nil_r.
Qed.

Lemma textToSpeech_unconfigured env o :
  deepgram_configured env = false ->
  elevenLabs_configured env = false ->
  openai_configured env = false ->
  textToSpeech env o = Some [].
Proof.
  intros Hd He Ho.
  unfold textToSpeech, getRawTts, fallbackTts, openaiTts. by rewrite Hd, He, Ho.
Qed.

(** C10. In a session whose channel is open and whose streamSid is assigned,
    when text to speech resolves to an empty buffer (as it does for every
    request when no provider is configured), both the greeting dispatch and
    the response pipeline still write one media message, whose base64 payload
    is the empty string: the guard tests the buffer object, not its
    length. *)
Theorem empty_audio_is_still_sent env s k o sid :
  reachable env s ->
  readyState s = OPEN ->
  streamSid (ctx s) = Some sid ->
  textToSpeech env o = Some [] ->
  tasks s !! k = Some AwaitGreeting
  \/ (exists timeout, tasks s !! k = Some (AwaitTextToSpeech timeout)) ->
  (step env (TtsSettled k o) s).2 =
    [WsSend (JS.stringify
       (JS.JObject [("event", JS.JString "media");
                    ("streamSid", JS.JString sid);
                    ("media", JS.JObject [("payload", JS.JString "")])]))]
  /\ (deepgram_configured env = false -> elevenLabs_configured env = false ->
      openai_configured env = false -> forall o', textToSpeech env o' = Some []).
Proof.
  intros Hr Ho Hsid Htts Hk. split.
  - assert (sid <> "") as Hne.
    { intros ->. by apply (streamSid_reachable env s Hr). }
    simpl. destruct Hk as [Hk | [timeout Hk]].
    + rewrite (resume_tts_greeting env k o [] s Hk Htts). simpl.
      by rewrite (send_media_open [] sid s).
    + rewrite (resume_tts_success env k timeout o [] s Hk Htts). simpl.
      by rewrite (send_media_open [] sid s).
  - intros. by apply textToSpeech_unconfigured.
Qed.

(** ** Conversation history *)

Lemma extends_history_step env M ev :
  respects (extends_history M) any_effect (step env ev).
Proof.
  unfold extends_history, any_effect.
  step_leaves; try (leaf; (split; [finish|effects_ok])).
  - leaf. split; [|effects_ok]. destruct Hs as [added ->].
    exists (added ++ [{| role := user; content := text |}]). by rewrite app_assoc.
  - leaf; (split; [|effects_ok]); try finish.
    destruct Hs as [added ->].
    eexists (added ++ [_]). by rewrite app_assoc.
  - apply respects_elapse; intros; unfold_leaves; crush_proc; done.
Qed.

Lemma history_append_only env evs s :
  exists added, messages (ctx (run env evs s).1) = messages (ctx s) ++ added.
Proof.
  eapply (respects_run (extends_history (messages (ctx s))) any_effect).
  - intros; apply extends_history_step.
  - exists []. by rewrite app_nil_r.
Qed.

Lemma quiet_transcript_noop env c d s :
  negb (Bridge.transcript_isFinal d)
  || negb (JS.truthy (JS.trim (Bridge.transcript_text d))) = true ->
  step env (ConnTranscript c d) s = (s, []).
Proof.
  intros H. apply conn_transcript_ignored.
  apply orb_true_iff in H as [H|H].
  - left. by destruct (Bridge.transcript_isFinal d).
  - right. apply truthy_false. by destruct (JS.truthy _).
Qed.

Lemma past_reasoning_step env k M ev :
  quiet k ev = true -> respects (past_reasoning k M) any_effect (step env ev).
Proof.
  unfold past_reasoning, any_effect. intros Hq.
  destruct ev as [[m|]| |r|c|c d|c|c|k' reply|k' o|dt].
  6: { intros s Hs. rewrite (quiet_transcript_noop env c d s Hq). split; [done|constructor]. }
  all: handler_leaves; try (leaf; (split; [finish|effects_ok])).
  - leaf; destruct Hs as [(t & Ht & Hp) HM];
      (split; [|effects_ok]); (split; [|finish]); exists t; (split; [|done]);
      by apply lookup_app_l_Some.
  - apply Nat.eqb_eq in Hq as ->.
    intros s [(t & Ht & Hp) HM]. unfold resume_brain. rewrite Ht.
    destruct t; simpl in *; try discriminate; (split; [|constructor]); eauto.
  - intros s [(t & Ht & Hp) HM].
    destruct (decide (k' = k)) as [->|Hne].
    + unfold resume_tts. rewrite Ht.
      destruct t; simpl in *; try discriminate; unfold_leaves; crush_proc;
        (split; [|effects_ok]); (split; [|done]);
        first [ by (eexists; split; [by eapply lookup_insert_same|done]) | eauto ].
    + unfold_leaves; crush_proc; (split; [|effects_ok]); (split; [|done]);
        try (exists t; split; [by rewrite list_lookup_insert_ne|done]); eauto.
  - apply respects_elapse; intros; unfold_leaves; crush_proc; done.
Qed.

Lemma awaiting_reasoning_step env k M ev :
  quiet k ev = true -> is_BrainSettled ev = false ->
  respects (awaiting_reasoning k M) any_effect (step env ev).
Proof.
  unfold awaiting_reasoning, any_effect. intros Hq Hb.
  destruct ev as [[m|]| |r|c|c d|c|c|k' reply|k' o|dt]; try discriminate.
  6: { intros s Hs. rewrite (quiet_transcript_noop env c d s Hq). split; [done|constructor]. }
  all: handler_leaves; try (leaf; (split; [finish|effects_ok])).
  - leaf; destruct Hs as [(t & Ht) HM];
      (split; [|effects_ok]); (split; [|finish]); exists t;
      by apply lookup_app_l_Some.
  - intros s [(t & Ht) HM].
    destruct (decide (k' = k)) as [->|Hne].
    + unfold resume_tts. rewrite Ht. split; [eauto|constructor].
    + unfold_leaves; crush_proc; (split; [|effects_ok]); (split; [|done]);
        try (exists t; by rewrite list_lookup_insert_ne); eauto.
  - apply respects_elapse; intros; unfold_leaves; crush_proc; done.
Qed.

Lemma past_reasoning_run env k evs s :
  forallb (quiet k) evs = true ->
  (exists t, tasks s !! k = Some t /\ awaits_reasoning t = false) ->
  messages (ctx (run env evs s).1) = messages (ctx s).
Proof.
  intros Hq Hs.
  eapply (respects_run (past_reasoning k (messages (ctx s))) any_effect); [|done].
  intros ev Hin. apply past_reasoning_step.
  rewrite forallb_forall in Hq. by apply Hq.
Qed.

Lemma turn_history env k evs :
  forall s timeout,
    forallb (quiet k) evs = true ->
    tasks s !! k = Some (AwaitRunBrain timeout) ->
    messages (ctx (run env evs s).1) = messages (ctx s) ++ agent_turn k evs.
Proof.
  induction evs as [|ev evs IH]; intros s timeout Hq Hs.
  { unfold agent_turn. simpl. by rewrite app_nil_r. }
  simpl in Hq. apply andb_true_iff in Hq as [Hev Hevs].
  rewrite run_cons. cbn zeta. cbn [fst].
  destruct (is_BrainSettled ev) eqn:Hb.
  - destruct ev as [| | | | | | |k' reply| |]; try discriminate.
    simpl in Hev. apply Nat.eqb_eq in Hev as ->.
    rewrite (past_reasoning_run env k evs); [|done|].
    + unfold agent_turn. simpl. rewrite Nat.eqb_refl.
      unfold resume_brain. rewrite Hs.
      destruct reply; simpl; [done|by rewrite app_nil_r].
    + simpl. unfold resume_brain. rewrite Hs.
      destruct reply; unfold_leaves; simpl;
        (eexists; split; [by eapply lookup_insert_same|done]).
  - destruct (awaiting_reasoning_step env k (messages (ctx s)) ev Hev Hb s) as [[[t Ht] HM] _].
    { split; eauto. }
    rewrite (IH _ t Hevs Ht), HM. f_equal.
    unfold agent_turn. destruct ev; try discriminate; done.
Qed.

Lemma onTranscript_final_history env text s :
  JS.truthy (JS.trim text) = true ->
  let s1 := (onTranscript env text true s).1 in
  messages (ctx s1) = messages (ctx s) ++ [{| role := user; content := text |}]
  /\ tasks s1 = tasks s ++ [AwaitRunBrain (length (timers s))].
Proof.
  intros Ht. unfold onTranscript. rewrite Ht. simpl.
  unfold_leaves. simpl. destruct (turnTimeout s); simpl; [|done].
  by rewrite length_alter.
Qed.

Lemma trimEnd_idempotent s : JS.trimEnd (JS.trimEnd s) = JS.trimEnd s.
Proof.
  induction s as [|c s IH]; [done|].
  cbn [JS.trimEnd]. destruct (JS.trimEnd s) as [|c' r] eqn:E.
  - destruct (JS.is_white_space c) eqn:Hc; [done|].
    cbn [JS.trimEnd]. by rewrite Hc.
  - cbn [JS.trimEnd]. cbn [JS.trimEnd] in IH. by rewrite IH.
Qed.

Lemma trimStart_clean s : starts_clean (JS.trimStart s).
Proof.
  induction s as [|c s IH]; [done|].
  cbn [JS.trimStart]. by destruct (JS.is_white_space c) eqn:Hc.
Qed.

Lemma trimStart_of_clean s : starts_clean s -> JS.trimStart s = s.
Proof. destruct s as [|c s]; [done|]. simpl. by intros ->. Qed.

Lemma trimEnd_clean s : starts_clean s -> starts_clean (JS.trimEnd s).
Proof.
  destruct s as [|c s]; [done|]. simpl. intros Hc.
  destruct (JS.trimEnd s); by rewrite ?Hc.
Qed.

Lemma trim_idempotent s : JS.trim (JS.trim s) = JS.trim s.
Proof.
  unfold JS.trim.
  rewrite (trimStart_of_clean (JS.trimEnd (JS.trimStart s))).
  - apply trimEnd_idempotent.
  - apply trimEnd_clean, trimStart_clean.
Qed.

Lemma repeat_onTranscript_final env text n : forall s,
  JS.truthy (JS.trim text) = true ->
  messages (ctx (repeat_proc n (onTranscript env text true) s).1) =
  messages (ctx s) ++ replicate n {| role := user; content := text |}.
Proof.
  induction n as [|n IH]; intros s Ht; cbn [repeat_proc replicate].
  - unfold skip. simpl. by rewrite app_nil_r.
  - rewrite and_then_state, IH by done.
    destruct (onTranscript_final_history env text s Ht) as [-> _].
    by rewrite <- app_assoc.
Qed.

Lemma history_frame_step env M ev :
  match ev with ConnTranscript _ _ | BrainSettled _ _ => false | _ => true end = true ->
  respects (history_is M) any_effect (step env ev).
Proof.
  unfold history_is, any_effect. intros Hev.
  destruct ev as [[m|]| |r|c|c d|c|c|k' reply|k' o|dt]; try discriminate;
    handler_leaves;
    try (apply respects_elapse; intros ? ? ?; unfold_leaves; crush_proc; finish);
    leaf; (split; [finish|effects_ok]).
Qed.

Lemma step_appends env ev s :
  messages (ctx (step env ev s).1) = messages (ctx s) ++ appended ev s.
Proof.
  destruct ev as [m| |r|c|c d|c|c|k reply|k o|dt];
    try (match goal with
         | |- context [step env ?ev s] =>
             destruct (history_frame_step env (messages (ctx s)) ev eq_refl s eq_refl)
               as [H _]
         end;
         unfold history_is in H; rewrite H; simpl; by rewrite app_nil_r).
  - (* a transcript *)
    unfold appended.
    destruct (Bridge.transcript_isFinal d) eqn:Hf; cbn [andb].
    + destruct (JS.truthy (JS.trim (Bridge.transcript_text d))) eqn:Ht.
      * cbn [step]. unfold Bridge.on_transcript.
        destruct (connections s !! c) as [cn|]; [|by rewrite app_nil_r].
        unfold Bridge.listener. rewrite Hf.
        destruct (JS.truthy (Bridge.transcript_text d)) eqn:Ht'.
        -- apply repeat_onTranscript_final. by rewrite trim_idempotent.
        -- apply truthy_false in Ht'. rewrite Ht' in Ht. discriminate.
      * rewrite conn_transcript_ignored; [by rewrite app_nil_r|].
        right. by apply truthy_false.
    + rewrite conn_transcript_ignored; [by rewrite app_nil_r|by left].
  - (* a reasoning call settles *)
    simpl. unfold resume_brain.
    destruct (tasks s !! k) as [[timeout|timeout|timeout| |ok]|];
      destruct reply; simpl; by rewrite ?app_nil_r.
Qed.

Lemma reasoned_step env k ev : respects (reasoned k) any_effect (step env ev).
Proof.
  unfold reasoned, any_effect.
  step_leaves;
    try (apply respects_elapse; intros ? ? ?; unfold_leaves; crush_proc; finish);
    try (leaf; (split; [finish|effects_ok]); fail).
  - leaf; destruct Hs as (t & Ht & Hp); (split; [|effects_ok]); exists t;
      (split; [by apply lookup_app_l_Some|done]).
  - leaf; destruct Hs as (t & Ht & Hp); (split; [|effects_ok]); exists t;
      (split; [by apply lookup_app_l_Some|done]).
  - intros s (t & Ht & Hp). destruct (decide (k0 = k)) as [->|Hne].
    + unfold resume_brain. rewrite Ht.
      destruct t; simpl in *; try discriminate; (split; [|constructor]); eauto.
    + unfold_leaves; crush_proc; (split; [|effects_ok]);
        try (exists t; split; [by rewrite list_lookup_insert_ne|done]); eauto.
  - intros s (t & Ht & Hp). destruct (decide (k0 = k)) as [->|Hne].
    + unfold resume_tts. rewrite Ht.
      destruct t; simpl in *; try discriminate; unfold_leaves; crush_proc;
        (split; [|effects_ok]);
        first [ by (eexists; split; [by eapply lookup_insert_same|done]) | eauto ].
    + unfold_leaves; crush_proc; (split; [|effects_ok]);
        try (exists t; split; [by rewrite list_lookup_insert_ne|done]); eauto.
Qed.

Lemma reasoned_run env k evs s : reasoned k s -> reasoned k (run env evs s).1.
Proof.
  intros Hs. eapply (respects_run (reasoned k) any_effect); [|done].
  intros; apply reasoned_step.
Qed.

(** C7. The history is append-only and ordered by dispatch: every event
    leaves it as it was, followed by the turns that event appends (a caller
    turn for a final non-empty transcript, an agent turn for the successful
    settlement of a reasoning call that is awaited, nothing otherwise), so
    after any run it is the old history followed by the turns added.  Each
    final non-empty transcript handed to the pipeline appends exactly one
    caller turn at once; until another final transcript is dispatched or
    another pending reasoning call settles, the only further turn is the
    agent turn of this pipeline: exactly one when its reasoning call
    succeeds, none when it fails (or has not settled).  A pipeline that is
    past its reasoning call stays so, whatever happens: it appends no second
    agent turn. *)
Theorem history_one_caller_turn_then_agent_turn env s :
  (forall ev,
      messages (ctx (step env ev s).1) = messages (ctx s) ++ appended ev s)
  /\ (forall evs, exists added,
        messages (ctx (run env evs s).1) = messages (ctx s) ++ added)
  /\ (forall text evs,
        JS.truthy (JS.trim text) = true ->
        let k := length (tasks s) in
        forallb (quiet k) evs = true ->
        let s1 := (onTranscript env text true s).1 in
        messages (ctx s1) = messages (ctx s) ++ [{| role := user; content := text |}]
        /\ messages (ctx (run env evs s1).1) =
             messages (ctx s) ++ [{| role := user; content := text |}] ++ agent_turn k evs)
  /\ (forall k evs reply,
        reasoned k s ->
        reasoned k (run env evs s).1
        /\ appended (BrainSettled k reply) (run env evs s).1 = []).
Proof.
  split; [intros; apply step_appends|].
  split; [intros; apply history_append_only|].
  split.
  - intros text evs Ht k Hq s1.
    destruct (onTranscript_final_history env text s Ht) as [HM HT].
    fold s1 in HM, HT. split; [done|].
    rewrite (turn_history env k evs s1 (length (timers s))); [|done|].
    + by rewrite HM, <- app_assoc.
    + rewrite HT. subst k. by rewrite lookup_app_r, Nat.sub_diag.
  - intros k evs reply Hs.
    pose proof (reasoned_run env k evs s Hs) as Hr. split; [done|].
    destruct Hr as (t & Ht & Hp). unfold appended. rewrite Ht.
    destruct reply; [|done]. by destruct t.
Qed.

(** ** Bridges and provider connections *)

Lemma lookup_put_inv (l : list SttStream) b br b' br' :
  <[b := br]> l !! b' = Some br' ->
  (b' = b /\ br' = br) \/ (b' <> b /\ l !! b' = Some br').
Proof.
  intros H. destruct (decide (b' = b)) as [->|Hne].
  - left. split; [done|].
    rewrite list_lookup_insert_eq in H; [congruence|].
    apply lookup_lt_Some in H. by rewrite length_insert in H.
  - right. split; [done|]. by rewrite list_lookup_insert_ne in H.
Qed.

Ltac released_ok Hs :=
  let b' := fresh "b'" in let br' := fresh "br'" in
  let Hb' := fresh "Hb'" in let Hcur := fresh "Hcur" in
  intros b' br' Hb' Hcur; simpl in *;
  repeat match goal with
         | H : <[_ := _]> _ !! _ = Some _ |- _ =>
             apply lookup_put_inv in H as [[-> ->]|[? H]]; [try done; try congruence|]
         | H : (_ ++ [_]) !! _ = Some _ |- _ =>
             apply lookup_snoc_Some in H as [[_ H]|[-> <-]]; [|try done; try congruence]
         end;
  try (eapply Hs; [done|congruence]).

Lemma others_released_on_stop : respects others_released any_effect on_stop.
Proof.
  unfold others_released, any_effect, on_stop.
  leaf; (split; [|effects_ok]); intros b' br' Hb' _;
    try (apply lookup_put_inv in Hb' as [[-> ->]|[Hne Hb']]; [done|]);
    (eapply Hs; [done|congruence]).
Qed.

Lemma others_released_step env ev :
  respects others_released any_effect (step env ev).
Proof.
  destruct ev as [[m|]| |r|c|c d|c|c|k reply|k o|dt]; simpl;
    unfold on_message, on_media, on_start, on_close;
    repeat first [ apply others_released_on_stop | apply respects_and_then
                 | apply respects_when | apply respects_on_transcript; intros
                 | apply respects_onTranscript ];
    unfold others_released, any_effect;
    try (apply respects_elapse; intros ? ? ?; unfold_leaves; crush_proc; finish);
    try (leaf; (split; [finish|effects_ok]));
    leaf; (split; [|effects_ok]); released_ok Hs.
Qed.

Lemma others_released_reachable env s : reachable env s -> others_released s.
Proof.
  intros (params & t0 & evs & ->).
  eapply respects_run; [intros; apply others_released_step|].
  intros b br Hb. done.
Qed.

Ltac fresh_ok Hs :=
  let b' := fresh "b'" in let br' := fresh "br'" in let c' := fresh "c'" in
  let Hb' := fresh "Hb'" in let Hc' := fresh "Hc'" in
  destruct Hs as [Hs ?];
  split; [|simpl; rewrite ?length_app, ?length_alter; simpl; lia];
  intros b' br' c' Hb' Hc'; simpl in *;
  repeat match goal with
         | H : <[_ := _]> _ !! _ = Some _ |- _ =>
             apply lookup_put_inv in H as [[-> ->]|[? H]];
             [simpl in *; try done; try congruence; try lia|]
         | H : (_ ++ [_]) !! _ = Some _ |- _ =>
             apply lookup_snoc_Some in H as [[_ H]|[-> <-]];
             [|simpl in *; try done; try congruence]
         end;
  try (eapply Hs; done).

Lemma fresh_only_step env n ev :
  respects (fresh_only n) (sends_fresh n) (step env ev).
Proof.
  unfold fresh_only, sends_fresh.
  step_leaves;
    try (apply respects_elapse; intros ? ? ?; unfold_leaves; crush_proc; finish);
    try (leaf; (split; [finish|effects_ok]); fail);
    leaf; (split; [first [finish | fresh_ok Hs]
                  | effects_ok; try (eapply (proj1 Hs); done)]).
Qed.

Lemma on_message_stop env m s :
  event m = "stop" -> on_message env (Some m) s = on_stop s.
Proof.
  intros E. unfold on_message. rewrite E.
  change ("stop" =? "media")%string with false.
  change ("stop" =? "start")%string with false.
  change ("stop" =? "stop")%string with true.
  simpl. unfold when. rewrite !and_then_skip_l. done.
Qed.


Lemma on_message_media env m s :
  event m = "media" ->
  on_message env (Some m) s =
    when (JS.truthy_opt (media_payload m)) (on_media env (default "" (media_payload m))) s.
Proof.
  intros E. unfold on_message. rewrite E.
  change ("media" =? "media")%string with true.
  change ("media" =? "start")%string with false.
  change ("media" =? "stop")%string with false.
  rewrite andb_true_l.
  change (when false (on_start env m)) with skip.
  change (when false on_stop) with skip.
  unfold and_then at 1. cbn zeta. rewrite and_then_skip_l. unfold skip. cbn [fst snd].
  rewrite app_nil_r. by destruct (when _ _ s).
Qed.

Lemma stop_releases s :
  others_released s -> all_released (on_stop s).1 /\ sttStream (on_stop s).1 = None.
Proof.
  intros Hs. split; [|done]. unfold all_released, on_stop.
  unfold_leaves. crush_proc; intros b' br' Hb';
    try (apply lookup_put_inv in Hb' as [[-> ->]|[Hne Hb']]; [done|]);
    (eapply Hs; [done|congruence]).
Qed.

Lemma close_releases s :
  others_released s -> all_released (on_close (set_readyState CLOSED s)).1.
Proof.
  intros Hs. unfold all_released, on_close.
  unfold_leaves. crush_proc; intros b' br' Hb';
    try (apply lookup_put_inv in Hb' as [[-> ->]|[Hne Hb']]; [done|]);
    (eapply Hs; [done|congruence]).
Qed.

Lemma teardown_releases env td s :
  is_teardown td = true -> others_released s -> all_released (step env td s).1.
Proof.
  intros Htd Hs.
  destruct td as [[m|]| | | | | | | | |]; try discriminate; simpl in Htd.
  - apply String.eqb_eq in Htd.
    change (step env (WsMessage (Some m)) s) with (on_message env (Some m) s).
    rewrite (on_message_stop env m s Htd). by apply stop_releases.
  - by apply close_releases.
Qed.

Lemma all_released_fresh_only s : all_released s -> fresh_only (length (connections s)) s.
Proof.
  intros Hs. split; [|done]. intros b br c Hb Hc.
  rewrite (Hs b br Hb) in Hc. discriminate.
Qed.

Lemma lookup_snoc_length {A} (l : list A) x : (l ++ [x]) !! length l = Some x.
Proof. by rewrite lookup_app_r, Nat.sub_diag. Qed.

(** With no bridge held, a frame makes the handler build a new bridge, open a
    new provider connection and write the frame to it. *)
Lemma on_media_without_bridge env payload s :
  sttStream s = None ->
  deepgram_configured env = true ->
  JS.Buffer_from_base64 payload <> [] ->
  (on_media env payload s).2 =
    [ProviderOpen (length (connections s)) (live_schema (spread DEFAULT_OPTIONS no_options));
     ProviderSend (length (connections s)) (JS.Buffer_from_base64 payload)].
Proof.
  intros Hnull Hdg Hchunk. unfold on_media.
  rewrite !and_then_effects.
  assert (ensure_sttStream env s =
          (set_connections (connections s ++ [{| owner := length (bridges s);
                                                 transcript_listeners := 0 |}])
             (set_bridges (<[length (bridges s) :=
                              {| opts := spread DEFAULT_OPTIONS no_options;
                                 connection := Some (length (connections s));
                                 closed := false |}]>
                           (bridges s ++ [{| opts := spread DEFAULT_OPTIONS no_options;
                                             connection := None; closed := false |}]))
                (set_sttStream (Some (length (bridges s))) s)),
           [ProviderOpen (length (connections s))
              (live_schema (spread DEFAULT_OPTIONS no_options))])) as ->.
  { unfold ensure_sttStream. rewrite Hnull.
    unfold createSttStream, and_then, update, Bridge.start, Bridge.put. simpl.
    rewrite lookup_snoc_length, Hdg. reflexivity. }
  simpl. unfold write_sttStream. simpl.
  unfold Bridge.write. simpl.
  rewrite list_lookup_insert_eq by (rewrite length_app; simpl; lia). simpl.
  destruct (JS.Buffer_from_base64 payload) as [|x chunk]; [done|]. reflexivity.
Qed.

(** ** Frames after teardown *)

Lemma reachable_run env evs params t0 :
  reachable env (run env evs (handleStream env params t0)).1.
Proof. by exists params, t0, evs. Qed.

Lemma reachable_step env ev s : reachable env s -> reachable env (step env ev s).1.
Proof.
  intros (params & t0 & evs & ->). exists params, t0, (evs ++ [ev]).
  rewrite run_app. simpl. unfold and_then, skip. done.
Qed.

(** C1, counterexample. A frame, then 'stop', then another frame: the last
    frame makes the handler open provider connection 1 and write the frame to
    it. *)
Lemma media_after_stop_reaches_provider :
  let s1 := (run env_dg [WsMessage (Some (media_message "AAEC"));
                         WsMessage (Some stop_message)] session0).1 in
  (step env_dg (WsMessage (Some (media_message "AAEC"))) s1).2 =
    [ProviderOpen 1 telephony_schema; ProviderSend 1 [x00; x01; x02]]
  /\ ~ no_provider_io_after_teardown.
Proof.
  split; [by vm_compute|].
  intros H.
  specialize (H env_dg
                (run env_dg [WsMessage (Some (media_message "AAEC"))] session0).1
                (WsMessage (Some stop_message))
                [WsMessage (Some (media_message "AAEC"))]
                (reachable_run _ _ _ _) eq_refl).
  vm_compute in H. discriminate.
Qed.

(** C1, amended. After a 'stop' event or a channel close, no bridge holds a
    provider connection any more, and no later frame is ever written to a
    connection opened before the teardown, whatever events follow.  The handler keeps no torn-down flag,
    though: after 'stop' it holds no bridge, so the next frame with a
    non-empty payload builds a new bridge, which (with the provider
    configured) opens a new connection and receives the frame. *)
Theorem teardown_releases_provider_connections env s td :
  reachable env s ->
  is_teardown td = true ->
  let s1 := (step env td s).1 in
  (forall b br, bridges s1 !! b = Some br -> connection br = None)
  /\ (forall after c chunk,
        In (ProviderSend c chunk) (run env after s1).2 ->
        (length (connections s1) <= c)%nat)
  /\ (forall m,
        is_stop td = true ->
        event m = "media" ->
        JS.truthy_opt (media_payload m) = true ->
        JS.Buffer_from_base64 (default "" (media_payload m)) <> [] ->
        deepgram_configured env = true ->
        (step env (WsMessage (Some m)) s1).2 =
          [ProviderOpen (length (connections s1)) telephony_schema;
           ProviderSend (length (connections s1))
             (JS.Buffer_from_base64 (default "" (media_payload m)))]).
Proof.
  intros Hr Htd s1.
  assert (all_released s1) as Hrel.
  { apply teardown_releases; [done|]. by eapply others_released_reachable. }
  split; [exact Hrel|]. split.
  - intros after c chunk Hin.
    destruct (respects_run (fresh_only (length (connections s1)))
                (sends_fresh (length (connections s1))) env after
                (fun ev _ => fresh_only_step env _ ev) s1
                (all_released_fresh_only s1 Hrel)) as [_ Heff].
    rewrite List.Forall_forall in Heff. exact (Heff _ Hin).
  - intros m Hstop Hev Hpay Hchunk Hdg.
    change (step env (WsMessage (Some m)) s1) with (on_message env (Some m) s1).
    rewrite (on_message_media env m s1 Hev), Hpay. simpl.
    apply on_media_without_bridge; [|done..].
    subst s1. destruct td as [[m'|]| | | | | | | | |]; try discriminate.
    simpl in Hstop. apply String.eqb_eq in Hstop.
    change (step env (WsMessage (Some m')) s) with (on_message env (Some m') s).
    by rewrite (on_message_stop env m' s Hstop).
Qed.

(** ** Provider errors *)

(** C3, counterexample. A frame opens connection 0; the provider reports an
    error on it; the bridge is then not connected, and the next frame
    performs no provider call at all. *)
Lemma frame_after_provider_error_is_dropped :
  let s1 := (run env_dg [WsMessage (Some (media_message "AAEC")); ConnOpen 0;
                         ConnError 0] session0).1 in
  (connection <$> bridges s1 !! 0%nat) = Some None
  /\ (step env_dg (WsMessage (Some (media_message "AAEC"))) s1).2 = []
  /\ ~ error_recovery_on_next_frame.
Proof.
  split; [by vm_compute|]. split; [by vm_compute|].
  intros H.
  destruct (H env_dg
              (run env_dg [WsMessage (Some (media_message "AAEC")); ConnOpen 0] session0).1
              0%nat {| owner := 0; transcript_listeners := 1 |}
              (media_message "AAEC")
              (reachable_run _ _ _ _) eq_refl eq_refl eq_refl eq_refl eq_refl)
    as (c' & schema & Hin).
  vm_compute in Hin. done.
Qed.

Lemma on_error_state c cn br s :
  connections s !! c = Some cn ->
  bridges s !! owner cn = Some br ->
  Bridge.on_error c s =
    (Bridge.put (owner cn) {| opts := opts br; connection := None; closed := closed br |} s,
     if negb (closed br)
     then [ConsoleWarn "[STT] Deepgram connection error (client may have disconnected):"]
     else []).
Proof. intros Hc Hb. unfold Bridge.on_error. by rewrite Hc, Hb. Qed.

(** C3, amended. On a provider error the bridge resets to the not-connected
    state and remains restartable: a [start()] on it opens a fresh provider
    connection (provider configured).  The handler calls [start()] only when
    it creates a bridge: while it holds the reset bridge, a later frame
    opens nothing and writes nothing, and the bridge stays not connected. *)
Theorem provider_error_resets_bridge env s c cn br :
  connections s !! c = Some cn ->
  bridges s !! owner cn = Some br ->
  let b := owner cn in
  let s1 := (step env (ConnError c) s).1 in
  let reset := {| opts := opts br; connection := None; closed := closed br |} in
  bridges s1 !! b = Some reset
  /\ (deepgram_configured env = true ->
      let r := Bridge.start env b s1 in
      r.2 = [ProviderOpen (length (connections s1)) (live_schema (opts br))]
      /\ (connection <$> bridges r.1 !! b) = Some (Some (length (connections s1))))
  /\ (sttStream s = Some b ->
      forall m, event m = "media" ->
        let r := step env (WsMessage (Some m)) s1 in
        r.2 = [] /\ bridges r.1 !! b = Some reset /\ sttStream r.1 = Some b).
Proof.
  intros Hc Hb b s1 reset.
  assert (s1 = Bridge.put b reset s) as Hs1.
  { subst s1. simpl. by rewrite (on_error_state c cn br s Hc Hb). }
  assert (bridges s1 !! b = Some reset) as Hreset.
  { rewrite Hs1. simpl. by eapply lookup_insert_same. }
  split; [done|]. split.
  - intros Hdg. unfold Bridge.start. rewrite Hreset, Hdg. simpl.
    split; [done|].
    rewrite list_lookup_insert_eq; [done|]. by eapply lookup_lt_Some.
  - intros Hcur m Hev.
    change (step env (WsMessage (Some m)) s1) with (on_message env (Some m) s1).
    rewrite (on_message_media env m s1 Hev).
    assert (sttStream s1 = Some b) as Hcur1 by (by rewrite Hs1).
    destruct (JS.truthy_opt (media_payload m)); simpl; [|done].
    unfold on_media, ensure_sttStream, write_sttStream, Bridge.write,
      resetSilenceTimer, and_then. simpl.
    rewrite Hcur1. simpl. rewrite Hcur1, Hreset. simpl.
    destruct (silenceTimer s1); simpl; by rewrite ?Hcur1, ?Hreset.
Qed.

(** ** Teardown *)

(** C8, counterexample. A frame opens connection 0, the connection reports
    Open, 'stop' arrives; a final transcript then delivered on connection 0
    still appends the caller turn and invokes the reasoning engine. *)
Lemma transcript_after_stop_is_honored :
  let s1 := (run env_dg [WsMessage (Some (media_message "AAEC")); ConnOpen 0;
                         WsMessage (Some stop_message)] session0).1 in
  let r := step env_dg (ConnTranscript 0 (final_transcript "hello")) s1 in
  messages (ctx s1) = []
  /\ messages (ctx r.1) = [{| role := user; content := "hello" |}]
  /\ r.2 = [RunBrain 0 sales [{| role := user; content := "hello" |}]]
  /\ ~ no_transcript_honored_after_teardown.
Proof.
  split; [by vm_compute|]. split; [by vm_compute|]. split; [by vm_compute|].
  intros H.
  specialize (H env_dg
                (run env_dg [WsMessage (Some (media_message "AAEC")); ConnOpen 0] session0).1
                (WsMessage (Some stop_message)) 0%nat (final_transcript "hello")
                (reachable_run _ _ _ _) eq_refl).
  apply (f_equal snd) in H. vm_compute in H. discriminate.
Qed.

Lemma session_eta s :
  {| ctx := ctx s; sttStream := sttStream s; silenceTimer := silenceTimer s;
     turnTimeout := turnTimeout s; bridges := bridges s; connections := connections s;
     timers := timers s; tasks := tasks s; readyState := readyState s; now := now s |} = s.
Proof. by destruct s. Qed.

Lemma stop_sttStream_stopped s : stopped s -> stop_sttStream s = (s, []).
Proof.
  intros Hs. unfold stop_sttStream, Bridge.stop.
  destruct (sttStream s) as [b|] eqn:Hb; [|done].
  destruct (bridges s !! b) as [br|] eqn:Hbr; [|done].
  destruct (Hs b br Hb Hbr) as [Hc Hcl]. rewrite Hc.
  f_equal. unfold Bridge.put.
  rewrite list_insert_id; [by destruct s|].
  rewrite Hbr. f_equal. destruct br; simpl in *; by subst.
Qed.

Lemma stopped_after_teardown env td s : is_teardown td = true -> stopped (step env td s).1.
Proof.
  intros Htd.
  destruct td as [[m|]| | | | | | | | |]; try discriminate; simpl in Htd.
  - apply String.eqb_eq in Htd.
    change (step env (WsMessage (Some m)) s) with (on_message env (Some m) s).
    rewrite (on_message_stop env m s Htd). intros b br Hb. discriminate.
  - simpl. unfold on_close. unfold_leaves. crush_proc; intros b' br' Hcur Hb';
      simpl in *; try congruence;
      assert (b' = n) as -> by congruence;
      try (apply lookup_put_inv in Hb' as [[_ ->]|[Hne _]]; done);
      try (apply lookup_put_inv in Hb' as [[_ ->]|[Hne _]]; done).
Qed.

Lemma clear_not_armed t : status (clear t) <> Armed.
Proof. unfold clear. destruct (status t) eqn:E; simpl; congruence. Qed.

Lemma not_armed_alter i j l : i = j \/ not_armed_at i l -> not_armed_at i (alter clear j l).
Proof.
  intros H t Ht. destruct (decide (j = i)) as [->|Hne].
  - rewrite list_lookup_alter_eq in Ht.
    destruct (l !! i); simpl in Ht; [|done].
    injection Ht as <-. apply clear_not_armed.
  - rewrite list_lookup_alter_ne in Ht by done.
    destruct H as [->|H]; [done|by apply H].
Qed.

Lemma alter_clear_id i l : not_armed_at i l -> alter clear i l = l.
Proof.
  intros H. apply list_eq. intros j.
  destruct (decide (i = j)) as [->|Hne]; [|by rewrite list_lookup_alter_ne].
  rewrite list_lookup_alter_eq.
  destruct (l !! j) as [t|] eqn:E; simpl; [|done].
  f_equal. unfold clear. specialize (H t E). by destruct (status t).
Qed.

Lemma on_close_stopped s :
  stopped s -> on_close s = ((clearTurnTimeout (clear_silenceTimer s).1).1, []).
Proof.
  intros Hs. unfold on_close, and_then.
  set (a := clear_silenceTimer s). set (b := clearTurnTimeout a.1).
  assert (a.2 = []) as Ha by (subst a; unfold clear_silenceTimer; by crush_proc).
  assert (b.2 = []) as Hb by (subst b; unfold clearTurnTimeout; by crush_proc).
  assert (stopped b.1) as Hst.
  { subst b a. unfold clear_silenceTimer, clearTurnTimeout, clearTimeout.
    crush_proc; exact Hs. }
  rewrite (stop_sttStream_stopped _ Hst), Ha, Hb. done.
Qed.

Lemma close_fixpoint s :
  let s1 := (on_close (set_readyState CLOSED s)).1 in
  (clearTurnTimeout (clear_silenceTimer (set_readyState CLOSED s1)).1).1 = s1.
Proof.
  unfold on_close, and_then, clear_silenceTimer, clearTurnTimeout, stop_sttStream,
    Bridge.stop, Bridge.put, clearTimeout.
  destruct s as [c st si tu br co ti ta rs nw]. simpl.
  destruct si as [i|], tu as [j|], st as [b|]; simpl;
    try destruct (br !! b); simpl;
    unfold set_timers, set_bridges, set_turnTimeout; simpl; f_equal;
    try (apply alter_clear_id; auto using not_armed_alter).
Qed.

Lemma onTranscript_final_effects env text s :
  JS.truthy (JS.trim text) = true ->
  (onTranscript env text true s).2 =
    [RunBrain (length (tasks s)) (getVertical env (vertical (ctx s)))
       (messages (ctx s) ++ [{| role := user; content := text |}])].
Proof.
  intros Ht. unfold onTranscript. rewrite Ht. simpl.
  unfold_leaves. simpl. by destruct (turnTimeout s).
Qed.

Lemma step_stop env m s :
  event m = "stop" -> stopped s ->
  step env (WsMessage (Some m)) s = (set_sttStream None s, []).
Proof.
  intros Hm Hs.
  change (step env (WsMessage (Some m)) s) with (on_message env (Some m) s).
  rewrite (on_message_stop env m s Hm). unfold on_stop, and_then.
  by rewrite (stop_sttStream_stopped s Hs).
Qed.

Lemma step_close env s :
  stopped s ->
  step env WsClose s =
    ((clearTurnTimeout (clear_silenceTimer (set_readyState CLOSED s)).1).1, []).
Proof.
  intros Hs. simpl. unfold and_then at 1. unfold update. cbn [fst snd].
  by rewrite (on_close_stopped (set_readyState CLOSED s)).
Qed.

(** C8, amended. Teardown is idempotent: after a 'stop' event or a channel
    close, a further 'stop' or close performs its releases without any
    provider call, output or error, and leaves the context, the pending work,
    the bridges and the connections as they were; repeating the same kind of
    teardown leaves the whole session unchanged.  Transcript callbacks are not
    gated on teardown: a final non-empty transcript delivered afterwards
    still appends a caller turn and invokes the reasoning engine. *)
Theorem teardown_is_idempotent env s td1 td2 :
  is_teardown td1 = true ->
  is_teardown td2 = true ->
  let s1 := (step env td1 s).1 in
  let r2 := step env td2 s1 in
  r2.2 = []
  /\ ctx r2.1 = ctx s1 /\ tasks r2.1 = tasks s1
  /\ bridges r2.1 = bridges s1 /\ connections r2.1 = connections s1
  /\ (is_stop td1 = is_stop td2 -> r2.1 = s1)
  /\ (forall text,
        JS.truthy (JS.trim text) = true ->
        let r3 := onTranscript env text true r2.1 in
        messages (ctx r3.1) = messages (ctx s1) ++ [{| role := user; content := text |}]
        /\ exists k config,
             r3.2 = [RunBrain k config
                       (messages (ctx s1) ++ [{| role := user; content := text |}])]).
Proof.
  intros H1 H2 s1 r2.
  assert (stopped s1) as Hst by (by apply stopped_after_teardown).
  assert (r2.2 = [] /\ ctx r2.1 = ctx s1 /\ tasks r2.1 = tasks s1
          /\ bridges r2.1 = bridges s1 /\ connections r2.1 = connections s1
          /\ (is_stop td1 = is_stop td2 -> r2.1 = s1)) as (E & C & T & B & K & Same).
  { subst r2. destruct td2 as [[m2|]| | | | | | | | |]; try discriminate; simpl in H2.
    - apply String.eqb_eq in H2. rewrite (step_stop env m2 s1 H2 Hst). simpl.
      repeat (split; [done|]). intros Hk.
      destruct td1 as [[m1|]| | | | | | | | |]; try discriminate.
      + simpl in H1. apply String.eqb_eq in H1. subst s1.
        change (step env (WsMessage (Some m1)) s) with (on_message env (Some m1) s).
        by rewrite (on_message_stop env m1 s H1).
      + simpl in Hk. apply String.eqb_eq in H2. congruence.
    - assert (stopped (set_readyState CLOSED s1)) as Hst' by exact Hst.
      rewrite (step_close env s1 Hst). cbn [fst snd].
      split; [done|].
      split; [unfold clear_silenceTimer, clearTurnTimeout, clearTimeout; by crush_proc|].
      split; [unfold clear_silenceTimer, clearTurnTimeout, clearTimeout; by crush_proc|].
      split; [unfold clear_silenceTimer, clearTurnTimeout, clearTimeout; by crush_proc|].
      split; [unfold clear_silenceTimer, clearTurnTimeout, clearTimeout; by crush_proc|].
      intros Hk.
      destruct td1 as [[m1|]| | | | | | | | |]; try discriminate.
      + simpl in Hk, H1. congruence.
      + subst s1. apply close_fixpoint. }
  repeat (split; [done|]).
  intros text Ht r3. subst r3.
  destruct (onTranscript_final_history env text r2.1 Ht) as [HM _].
  rewrite HM, (onTranscript_final_effects env text r2.1 Ht), C. eauto.
Qed.

(** ** Timers *)

Ltac bounded_ok Hs :=
  let Hsil := fresh "Hsil" in let Htask := fresh "Htask" in
  destruct Hs as [Hsil Htask]; split;
  [ intros ? ?; simpl in *; simplify_eq;
    rewrite ?length_app, ?length_alter, ?length_insert; simpl;
    first [ lia | eapply Nat.lt_le_trans; [by eapply Hsil|lia] | idtac ]
  | intros ? ? ? ? ?; simpl in *; rewrite ?length_app, ?length_alter, ?length_insert; simpl;
    repeat match goal with
           | H : <[_ := _]> _ !! _ = Some _ |- _ =>
               apply list_lookup_insert_Some in H as [(-> & <- & ?)|[? H]];
               [simpl in *; simplify_eq|]
           | H : (_ ++ [_]) !! _ = Some _ |- _ =>
               apply lookup_snoc_Some in H as [[_ H]|[-> <-]];
               [|simpl in *; simplify_eq; lia]
           end;
    try (eapply Nat.lt_le_trans; [by eapply Htask|lia]) ].

Lemma timers_bounded_step env ev :
  respects timers_bounded any_effect (step env ev).
Proof.
  unfold timers_bounded, any_effect.
  step_leaves;
    try (apply respects_elapse; intros ? ? ?; unfold_leaves; crush_proc;
         first [finish | bounded_ok H]);
    try (leaf; (split; [finish|effects_ok]); fail);
    leaf; (split; [bounded_ok Hs|effects_ok]).
Qed.

Lemma timers_bounded_reachable env s : reachable env s -> timers_bounded s.
Proof.
  intros (params & t0 & evs & ->).
  eapply respects_run; [intros; apply timers_bounded_step|].
  split; intros; simpl in *; [discriminate|]. by rewrite lookup_nil in *.
Qed.

(** *** Firing the timers that are due *)

Lemma next_due_Some target ts : forall i0 j d,
  next_due target ts i0 = Some (j, d) ->
  exists t, (i0 <= j)%nat /\ ts !! (j - i0)%nat = Some t /\ due target t = true.
Proof.
  induction ts as [|t ts IH]; intros i0 j d H; simpl in H; [discriminate|].
  destruct (due target t) eqn:Hd.
  - destruct (next_due target ts (S i0)) as [[j' d']|] eqn:Hn.
    + destruct (d' <? deadline t).
      * injection H as <- <-. destruct (IH _ _ _ Hn) as (t' & Hle & Ht' & Hd').
        exists t'. split; [lia|]. split; [|done].
        replace (j' - i0)%nat with (S (j' - S i0)) by lia. done.
      * injection H as <- <-. exists t. rewrite Nat.sub_diag. auto.
    + injection H as <- <-. exists t. rewrite Nat.sub_diag. auto.
  - destruct (IH _ _ _ H) as (t' & Hle & Ht' & Hd').
    exists t'. split; [lia|]. split; [|done].
    replace (j - i0)%nat with (S (j - S i0)) by lia. done.
Qed.

Lemma next_due_None target ts : forall i0,
  next_due target ts i0 = None -> due_count target ts = 0%nat.
Proof.
  induction ts as [|t ts IH]; intros i0 H; simpl in *; [done|].
  destruct (due target t).
  - destruct (next_due target ts (S i0)) as [[j' d']|]; [|discriminate].
    by destruct (d' <? deadline t).
  - by rewrite (IH _ H).
Qed.

Lemma due_count_fired target ts : forall i t,
  ts !! i = Some t -> due target t = true ->
  S (due_count target (<[i := {| deadline := deadline t; callback := callback t;
                                 status := Fired (deadline t) |}]> ts))
  = due_count target ts.
Proof.
  induction ts as [|t' ts IH]; intros i t Hi Hd; [done|].
  destruct i as [|i]; simpl in *.
  - injection Hi as ->. rewrite Hd. done.
  - rewrite <- (IH i t Hi Hd). lia.
Qed.

Lemma due_count_length target ts : (due_count target ts <= length ts)%nat.
Proof. induction ts as [|t ts IH]; simpl; [done|]. destruct (due target t); lia. Qed.

Lemma due_count_zero target ts i t :
  due_count target ts = 0%nat -> ts !! i = Some t -> due target t = false.
Proof.
  revert i. induction ts as [|t' ts IH]; intros i H Hi; [done|].
  simpl in H. destruct i as [|i]; simpl in Hi.
  - injection Hi as ->. by destruct (due target t).
  - apply (IH i); [|done]. destruct (due target t'); lia.
Qed.

Lemma fire_timers i t s :
  timers s !! i = Some t ->
  timers (fire i s) = <[i := {| deadline := deadline t; callback := callback t;
                                status := Fired (deadline t) |}]> (timers s).
Proof. intros H. unfold fire. rewrite H. by destruct (callback t). Qed.

Lemma run_timers_exhausts target : forall fuel s,
  (due_count target (timers s) <= fuel)%nat ->
  due_count target (timers (run_timers fuel target s)) = 0%nat.
Proof.
  induction fuel as [|fuel IH]; intros s H; simpl.
  - lia.
  - destruct (next_due target (timers s) 0) as [[i d]|] eqn:Hn.
    + destruct (next_due_Some _ _ _ _ _ Hn) as (t & _ & Ht & Hd).
      rewrite Nat.sub_0_r in Ht.
      apply IH. rewrite (fire_timers i t s Ht).
      pose proof (due_count_fired target (timers s) i t Ht Hd). lia.
    + by eapply next_due_None.
Qed.

Lemma armed_or_fired_fire x D i s : armed_or_fired x D s -> armed_or_fired x D (fire i s).
Proof.
  intros H. unfold fire.
  destruct (timers s !! i) as [t|] eqn:Ht; [|done].
  destruct (decide (i = x)) as [->|Hne].
  - right. assert (deadline t = D /\ callback t = TurnCallback) as [<- Hcb].
    { destruct H as [H|[H _]]; rewrite H in Ht; by injection Ht as <-. }
    rewrite Hcb. simpl. split; [|done].
    rewrite list_lookup_insert_eq; [done|]. by eapply lookup_lt_Some.
  - destruct H as [H|[H Hsp]].
    + left. destruct (callback t); simpl; by rewrite list_lookup_insert_ne.
    + right. destruct (callback t); simpl; by rewrite list_lookup_insert_ne.
Qed.

Lemma elapse_fires_turn_timer x D dt s :
  timers s !! x = Some {| deadline := D; callback := TurnCallback; status := Armed |} ->
  D <= now s + Z.max 0 dt ->
  let s' := (elapse dt s).1 in
  timers s' !! x = Some {| deadline := D; callback := TurnCallback; status := Fired D |}
  /\ isSpeaking (ctx s') = false.
Proof.
  intros Hx HD s'. subst s'. unfold elapse. simpl.
  set (target := now s + Z.max 0 dt) in *.
  set (s1 := run_timers (length (timers s)) target s).
  assert (armed_or_fired x D s1) as Hs1.
  { apply (run_timers_invariant (armed_or_fired x D)).
    - intros. by apply armed_or_fired_fire.
    - by left. }
  assert (due_count target (timers s1) = 0%nat) as Hz.
  { apply run_timers_exhausts. apply due_count_length. }
  destruct Hs1 as [Harmed|Hfired]; [|done].
  pose proof (due_count_zero _ _ _ _ Hz Harmed) as Hnd.
  unfold due in Hnd. simpl in Hnd. lia.
Qed.

(** *** A pipeline whose reasoning call has not settled *)

Ltac stalled_ok Hs :=
  let Htask := fresh "Htask" in let Htimer := fresh "Htimer" in
  let Hturn := fresh "Hturn" in let Hsil := fresh "Hsil" in let Huniq := fresh "Huniq" in
  destruct Hs as (Htask & Htimer & Hturn & Hsil & Huniq);
  pose proof (lookup_lt_Some _ _ _ Htimer);
  simpl in *; simplify_eq;
  (split;
   [ (* the task *)
     first [ done | by apply lookup_app_l_Some
           | by (rewrite list_lookup_insert_ne by congruence) | idtac ]
   | split;
     [ (* its timer *)
       first [ done
             | by (apply lookup_app_l_Some; rewrite ?list_lookup_alter_ne by (by eauto))
             | by (rewrite ?list_lookup_alter_ne by (by eauto))
             | idtac ]
     | split;
       [ (* turnTimeout *) first [ done | idtac ]
       | split;
         [ (* silenceTimer *)
           first [ done | by (intros ? ?; simplify_eq; rewrite ?length_alter; lia) | idtac ]
         | (* uniqueness *)
           first
             [ done
             | by (intros ? ? Hl Hp; apply lookup_snoc_Some in Hl as [[_ Hl]|[-> <-]];
                   [by eapply Huniq
                   | simpl in Hp; simplify_eq; rewrite ?length_alter in *; lia])
             | by (intros ? ? Hl Hp;
                   apply list_lookup_insert_Some in Hl as [(-> & <- & ?)|[? Hl]];
                   [simpl in Hp; simplify_eq; by eapply Huniq | by eapply Huniq])
             | idtac ] ] ] ] ]).

Lemma stalled_step env k x D ev :
  settles k ev = false -> is_Elapse ev = false ->
  respects (stalled k x D) any_effect (step env ev).
Proof.
  unfold stalled, any_effect. intros Hev Hel.
  destruct ev as [[m|]| |r|c|c d|c|c|k' reply|k' o|dt]; try discriminate;
    handler_leaves; try apply Nat.eqb_neq in Hev;
    try (leaf; (split; [finish|effects_ok]); fail);
    leaf; (split; [stalled_ok Hs|effects_ok]).
  1: { intros i Hi. eapply Hsil. congruence. }
  all: rewrite list_lookup_alter_ne; [done|];
    intros ->; apply Hev; by eapply Huniq.
Qed.

Lemma stalled_elapse k x D dt s :
  stalled k x D s -> now s + Z.max 0 dt < D -> stalled k x D (elapse dt s).1.
Proof.
  intros Hs Hlt. unfold elapse. simpl.
  set (target := now s + Z.max 0 dt) in *.
  assert (forall fuel s', stalled k x D s' -> stalled k x D (run_timers fuel target s')) as Hrun.
  { induction fuel as [|fuel IH]; intros s' Hs'; simpl; [done|].
    destruct (next_due target (timers s') 0) as [[i d]|] eqn:Hn; [|done].
    destruct (next_due_Some _ _ _ _ _ Hn) as (t & _ & Ht & Hd).
    rewrite Nat.sub_0_r in Ht. apply IH.
    destruct Hs' as (Htask & Htimer & Hturn & Hsil & Huniq).
    assert (i <> x) as Hne.
    { intros ->. rewrite Htimer in Ht. injection Ht as <-.
      unfold due in Hd. simpl in Hd. lia. }
    unfold stalled, fire. rewrite Ht.
    destruct (callback t); simpl; by rewrite list_lookup_insert_ne. }
  exact (Hrun _ _ Hs).
Qed.

Lemma elapsed_nonneg evs : 0 <= elapsed evs.
Proof.
  induction evs as [|ev evs IH]; simpl; [done|].
  destruct ev; simpl; lia.
Qed.

Lemma now_step env ev s : now (step env ev s).1 = now s + elapsed_by ev.
Proof.
  destruct (is_Elapse ev) eqn:Hel.
  - destruct ev; try discriminate. reflexivity.
  - assert (respects (now_is (now s)) any_effect (step env ev)) as Hr.
    { unfold now_is, any_effect.
      destruct ev as [[m|]| |r|c|c d|c|c|k' reply|k' o|dt]; try discriminate;
        handler_leaves; leaf; (split; [finish|effects_ok]). }
    destruct (Hr s eq_refl) as [-> _]. destruct ev; try discriminate; simpl; lia.
Qed.

Lemma stalled_run env k x D evs : forall s,
  stalled k x D s ->
  forallb (fun ev => negb (settles k ev)) evs = true ->
  now s + elapsed evs < D ->
  stalled k x D (run env evs s).1 /\ now (run env evs s).1 = now s + elapsed evs.
Proof.
  induction evs as [|ev evs IH]; intros s Hs Hevs Hlt.
  - simpl in *. split; [done|lia].
  - simpl in Hevs, Hlt. rewrite run_cons. cbn zeta. cbn [fst].
    apply andb_true_iff in Hevs as [Hev Hevs]. apply negb_true_iff in Hev.
    pose proof (elapsed_nonneg evs) as Hnn.
    pose proof (now_step env ev s) as Hnow.
    assert (stalled k x D (step env ev s).1) as Hs1.
    { destruct (is_Elapse ev) eqn:Hel.
      - destruct ev; try discriminate. simpl in *. apply stalled_elapse; [done|lia].
      - by apply (stalled_step env k x D ev Hev Hel s). }
    destruct (IH _ Hs1 Hevs) as [Hs2 Hnow2]; [lia|].
    split; [done|]. simpl. lia.
Qed.

(** *** The exit paths of one pipeline *)

Lemma finally_cleans_up k timeout task s :
  tasks s !! k = Some task ->
  cleaned_up k timeout
    (set_tasks (<[k := Settled true]> (tasks s))
       (set_ctx (with_isSpeaking false) (clearTimeout timeout s))).
Proof.
  intros Hk. split; [|split; [|done]].
  - simpl. by eapply lookup_insert_same.
  - unfold timer_armed. simpl. rewrite list_lookup_alter_eq.
    destruct (timers s !! timeout) as [t|]; simpl; [|done].
    pose proof (clear_not_armed t). by destruct (status (clear t)).
Qed.

Lemma fallback_exit env k timeout g o s :
  tasks s !! k = Some (AwaitFallback timeout) ->
  forallb (fun e => negb (settles k e)) g = true ->
  cleaned_up k timeout (run env (g ++ [TtsSettled k o]) s).1.
Proof.
  intros Hk Hg. rewrite run_app. cbn zeta. cbn [fst].
  pose proof (task_frame_run env k _ g s Hg Hk) as Hk'.
  simpl. unfold and_then, skip. cbn [fst].
  rewrite (resume_tts_fallback env k timeout o _ Hk').
  by eapply finally_cleans_up.
Qed.

Lemma pipeline_run_cleans_up env s k timeout reply o1 o2 g1 g2 :
  tasks s !! k = Some (AwaitRunBrain timeout) ->
  forallb (fun e => negb (settles k e)) g1 = true ->
  forallb (fun e => negb (settles k e)) g2 = true ->
  cleaned_up k timeout (run env (pipeline_run env k reply o1 o2 g1 g2) s).1.
Proof.
  intros Hk Hg1 Hg2. unfold pipeline_run. rewrite run_cons. cbn zeta. cbn [fst].
  destruct reply as [r|].
  - (* the reasoning engine answered *)
    assert (tasks (step env (BrainSettled k (Some r)) s).1 !! k
            = Some (AwaitTextToSpeech timeout)) as Hk1.
    { simpl. unfold resume_brain. rewrite Hk. unfold_leaves. simpl.
      by eapply lookup_insert_same. }
    set (s1 := (step env (BrainSettled k (Some r)) s).1) in *.
    rewrite run_app. cbn zeta. cbn [fst].
    pose proof (task_frame_run env k _ g1 s1 Hg1 Hk1) as Hk2.
    set (s2 := (run env g1 s1).1) in *.
    rewrite run_cons. cbn zeta. cbn [fst].
    destruct (textToSpeech env o1) as [audio|] eqn:Ho1.
    + (* success *)
      simpl. unfold skip. cbn [fst].
      rewrite (resume_tts_success env k timeout o1 audio s2 Hk2 Ho1).
      by eapply finally_cleans_up.
    + (* synthesis failure *)
      apply fallback_exit; [|done].
      simpl. rewrite (resume_tts_rejected env k timeout o1 s2 Hk2 Ho1). simpl.
      by eapply lookup_insert_same.
  - (* reasoning failure *)
    apply fallback_exit; [|done].
    simpl. rewrite (resume_brain_rejected k timeout s Hk). simpl.
    by eapply lookup_insert_same.
Qed.

Lemma onTranscript_final_state env text s :
  JS.truthy (JS.trim text) = true ->
  turnTimeout s = None ->
  let s0 := (onTranscript env text true s).1 in
  tasks s0 = tasks s ++ [AwaitRunBrain (length (timers s))]
  /\ timers s0 = timers s ++ [{| deadline := now s + MAX_TURN_DURATION_MS;
                                callback := TurnCallback; status := Armed |}]
  /\ silenceTimer s0 = silenceTimer s
  /\ turnTimeout s0 = None
  /\ now s0 = now s
  /\ isSpeaking (ctx s0) = true.
Proof.
  intros Ht Hn. unfold onTranscript. rewrite Ht. simpl.
  unfold_leaves. simpl. rewrite Hn. simpl. done.
Qed.

(** C5. (1) Whichever way a pipeline leaves (success, reasoning failure,
    synthesis failure) and whatever unrelated events happen meanwhile, when
    it completes its promise is fulfilled, the turn timer it armed at its
    start is no longer armed and [isSpeaking] (awaiting-response) is false.
    (2) If the reasoning call never settles, the turn timer armed when the
    final transcript was dispatched stays armed until its deadline, 30000 ms
    after the dispatch; as soon as that much time has elapsed it has fired,
    at its deadline, and [isSpeaking] has been cleared. *)
Theorem turn_timer_is_cancelled_or_fires env s :
  (forall k timeout reply o1 o2 g1 g2,
      tasks s !! k = Some (AwaitRunBrain timeout) ->
      forallb (fun e => negb (settles k e)) g1 = true ->
      forallb (fun e => negb (settles k e)) g2 = true ->
      let s' := (run env (pipeline_run env k reply o1 o2 g1 g2) s).1 in
      tasks s' !! k = Some (Settled true)
      /\ timer_armed s' timeout = false
      /\ isSpeaking (ctx s') = false)
  /\ (forall text evs dt,
        reachable env s ->
        JS.truthy (JS.trim text) = true ->
        let k := length (tasks s) in
        let timeout := length (timers s) in
        let D := now s + MAX_TURN_DURATION_MS in
        forallb (fun e => negb (settles k e)) evs = true ->
        elapsed evs < MAX_TURN_DURATION_MS ->
        MAX_TURN_DURATION_MS <= elapsed evs + dt ->
        let s1 := (run env evs (onTranscript env text true s).1).1 in
        let s2 := (step env (Elapse dt) s1).1 in
        timers s1 !! timeout =
          Some {| deadline := D; callback := TurnCallback; status := Armed |}
        /\ timers s2 !! timeout =
             Some {| deadline := D; callback := TurnCallback; status := Fired D |}
        /\ isSpeaking (ctx s2) = false).
Proof.
  split.
  - intros. by apply pipeline_run_cleans_up.
  - intros text evs dt Hr Ht k timeout D Hevs Hlt Hge s1 s2.
    pose proof (turnTimeout_null_reachable env s Hr) as Hnull.
    destruct (timers_bounded_reachable env s Hr) as [Hsil Htasks].
    destruct (onTranscript_final_state env text s Ht Hnull)
      as (HT & HTi & HS & HTu & HN & _).
    set (s0 := (onTranscript env text true s).1) in *.
    assert (stalled k timeout D s0) as Hst.
    { unfold stalled. rewrite HT, HTi, HS, HTu.
      split; [apply lookup_snoc_length|]. split; [apply lookup_snoc_length|].
      split; [done|]. split.
      - intros i Hi. specialize (Hsil i Hi). subst timeout. lia.
      - intros k' task Hl Hp.
        apply lookup_snoc_Some in Hl as [[_ Hl]|[-> _]]; [|done].
        specialize (Htasks k' task _ Hl Hp). subst timeout. lia. }
    destruct (stalled_run env k timeout D evs s0 Hst Hevs) as [Hst1 Hnow1].
    { rewrite HN. subst D. lia. }
    fold s1 in Hst1, Hnow1.
    destruct Hst1 as (_ & Htimer & _).
    split; [done|].
    apply elapse_fires_turn_timer; [done|].
    rewrite Hnow1, HN. subst D. lia.
Qed.

(** ** The turn timer and the next transcript *)

(** C2. The code at the failing input: the first final transcript starts a
    pipeline (task 0) that arms turn timer 1; [turnTimeout] stays null, so
    when a second final transcript arrives while the first pipeline still
    awaits the reasoning engine, [clearTurnTimeout] cancels nothing: timer 1
    is still armed when the pipeline is invoked for the new transcript. *)
Lemma turn_timer_survives_next_transcript :
  let r := step env_dg (ConnTranscript 0 (final_transcript "again")) two_turns_before in
  tasks two_turns_before = [AwaitRunBrain 1]
  /\ turnTimeout two_turns_before = None
  /\ timer_armed two_turns_before 1 = true
  /\ tasks r.1 = [AwaitRunBrain 1; AwaitRunBrain 2]
  /\ timer_armed r.1 1 = true
  /\ r.2 = [RunBrain 1 sales [{| role := user; content := "hello" |};
                              {| role := user; content := "again" |}]].
Proof. by vm_compute. Qed.

(** [clearTurnTimeout] never cancels anything in a session the handler can
    be in. *)
Lemma clearTurnTimeout_cancels_nothing env s :
  reachable env s -> clearTurnTimeout s = (s, []).
Proof.
  intros Hr. unfold clearTurnTimeout. by rewrite (turnTimeout_null_reachable env s Hr).
Qed.

(** ** Instances *)

Lemma teardown_releases_provider_connections_witness :
  reachable env_dg connected
  /\ is_teardown (WsMessage (Some stop_message)) = true
  /\ let s1 := (step env_dg (WsMessage (Some stop_message)) connected).1 in
     In (ProviderSend 1 [x00; x01; x02])
        (run env_dg [WsMessage (Some (media_message "AAEC"))] s1).2
     /\ (length (connections s1) <= 1)%nat
     /\ (step env_dg (WsMessage (Some (media_message "AAEC"))) s1).2 =
          [ProviderOpen (length (connections s1)) telephony_schema;
           ProviderSend (length (connections s1))
             (JS.Buffer_from_base64 (default "" (media_payload (media_message "AAEC"))))].
Proof.
  assert (reachable env_dg connected) as Hr by apply reachable_run.
  destruct (teardown_releases_provider_connections env_dg connected
              (WsMessage (Some stop_message)) Hr eq_refl) as (_ & H1 & H2).
  split; [exact Hr|]. split; [reflexivity|].
  assert (In (ProviderSend 1 [x00; x01; x02])
            (run env_dg [WsMessage (Some (media_message "AAEC"))]
               (step env_dg (WsMessage (Some stop_message)) connected).1).2) as Hin
    by (vm_compute; auto).
  split; [exact Hin|]. split.
  - exact (H1 _ _ _ Hin).
  - apply H2; [reflexivity..| |reflexivity]. by vm_compute.
Defined.

Lemma provider_error_resets_bridge_witness :
  let cn := {| owner := 0; transcript_listeners := 1 |} in
  let br := {| opts := spread DEFAULT_OPTIONS no_options; connection := Some 0%nat;
               closed := false |} in
  let s1 := (step env_dg (ConnError 0) connected).1 in
  let reset := {| opts := opts br; connection := None; closed := closed br |} in
  connections connected !! 0%nat = Some cn
  /\ bridges connected !! owner cn = Some br
  /\ bridges s1 !! 0%nat = Some reset
  /\ (Bridge.start env_dg 0 s1).2 = [ProviderOpen 1 telephony_schema]
  /\ (step env_dg (WsMessage (Some (media_message "AAEC"))) s1).2 = [].
Proof.
  intros cn br s1 reset.
  assert (connections connected !! 0%nat = Some cn) as Hc by reflexivity.
  assert (bridges connected !! owner cn = Some br) as Hb by reflexivity.
  destruct (provider_error_resets_bridge env_dg connected 0 cn br Hc Hb)
    as (H1 & H2 & H3).
  split; [exact Hc|]. split; [exact Hb|]. split; [exact H1|]. split.
  - exact (proj1 (H2 eq_refl)).
  - exact (proj1 (H3 eq_refl (media_message "AAEC") eq_refl)).
Defined.

Lemma pipeline_failure_speaks_fallback_witness :
  pipeline_failure env_dg in_turn 1 2 (BrainSettled 1 None)
  /\ let r1 := step env_dg (BrainSettled 1 None) in_turn in
     r1.2 = [ConsoleError "[stream] runBrain error"; TextToSpeech 1 FALLBACK]
     /\ let s2 := (run env_dg [Elapse 100] r1.1).1 in
        let r3 := step env_dg (TtsSettled 1 speaking_oracle) s2 in
        tasks r3.1 !! 1%nat = Some (Settled true)
        /\ textToSpeech env_dg speaking_oracle = Some [x07]
        /\ readyState s2 = OPEN /\ streamSid (ctx s2) = Some "MZ1"
        /\ r3.2 = [WsSend (JS.stringify (media_event "MZ1" [x07]))].
Proof.
  assert (pipeline_failure env_dg in_turn 1 2 (BrainSettled 1 None)) as Hf
    by (left; split; reflexivity).
  destruct (pipeline_failure_speaks_fallback env_dg in_turn 1 2 _ Hf) as (H1 & _ & H3).
  split; [exact Hf|]. split; [exact H1|].
  destruct (H3 [Elapse 100] speaking_oracle eq_refl) as [Hk Hs].
  split; [exact Hk|].
  assert (textToSpeech env_dg speaking_oracle = Some [x07]) as Ho by reflexivity.
  rewrite Ho in Hs. destruct Hs as [_ Hs].
  assert (readyState (run env_dg [Elapse 100]
                        (step env_dg (BrainSettled 1 None) in_turn).1).1 = OPEN) as Hopen
    by (vm_compute; reflexivity).
  assert (streamSid (ctx (run env_dg [Elapse 100]
                            (step env_dg (BrainSettled 1 None) in_turn).1).1) = Some "MZ1")
    as Hsid by (vm_compute; reflexivity).
  split; [exact Ho|]. split; [exact Hopen|]. split; [exact Hsid|].
  apply (Hs "MZ1" Hopen Hsid). discriminate.
Defined.

Lemma turn_timer_is_cancelled_or_fires_witness :
  tasks in_turn !! 1%nat = Some (AwaitRunBrain 2)
  /\ (let s' := (run env_dg (pipeline_run env_dg 1 None silent_oracle speaking_oracle [] [])
                   in_turn).1 in
      tasks s' !! 1%nat = Some (Settled true)
      /\ timer_armed s' 2 = false /\ isSpeaking (ctx s') = false)
  /\ reachable env_dg session0
  /\ JS.truthy (JS.trim "hello") = true
  /\ elapsed [Elapse 1000] < MAX_TURN_DURATION_MS
  /\ MAX_TURN_DURATION_MS <= elapsed [Elapse 1000] + 29000
  /\ (let s1 := (run env_dg [Elapse 1000] (onTranscript env_dg "hello" true session0).1).1 in
      let s2 := (step env_dg (Elapse 29000) s1).1 in
      timers s1 !! 0%nat =
        Some {| deadline := 30000; callback := TurnCallback; status := Armed |}
      /\ timers s2 !! 0%nat =
           Some {| deadline := 30000; callback := TurnCallback; status := Fired 30000 |}
      /\ isSpeaking (ctx s2) = false).
Proof.
  destruct (turn_timer_is_cancelled_or_fires env_dg in_turn) as [HA _].
  destruct (turn_timer_is_cancelled_or_fires env_dg session0) as [_ HB].
  assert (reachable env_dg session0) as Hr by (exists ∅, 0, []; reflexivity).
  split; [reflexivity|].
  split; [exact (HA 1%nat 2%nat None silent_oracle speaking_oracle [] []
                    eq_refl eq_refl eq_refl)|].
  split; [exact Hr|]. split; [reflexivity|]. split; [reflexivity|].
  split; [by vm_compute|].
  apply (HB "hello" [Elapse 1000] 29000 Hr eq_refl eq_refl); [reflexivity|by vm_compute].
Defined.

Lemma interim_or_empty_transcript_changes_nothing_witness :
  (true = false \/ JS.trim "   " = "")
  /\ onTranscript env_dg "   " true connected = (connected, [])
  /\ (Bridge.transcript_isFinal (interim_transcript "I need") = false
      \/ JS.trim (Bridge.transcript_text (interim_transcript "I need")) = "")
  /\ step env_dg (ConnTranscript 0 (interim_transcript "I need")) connected = (connected, []).
Proof.
  destruct (interim_or_empty_transcript_changes_nothing env_dg connected) as [H1 H2].
  assert (true = false \/ JS.trim "   " = "") as Ha by (right; reflexivity).
  assert (Bridge.transcript_isFinal (interim_transcript "I need") = false
          \/ JS.trim (Bridge.transcript_text (interim_transcript "I need")) = "") as Hb
    by (left; reflexivity).
  split; [exact Ha|]. split; [exact (H1 _ _ Ha)|]. split; [exact Hb|exact (H2 _ _ Hb)].
Defined.

Lemma history_one_caller_turn_then_agent_turn_witness :
  JS.truthy (JS.trim "I need help") = true
  /\ forallb (quiet 0) [Elapse 200; BrainSettled 0 (Some "How can I assist?");
                        TtsSettled 0 speaking_oracle] = true
  /\ (let s1 := (onTranscript env_dg "I need help" true session0).1 in
      messages (ctx s1) = [{| role := user; content := "I need help" |}]
      /\ messages (ctx (run env_dg [Elapse 200; BrainSettled 0 (Some "How can I assist?");
                                    TtsSettled 0 speaking_oracle] s1).1) =
           [{| role := user; content := "I need help" |};
            {| role := assistant; content := "How can I assist?" |}])
  /\ reasoned 1 (step env_dg (BrainSettled 1 (Some "Sure.")) in_turn).1
  /\ appended (BrainSettled 1 (Some "Again."))
       (run env_dg [Elapse 10] (step env_dg (BrainSettled 1 (Some "Sure.")) in_turn).1).1 = [].
Proof.
  destruct (history_one_caller_turn_then_agent_turn env_dg session0) as (_ & _ & H & _).
  destruct (history_one_caller_turn_then_agent_turn env_dg
              (step env_dg (BrainSettled 1 (Some "Sure.")) in_turn).1) as (_ & _ & _ & H4).
  assert (reasoned 1 (step env_dg (BrainSettled 1 (Some "Sure.")) in_turn).1) as Hr
    by (exists (AwaitTextToSpeech 2); split; reflexivity).
  split; [reflexivity|]. split; [reflexivity|].
  split; [exact (H "I need help" [Elapse 200; BrainSettled 0 (Some "How can I assist?");
                                  TtsSettled 0 speaking_oracle] eq_refl eq_refl)|].
  split; [exact Hr|].
  exact (proj2 (H4 1%nat [Elapse 10] (Some "Again.") Hr)).
Defined.

Lemma teardown_is_idempotent_witness :
  is_teardown (WsMessage (Some stop_message)) = true
  /\ is_teardown WsClose = true
  /\ JS.truthy (JS.trim "hello") = true
  /\ let s1 := (step env_dg (WsMessage (Some stop_message)) connected).1 in
     let r2 := step env_dg WsClose s1 in
     r2.2 = [] /\ bridges r2.1 = bridges s1
     /\ (step env_dg (WsMessage (Some stop_message)) s1).1 = s1
     /\ messages (ctx (onTranscript env_dg "hello" true r2.1).1) =
          messages (ctx s1) ++ [{| role := user; content := "hello" |}].
Proof.
  destruct (teardown_is_idempotent env_dg connected (WsMessage (Some stop_message)) WsClose
              eq_refl eq_refl) as (H1 & _ & _ & H4 & _ & _ & H7).
  destruct (teardown_is_idempotent env_dg connected (WsMessage (Some stop_message))
              (WsMessage (Some stop_message)) eq_refl eq_refl) as (_ & _ & _ & _ & _ & H6 & _).
  split; [reflexivity|]. split; [reflexivity|]. split; [reflexivity|].
  split; [exact H1|]. split; [exact H4|]. split; [exact (H6 eq_refl)|].
  exact (proj1 (H7 "hello" eq_refl)).
Defined.

Lemma output_sender_guard_and_envelope_witness :
  reachable env_dg hung_up
  /\ (readyState hung_up <> OPEN \/ streamSid (ctx hung_up) = None)
  /\ send_media (Some [x00; x01; x02]) hung_up = (hung_up, [])
  /\ reachable env_dg started
  /\ readyState started = OPEN
  /\ streamSid (ctx started) = Some "MZ1"
  /\ send_media (Some [x00; x01; x02]) started =
       (started,
        [WsSend (JS.stringify
           (JS.JObject
              [("event", JS.JString "media");
               ("streamSid", JS.JString "MZ1");
               ("media", JS.JObject
                  [("payload", JS.JString (JS.toString_base64 [x00; x01; x02]))])]))]).
Proof.
  assert (reachable env_dg hung_up) as Hr1 by apply reachable_run.
  assert (reachable env_dg started) as Hr2 by apply reachable_run.
  assert (readyState hung_up <> OPEN \/ streamSid (ctx hung_up) = None) as Hc
    by (left; discriminate).
  split; [exact Hr1|]. split; [exact Hc|].
  split; [exact (proj1 (output_sender_guard_and_envelope env_dg hung_up _ Hr1) Hc)|].
  split; [exact Hr2|]. split; [reflexivity|]. split; [reflexivity|].
  exact (proj2 (output_sender_guard_and_envelope env_dg started _ Hr2) "MZ1" eq_refl eq_refl).
Defined.

Lemma empty_audio_is_still_sent_witness :
  reachable env_unconfigured greeting_pending
  /\ readyState greeting_pending = OPEN
  /\ streamSid (ctx greeting_pending) = Some "MZ1"
  /\ textToSpeech env_unconfigured silent_oracle = Some []
  /\ (tasks greeting_pending !! 0%nat = Some AwaitGreeting
      \/ (exists timeout, tasks greeting_pending !! 0%nat = Some (AwaitTextToSpeech timeout)))
  /\ (step env_unconfigured (TtsSettled 0 silent_oracle) greeting_pending).2 =
       [WsSend (JS.stringify
          (JS.JObject [("event", JS.JString "media");
                       ("streamSid", JS.JString "MZ1");
                       ("media", JS.JObject [("payload", JS.JString "")])]))].
Proof.
  assert (reachable env_unconfigured greeting_pending) as Hr by apply reachable_run.
  assert (tasks greeting_pending !! 0%nat = Some AwaitGreeting
          \/ (exists timeout,
                 tasks greeting_pending !! 0%nat = Some (AwaitTextToSpeech timeout))) as Hk
    by (left; reflexivity).
  split; [exact Hr|]. split; [reflexivity|]. split; [reflexivity|].
  split; [reflexivity|]. split; [exact Hk|].
  exact (proj1 (empty_audio_is_still_sent env_unconfigured greeting_pending 0
                  silent_oracle "MZ1" Hr eq_refl eq_refl eq_refl Hk)).
Defined.

(** * Further properties of the handler *)

(** ** Provider connections *)

(** X1. In every session the handler can be in, at most one transcription
    bridge holds a provider connection, and it is the bridge the handler
    currently refers to. *)
Theorem at_most_one_bridge_connected env s b1 b2 br1 br2 c1 c2 :
  reachable env s ->
  bridges s !! b1 = Some br1 -> connection br1 = Some c1 ->
  bridges s !! b2 = Some br2 -> connection br2 = Some c2 ->
  sttStream s = Some b1 /\ b2 = b1 /\ c2 = c1.
Proof.
  intros Hr H1 Hc1 H2 Hc2.
  pose proof (others_released_reachable env s Hr) as Ho.
  assert (sttStream s = Some b1) as E1.
  { destruct (decide (sttStream s = Some b1)) as [E|E]; [done|].
    rewrite (Ho b1 br1 H1 E) in Hc1. discriminate. }
  assert (sttStream s = Some b2) as E2.
  { destruct (decide (sttStream s = Some b2)) as [E|E]; [done|].
    rewrite (Ho b2 br2 H2 E) in Hc2. discriminate. }
  assert (b2 = b1) as -> by congruence.
  split; [done|]. split; [done|]. congruence.
Qed.

Lemma at_most_one_bridge_connected_witness :
  reachable env_dg connected
  /\ bridges connected !! 0%nat
       = Some {| opts := spread DEFAULT_OPTIONS no_options; connection := Some 0%nat;
                 closed := false |}
  /\ sttStream connected = Some 0%nat.
Proof.
  assert (reachable env_dg connected) as Hr by apply reachable_run.
  split; [exact Hr|]. split; [reflexivity|].
  exact (proj1 (at_most_one_bridge_connected env_dg connected 0 0 _ _ 0 0 Hr
                  eq_refl eq_refl eq_refl eq_refl)).
Defined.

Ltac all_released_ok Hs :=
  let b' := fresh "b'" in let br' := fresh "br'" in let Hb' := fresh "Hb'" in
  intros b' br' Hb'; simpl in *;
  repeat match goal with
         | H : <[_ := _]> _ !! _ = Some _ |- _ =>
             apply lookup_put_inv in H as [[-> ->]|[? H]]; [try done|]
         | H : (_ ++ [_]) !! _ = Some _ |- _ =>
             apply lookup_snoc_Some in H as [[_ H]|[-> <-]]; [|try done]
         end;
  try (eapply Hs; done).

Ltac held_connection_absurd Hs :=
  exfalso;
  match goal with
  | H : bridges _ !! _ = Some ?br, H' : connection ?br = Some _ |- _ =>
      rewrite (Hs _ _ H) in H'; discriminate
  end.

Lemma never_connected_step env ev :
  deepgram_configured env = false ->
  respects never_connected (fun e => is_provider_effect e = false) (step env ev).
Proof.
  intros Hdg. unfold never_connected, all_released.
  step_leaves;
    try (apply respects_elapse; intros ? ? ?; unfold_leaves; crush_proc; finish).
  all: intros s [Hs Hc]; unfold_leaves; rewrite ?Hdg, ?Hc; simpl; crush_proc;
       rewrite ?Hdg in *; simpl in *.
  all: try (split; [split; [|finish]|effects_ok]).
  all: try finish.
  all: first [ held_connection_absurd Hs | all_released_ok Hs ].
Qed.

(** X2. Without a Deepgram key the handler never talks to the transcription
    provider: whatever events a session receives, no connection is opened,
    written to or finished, and no bridge ever holds one. *)
Theorem no_provider_traffic_without_key env params t0 evs :
  deepgram_configured env = false ->
  let r := run env evs (handleStream env params t0) in
  forallb (fun e => negb (is_provider_effect e)) r.2 = true
  /\ connections r.1 = []
  /\ (forall b br, bridges r.1 !! b = Some br -> connection br = None).
Proof.
  intros Hdg r.
  destruct (respects_run never_connected (fun e => is_provider_effect e = false) env evs
              (fun ev _ => never_connected_step env ev Hdg)
              (handleStream env params t0)) as [[H1 H2] H3].
  { split; [|done]. intros b br Hb. done. }
  split; [|split; [exact H2|exact H1]].
  apply forallb_forall. intros e He.
  rewrite List.Forall_forall in H3. by rewrite (H3 e He).
Qed.

Lemma no_provider_traffic_without_key_witness :
  deepgram_configured env_unconfigured = false
  /\ forallb (fun e => negb (is_provider_effect e))
       (run env_unconfigured
          [WsMessage (Some (start_message "MZ1")); WsMessage (Some (media_message "AAEC"));
           ConnOpen 0; WsMessage (Some stop_message); WsClose]
          (handleStream env_unconfigured ∅ 0)).2 = true.
Proof.
  split; [reflexivity|].
  exact (proj1 (no_provider_traffic_without_key env_unconfigured ∅ 0
                  [WsMessage (Some (start_message "MZ1"));
                   WsMessage (Some (media_message "AAEC"));
                   ConnOpen 0; WsMessage (Some stop_message); WsClose] eq_refl)).
Defined.

Lemma sends_audio_step env ev : respects (fun _ => True) sends_audio (step env ev).
Proof.
  unfold sends_audio.
  step_leaves;
    try (apply respects_elapse; intros ? ? ?; unfold_leaves; crush_proc; finish).
  all: leaf; (split; [done|effects_ok]).
  all: intros E; rewrite E in *; simpl in *; rewrite ?andb_false_r in *; discriminate.
Qed.

(** X3. An audio frame that decodes to no bytes is never forwarded to the
    transcription provider: from any session and for any events, every chunk
    written to a provider connection is non-empty. *)
Theorem empty_chunk_never_forwarded env evs s c chunk :
  In (ProviderSend c chunk) (run env evs s).2 -> chunk <> [].
Proof.
  intros Hin.
  destruct (respects_run (fun _ => True) sends_audio env evs
              (fun ev _ => sends_audio_step env ev) s I) as [_ H].
  rewrite List.Forall_forall in H. exact (H _ Hin).
Qed.

Lemma empty_chunk_never_forwarded_witness :
  In (ProviderSend 0 [x00; x01; x02])
     (run env_dg [WsMessage (Some (media_message "AAEC"))] session0).2
  /\ [x00; x01; x02] <> [].
Proof.
  assert (In (ProviderSend 0 [x00; x01; x02])
            (run env_dg [WsMessage (Some (media_message "AAEC"))] session0).2) as Hin
    by (right; left; reflexivity).
  split; [exact Hin|].
  exact (empty_chunk_never_forwarded env_dg [WsMessage (Some (media_message "AAEC"))]
           session0 0 _ Hin).
Defined.

(** ** The stream identifier and the outbound channel *)

Lemma streamSid_kept_step env ev :
  respects (fun s => is_Some (streamSid (ctx s))) any_effect (step env ev).
Proof.
  unfold any_effect.
  destruct ev as [[m|]| |r|c|c d|c|c|k reply|k o|dt]; simpl;
    unfold_composite;
    repeat first [ apply respects_and_then | apply respects_when_guard; intros ?
                 | apply respects_on_transcript; intros
                 | apply respects_onTranscript ];
    try (apply respects_elapse; intros ? ? ?; unfold_leaves; crush_proc; finish);
    try (leaf; (split; [finish|effects_ok]); fail).
  intros s Hs. split; [|constructor]. simpl.
  match goal with
  | H : JS.truthy_opt ?x = true |- _ => destruct x; [by eexists|discriminate]
  end.
Qed.

(** X4. Once a stream identifier has been bound it stays bound: no event
    resets it to null (a later start event can only replace it by another
    identifier). *)
Theorem streamSid_stays_assigned env evs s sid :
  streamSid (ctx s) = Some sid ->
  exists sid', streamSid (ctx (run env evs s).1) = Some sid'.
Proof.
  intros Hs.
  destruct (respects_run (fun s => is_Some (streamSid (ctx s))) any_effect env evs
              (fun ev _ => streamSid_kept_step env ev) s) as [[sid' H] _]; [by eexists|].
  by exists sid'.
Qed.

Lemma streamSid_stays_assigned_witness :
  streamSid (ctx started) = Some "MZ1"
  /\ exists sid',
       streamSid (ctx (run env_dg [WsMessage (Some stop_message); WsClose] started).1)
       = Some sid'.
Proof.
  split; [reflexivity|].
  exact (streamSid_stays_assigned env_dg [WsMessage (Some stop_message); WsClose]
           started "MZ1" eq_refl).
Defined.

Lemma unbound_step env ev :
  is_start ev = false ->
  respects (fun s => streamSid (ctx s) = None) (fun e => is_WsSend e = false) (step env ev).
Proof.
  intros Hev.
  destruct ev as [[m|]| |r|c|c d|c|c|k reply|k o|dt]; simpl in *;
    unfold_composite; rewrite ?Hev;
    respects_struct;
    try (apply respects_elapse; intros ? ? ?; unfold_leaves; crush_proc; finish);
    leaf; (split; [finish|effects_ok]); finish.
Qed.

(** X5. Nothing is written to the caller before a start event has bound the
    stream identifier: from a session without one (in particular the initial
    session), events other than start events produce no outbound message and
    leave the identifier unbound, whatever the synthesis calls return. *)
Theorem nothing_sent_before_start env evs s :
  streamSid (ctx s) = None ->
  forallb (fun ev => negb (is_start ev)) evs = true ->
  forallb (fun e => negb (is_WsSend e)) (run env evs s).2 = true
  /\ streamSid (ctx (run env evs s).1) = None.
Proof.
  intros Hs Hevs.
  destruct (respects_run (fun s => streamSid (ctx s) = None)
              (fun e => is_WsSend e = false) env evs) with (s := s) as [H1 H2]; [|done|].
  { intros ev Hin. apply unbound_step.
    rewrite forallb_forall in Hevs. specialize (Hevs ev Hin). by destruct (is_start ev). }
  split; [|done]. apply forallb_forall. intros e He.
  rewrite List.Forall_forall in H2. by rewrite (H2 e He).
Qed.

Lemma nothing_sent_before_start_witness :
  streamSid (ctx session0) = None
  /\ forallb (fun e => negb (is_WsSend e))
       (run env_dg [WsMessage (Some (media_message "AAEC")); ConnOpen 0;
                    ConnTranscript 0 (final_transcript "hello");
                    BrainSettled 0 (Some "Hi."); TtsSettled 0 speaking_oracle] session0).2
     = true.
Proof.
  split; [reflexivity|].
  exact (proj1 (nothing_sent_before_start env_dg
                  [WsMessage (Some (media_message "AAEC")); ConnOpen 0;
                   ConnTranscript 0 (final_transcript "hello");
                   BrainSettled 0 (Some "Hi."); TtsSettled 0 speaking_oracle] session0
                  eq_refl eq_refl)).
Defined.

Lemma closed_step env ev :
  is_WsReadyState ev = false ->
  respects (fun s => readyState s = CLOSED) (fun e => is_WsSend e = false) (step env ev).
Proof.
  intros Hev.
  destruct ev as [[m|]| |r|c|c d|c|c|k reply|k o|dt]; simpl in *; try discriminate;
    unfold_composite;
    respects_struct;
    try (apply respects_elapse; intros ? ? ?; unfold_leaves; crush_proc; finish);
    leaf; (split; [finish|effects_ok]);
    first [finish | rewrite Hs in *; simpl in *; discriminate].
Qed.

(** X6. After the caller's channel has closed nothing is written to it: the
    close event and every later event (replies and audio that arrive late
    included) produce no outbound message. *)
Theorem nothing_sent_after_close env evs s :
  forallb (fun ev => negb (is_WsReadyState ev)) evs = true ->
  forallb (fun e => negb (is_WsSend e)) (run env (WsClose :: evs) s).2 = true.
Proof.
  intros Hevs.
  destruct (respects_run (fun s => readyState s = CLOSED)
              (fun e => is_WsSend e = false) env evs) with (s := (step env WsClose s).1)
    as [_ H2].
  { intros ev Hin. apply closed_step.
    rewrite forallb_forall in Hevs. specialize (Hevs ev Hin).
    by destruct (is_WsReadyState ev). }
  { simpl. unfold on_close, and_then, update, clear_silenceTimer, clearTurnTimeout,
      stop_sttStream, Bridge.stop. simpl. crush_proc; done. }
  rewrite run_cons. cbn zeta. cbn [snd]. rewrite forallb_app. apply andb_true_iff. split.
  - simpl. unfold on_close, and_then, update, clear_silenceTimer, clearTurnTimeout,
      stop_sttStream, Bridge.stop. simpl. crush_proc; done.
  - apply forallb_forall. intros e He.
    rewrite List.Forall_forall in H2. by rewrite (H2 e He).
Qed.

Lemma nothing_sent_after_close_witness :
  forallb (fun ev => negb (is_WsReadyState ev))
    [BrainSettled 1 (Some "Sure."); TtsSettled 1 speaking_oracle] = true
  /\ forallb (fun e => negb (is_WsSend e))
       (run env_dg [WsClose; BrainSettled 1 (Some "Sure."); TtsSettled 1 speaking_oracle]
          in_turn).2 = true.
Proof.
  split; [reflexivity|].
  exact (nothing_sent_after_close env_dg
           [BrainSettled 1 (Some "Sure."); TtsSettled 1 speaking_oracle] in_turn eq_refl).
Defined.

(** ** Requests to the reasoning engine *)

Lemma asks_after_caller_turn_onTranscript env text isFinal :
  respects (fun _ => True) asks_after_caller_turn (onTranscript env text isFinal).
Proof.
  unfold onTranscript.
  destruct (negb (JS.truthy (JS.trim text))) eqn:Ht; simpl; [apply respects_skip|].
  destruct isFinal; simpl; [|apply respects_skip].
  apply negb_false_iff in Ht.
  repeat apply respects_and_then.
  - leaf; (split; [done|effects_ok]).
  - leaf; (split; [done|effects_ok]).
  - intros s _. split; [done|]. unfold processUserInput. simpl.
    repeat constructor. by exists (messages (ctx s)), text.
Qed.

Lemma asks_after_caller_turn_step env ev :
  respects (fun _ => True) asks_after_caller_turn (step env ev).
Proof.
  destruct ev as [[m|]| |r|c|c d|c|c|k reply|k o|dt]; simpl;
    unfold_composite;
    repeat first [ apply respects_skip | apply respects_and_then | apply respects_when
                 | apply respects_on_transcript; intros
                 | apply asks_after_caller_turn_onTranscript ];
    try (apply respects_elapse; intros ? ? ?; unfold_leaves; crush_proc; finish);
    leaf; (split; [done|effects_ok]).
Qed.

(** X7. The reasoning engine is only ever asked to answer the caller: in
    every request the handler makes, whatever the session and the events, the
    history handed over ends with a caller turn whose text is not blank. *)
Theorem reasoning_request_ends_with_caller_turn env evs s k config history :
  In (RunBrain k config history) (run env evs s).2 ->
  exists earlier text,
    history = earlier ++ [{| role := user; content := text |}]
    /\ JS.truthy (JS.trim text) = true.
Proof.
  intros Hin.
  destruct (respects_run (fun _ => True) asks_after_caller_turn env evs
              (fun ev _ => asks_after_caller_turn_step env ev) s I) as [_ H].
  rewrite List.Forall_forall in H. exact (H _ Hin).
Qed.

Lemma reasoning_request_ends_with_caller_turn_witness :
  In (RunBrain 0 sales [{| role := user; content := "hello" |}])
     (run env_dg [ConnTranscript 0 (final_transcript "hello")] connected).2
  /\ exists earlier text,
       [{| role := user; content := "hello" |}]
         = earlier ++ [{| role := user; content := text |}]
       /\ JS.truthy (JS.trim text) = true.
Proof.
  assert (In (RunBrain 0 sales [{| role := user; content := "hello" |}])
            (run env_dg [ConnTranscript 0 (final_transcript "hello")] connected).2) as Hin
    by (left; reflexivity).
  split; [exact Hin|].
  exact (reasoning_request_ends_with_caller_turn env_dg
           [ConnTranscript 0 (final_transcript "hello")] connected 0 sales _ Hin).
Defined.

(** ** The silence timer *)

Lemma clear_status t : status (clear t) = Armed -> False.
Proof. unfold clear. destruct (status t) eqn:E; simpl; congruence. Qed.

Lemma clear_callback t : callback (clear t) = callback t.
Proof. unfold clear. by destruct (status t). Qed.

Lemma lookup_alter_clear_armed (l : list Timer) i j t :
  alter clear i l !! j = Some t -> status t = Armed ->
  j <> i /\ l !! j = Some t.
Proof.
  intros H Ha. destruct (decide (j = i)) as [->|Hne].
  - rewrite list_lookup_alter_eq in H.
    destruct (l !! i) as [t0|]; simpl in H; [|discriminate].
    injection H as <-. by apply clear_status in Ha.
  - by rewrite list_lookup_alter_ne in H.
Qed.

Ltac single_ok Hs :=
  let i' := fresh "i'" in let t' := fresh "t'" in
  let Hi' := fresh "Hi'" in let Hcb := fresh "Hcb" in let Ha := fresh "Ha" in
  intros i' t' Hi' Hcb Ha; simpl in *;
  repeat match goal with
         | H : (_ ++ [_]) !! _ = Some _ |- _ =>
             apply lookup_snoc_Some in H as [[_ H]|[-> <-]];
             [|simpl in *; try done; try congruence]
         | H : alter clear _ _ !! _ = Some _ |- _ =>
             apply lookup_alter_clear_armed in H as [? H]; [|done]
         | H : <[_ := _]> _ !! _ = Some _ |- _ =>
             apply list_lookup_insert_Some in H as [(-> & <- & ?)|[? H]];
             [simpl in *; try done; try congruence|]
         end;
  try (eapply Hs; done);
  try (exfalso; match goal with
                | H : timers _ !! _ = Some _ |- _ =>
                    pose proof (Hs _ _ H Hcb Ha); congruence
                end).

Lemma single_silence_timer_step env ev :
  respects single_silence_timer any_effect (step env ev).
Proof.
  unfold single_silence_timer, any_effect.
  step_leaves;
    try (apply respects_elapse; intros ? ? ?; unfold_leaves; crush_proc;
         first [finish | single_ok H]);
    try (leaf; (split; [finish|effects_ok]); fail);
    leaf; (split; [single_ok Hs|effects_ok]).
Qed.

Lemma one_silence env s : reachable env s -> single_silence_timer s.
Proof.
  intros (params & t0 & evs & ->).
  eapply respects_run; [intros; apply single_silence_timer_step|].
  intros i t Hi. done.
Qed.

(** X8. The handler never leaves a stray silence timer behind: in every
    session it can be in, the only silence timer that is still armed is the
    one it holds in [silenceTimer]; every earlier one has been cancelled or
    has fired. *)
Theorem one_armed_silence_timer env s i t :
  reachable env s ->
  timers s !! i = Some t -> callback t = SilenceCallback -> status t = Armed ->
  silenceTimer s = Some i.
Proof. intros Hr. by apply one_silence with (env := env). Qed.

Lemma one_armed_silence_timer_witness :
  reachable env_dg started
  /\ timers started !! 0%nat
       = Some {| deadline := 4000; callback := SilenceCallback; status := Armed |}
  /\ silenceTimer started = Some 0%nat.
Proof.
  assert (reachable env_dg started) as Hr by apply reachable_run.
  split; [exact Hr|]. split; [reflexivity|].
  exact (one_armed_silence_timer env_dg started 0 _ Hr eq_refl eq_refl eq_refl).
Defined.

Lemma run_timers_invariant_due (I : Session -> Prop) target :
  (forall i t s, I s -> timers s !! i = Some t -> due target t = true -> I (fire i s)) ->
  forall fuel s, I s -> I (run_timers fuel target s).
Proof.
  intros Hfire. induction fuel as [|fuel IH]; intros s Hs; simpl; [done|].
  destruct (next_due target (timers s) 0) as [[i d]|] eqn:Hn; [|done].
  destruct (next_due_Some _ _ _ _ _ Hn) as (t & _ & Ht & Hd).
  rewrite Nat.sub_0_r in Ht. apply IH. by eapply Hfire.
Qed.

Lemma on_media_timers env payload s :
  let s1 := (write_sttStream (JS.Buffer_from_base64 payload) (ensure_sttStream env s).1).1 in
  timers s1 = timers s /\ silenceTimer s1 = silenceTimer s /\ now s1 = now s.
Proof. unfold_leaves. crush_proc; done. Qed.

Lemma frame_rearms s0 env m s :
  event m = "media" -> JS.truthy_opt (media_payload m) = true ->
  single_silence_timer s -> no_silence_since s0 s ->
  let s' := (step env (WsMessage (Some m)) s).1 in
  single_silence_timer s' /\ no_silence_since s0 s'
  /\ forall T, T < now s' + SILENCE_TIMEOUT_MS -> silence_due_after T s'.
Proof.
  intros Hev Hp Hsingle Hno.
  change (step env (WsMessage (Some m)) s) with (on_message env (Some m) s).
  rewrite (on_message_media env m s Hev), Hp. cbn [when].
  unfold on_media. rewrite !and_then_state.
  destruct (on_media_timers env (default "" (media_payload m)) s) as (Ht & Hsil & Hnow).
  cbn zeta in Ht, Hsil, Hnow.
  set (s1 := (write_sttStream _ _).1) in *. clearbody s1.
  assert (single_silence_timer s1) as Hsingle1
    by (unfold single_silence_timer; rewrite Ht, Hsil; exact Hsingle).
  assert (no_silence_since s0 s1) as Hno1
    by (unfold no_silence_since; rewrite Ht; exact Hno).
  clear Hsingle Hno Ht Hsil Hnow. cbn zeta.
  unfold single_silence_timer, no_silence_since, silence_due_after in *.
  unfold resetSilenceTimer, setTimeout, clearTimeout, SILENCE_TIMEOUT_MS. simpl.
  destruct (silenceTimer s1) as [i0|] eqn:Hi0; simpl.
  - split; [|split].
    + intros i t Hi Hcb Ha.
      apply lookup_snoc_Some in Hi as [[_ Hi]|[-> <-]]; [|done].
      apply lookup_alter_clear_armed in Hi as [Hne Hi]; [|done].
      pose proof (Hsingle1 _ _ Hi Hcb Ha). congruence.
    + intros i t d Hi Hcb Hf.
      apply lookup_snoc_Some in Hi as [[_ Hi]|[-> <-]]; [|done].
      apply (Hno1 i t d); [|done..].
      destruct (decide (i = i0)) as [->|Hne].
      * rewrite list_lookup_alter_eq in Hi.
        destruct (timers s1 !! i0) as [t1|]; simpl in Hi; [|discriminate].
        injection Hi as <-. unfold clear in *.
        destruct (status t1) eqn:E; simpl in *; congruence.
      * by rewrite list_lookup_alter_ne in Hi.
    + intros T HT i t Hi Hcb Ha.
      apply lookup_snoc_Some in Hi as [[_ Hi]|[-> <-]]; [|simpl; lia].
      apply lookup_alter_clear_armed in Hi as [Hne Hi]; [|done].
      pose proof (Hsingle1 _ _ Hi Hcb Ha). congruence.
  - split; [|split].
    + intros i t Hi Hcb Ha.
      apply lookup_snoc_Some in Hi as [[_ Hi]|[-> <-]]; [|done].
      pose proof (Hsingle1 _ _ Hi Hcb Ha). congruence.
    + intros i t d Hi Hcb Hf.
      apply lookup_snoc_Some in Hi as [[_ Hi]|[-> <-]]; [|done].
      by apply (Hno1 i t d).
    + intros T HT i t Hi Hcb Ha.
      apply lookup_snoc_Some in Hi as [[_ Hi]|[-> <-]]; [|simpl; lia].
      pose proof (Hsingle1 _ _ Hi Hcb Ha). congruence.
Qed.

Lemma pause_fires_no_silence s0 dt s :
  single_silence_timer s -> no_silence_since s0 s ->
  silence_due_after (now s + Z.max 0 dt) s ->
  let s' := (elapse dt s).1 in
  single_silence_timer s' /\ no_silence_since s0 s'.
Proof.
  intros Hsingle Hno Hdue. unfold elapse. simpl.
  set (target := now s + Z.max 0 dt) in *.
  pose (J := fun s => single_silence_timer s /\ no_silence_since s0 s
                      /\ silence_due_after target s).
  assert (J (run_timers (length (timers s)) target s)) as (H1 & H2 & _); [|done].
  apply (run_timers_invariant_due J); [|done].
  clear Hsingle Hno Hdue. intros i t s1 (Hsingle & Hno & Hdue) Hi Hd.
  assert (status t = Armed /\ deadline t <= target) as [Ha Hle].
  { unfold due in Hd. destruct (status t); try discriminate. split; [done|lia]. }
  assert (callback t = TurnCallback) as Hcb.
  { destruct (callback t) eqn:E; [|done]. pose proof (Hdue i t Hi E Ha). lia. }
  unfold J, single_silence_timer, no_silence_since, silence_due_after in *.
  unfold fire. rewrite Hi, Hcb. simpl.
  split; [|split].
  - intros i' t' Hi' Hcb' Ha'.
    apply list_lookup_insert_Some in Hi' as [(-> & <- & ?)|[? Hi']]; [done|].
    by eapply Hsingle.
  - intros i' t' d Hi' Hcb' Hf.
    apply list_lookup_insert_Some in Hi' as [(-> & <- & ?)|[? Hi']];
      [simpl in Hcb'; congruence|].
    by eapply Hno.
  - intros i' t' Hi' Hcb' Ha'.
    apply list_lookup_insert_Some in Hi' as [(-> & <- & ?)|[? Hi']]; [done|].
    by eapply Hdue.
Qed.

Lemma frames_in_time_rearm s0 env frames : forall s,
  Forall in_time frames ->
  single_silence_timer s -> no_silence_since s0 s ->
  (forall T, T < now s + SILENCE_TIMEOUT_MS -> silence_due_after T s) ->
  no_silence_since s0 (run env (frame_events frames) s).1.
Proof.
  induction frames as [|[dt payload] frames IH]; intros s Hf Hsingle Hno Hdue; [done|].
  apply Forall_cons in Hf as [[Hdt Hp] Hf]. simpl in Hdt, Hp.
  unfold frame_events. cbn [flat_map app fst snd].
  rewrite !run_cons. cbn zeta. cbn [fst].
  change (step env (Elapse dt) s) with (elapse dt s).
  destruct (pause_fires_no_silence s0 dt s Hsingle Hno) as [H1 H2].
  { apply Hdue. unfold SILENCE_TIMEOUT_MS in *. lia. }
  cbn zeta in H1, H2.
  destruct (frame_rearms s0 env (media_message payload) (elapse dt s).1 eq_refl)
    as (H3 & H4 & H5); [by destruct payload|done..|].
  by apply IH.
Qed.

(** X9. While frames keep arriving the silence timer does not fire: after a
    frame with a payload, whatever the number of further frames, if each one
    carries a payload and follows the previous one by less than
    [SILENCE_TIMEOUT_MS] (4000 ms), no silence timer fires during the whole
    sequence (the ones marked as fired at the end had fired before it). *)
Theorem frames_in_time_keep_silence_timer_from_firing env s payload frames :
  reachable env s ->
  payload <> "" ->
  Forall in_time frames ->
  no_silence_since s
    (run env (WsMessage (Some (media_message payload)) :: frame_events frames) s).1.
Proof.
  intros Hr Hp Hf. rewrite run_cons. cbn zeta. cbn [fst].
  assert (single_silence_timer s) as Hsingle
    by (intros i t; by apply (one_silence env s)).
  destruct (frame_rearms s env (media_message payload) s eq_refl) as (H1 & H2 & H3);
    [by destruct payload|done| |].
  { intros i t d H _ _. done. }
  by apply frames_in_time_rearm.
Qed.

Lemma frames_in_time_keep_silence_timer_from_firing_witness :
  reachable env_dg session0
  /\ "AAEC" <> ""
  /\ Forall in_time [(3000, "AAEC"); (3999, "AAEC")]
  /\ no_silence_since session0
       (run env_dg (WsMessage (Some (media_message "AAEC"))
                      :: frame_events [(3000, "AAEC"); (3999, "AAEC")]) session0).1.
Proof.
  assert (reachable env_dg session0) as Hr by (exists ∅, 0, []; reflexivity).
  assert ("AAEC" <> "") as Hp by discriminate.
  assert (Forall in_time [(3000, "AAEC"); (3999, "AAEC")]) as Hf
    by (repeat constructor; try discriminate; by vm_compute).
  split; [exact Hr|]. split; [exact Hp|]. split; [exact Hf|].
  exact (frames_in_time_keep_silence_timer_from_firing env_dg session0 "AAEC" _ Hr Hp Hf).
Defined.

(** ** Passage of time *)

Lemma same_but_timers_fire s0 i s : same_but_timers s0 s -> same_but_timers s0 (fire i s).
Proof.
  unfold same_but_timers, fire. intros H.
  destruct (timers s !! i) as [t|]; [|done].
  destruct (callback t); simpl; rewrite length_insert; intuition congruence.
Qed.

(** X10. Time passing triggers no external effect and touches nothing but
    the timers: the history, the stream identifier, the persona, the bridges,
    the provider connections, the pending work and the channel state are as
    before, no timer is created or dropped, the clock advances by the elapsed
    time, and the speaking flag can only go from set to cleared (by the turn
    timer), never the reverse. *)
Theorem time_passing_only_fires_timers env dt s :
  let r := step env (Elapse dt) s in
  r.2 = []
  /\ now r.1 = now s + Z.max 0 dt
  /\ same_but_timers s r.1.
Proof.
  simpl. unfold elapse. simpl. split; [done|]. split; [done|].
  assert (same_but_timers s (run_timers (length (timers s)) (now s + Z.max 0 dt) s)) as H.
  { apply (run_timers_invariant (same_but_timers s)).
    - intros. by apply same_but_timers_fire.
    - unfold same_but_timers. intuition. }
  exact H.
Qed.

(** * Speech synthesis *)

Lemma getRawTts_chain env o : getRawTts env o = first_answer (provider_chain env o).
Proof.
  unfold getRawTts, deepgramTts, fallbackTts, elevenLabsTts, openaiTts, provider_chain.
  destruct (deepgram_configured env), (elevenLabs_configured env), (openai_configured env);
    simpl;
    destruct (deepgram_speak o), (elevenLabs_fetch o), (openai_speech o); reflexivity.
Qed.

(** X11. Speech synthesis fails only when the OpenAI client is configured
    and rejects after every provider configured before it (Deepgram, then
    ElevenLabs) has rejected too.  A failing conversion to the telephony
    format never makes it fail, and without an OpenAI key it never fails. *)
Theorem textToSpeech_rejects_iff env o :
  textToSpeech env o = None <->
  (openai_configured env = true /\ openai_speech o = None
   /\ (deepgram_configured env = true -> deepgram_speak o = None)
   /\ (elevenLabs_configured env = true -> elevenLabs_fetch o = None)).
Proof.
  unfold textToSpeech, CONVERT_TO_TWILIO, toMulaw8k.
  rewrite getRawTts_chain. unfold provider_chain.
  destruct (deepgram_configured env), (elevenLabs_configured env), (openai_configured env);
    simpl;
    destruct (deepgram_speak o) as [[|]|], (elevenLabs_fetch o) as [[|]|],
             (openai_speech o) as [[|]|], (ffmpeg_mulaw o);
    simpl; split; try discriminate; try done;
    intros (? & ? & H1 & H2); try discriminate;
    try (specialize (H1 eq_refl); discriminate);
    try (specialize (H2 eq_refl); discriminate).
Qed.

(** X12. The browser entry point returns the answer of the first provider
    that answers, in the order Deepgram, ElevenLabs, OpenAI, skipping the
    providers without a key; rejections of earlier providers are swallowed,
    and an answer counts even when it is an empty buffer.  The telephony
    entry point returns that same audio or its conversion, and fails exactly
    when the browser entry point does. *)
Theorem first_provider_that_answers_wins env o :
  textToSpeechForBrowser env o = first_answer (provider_chain env o)
  /\ (textToSpeech env o = None <-> textToSpeechForBrowser env o = None)
  /\ (forall raw, textToSpeechForBrowser env o = Some raw ->
        textToSpeech env o = Some raw
        \/ (raw <> [] /\ textToSpeech env o = ffmpeg_mulaw o)).
Proof.
  unfold textToSpeechForBrowser. split; [apply getRawTts_chain|].
  unfold textToSpeech, CONVERT_TO_TWILIO, toMulaw8k.
  destruct (getRawTts env o) as [raw|]; [|split; [done|intros; discriminate]].
  split.
  - destruct raw; simpl; [done|]. by destruct (ffmpeg_mulaw o).
  - intros ? [= <-]. destruct raw; simpl; [by left|].
    destruct (ffmpeg_mulaw o); [by right|by left].
Qed.

(** * Personas *)

Lemma lower_char_idempotent c : JS.lower_char (JS.lower_char c) = JS.lower_char c.
Proof. by destruct c as [[] [] [] [] [] [] [] []]. Qed.

Lemma toLowerCase_idempotent s : JS.toLowerCase (JS.toLowerCase s) = JS.toLowerCase s.
Proof. induction s as [|c s IH]; simpl; [done|]. by rewrite lower_char_idempotent, IH. Qed.

Lemma toLowerCase_empty s : JS.toLowerCase s = "" -> s = "".
Proof. by destruct s. Qed.

(** The identifier [getVertical] looks up is in lower case. *)
Lemma getVertical_id_lower v :
  let id := JS.toLowerCase (if JS.truthy v then v else "sales") in
  JS.toLowerCase id = id.
Proof. apply toLowerCase_idempotent. Qed.

(** X13. Persona lookup ignores the case of the identifier: two identifiers
    that agree once in lower case resolve to the same persona. *)
Theorem getVertical_ignores_case env v1 v2 :
  JS.toLowerCase v1 = JS.toLowerCase v2 ->
  getVertical env v1 = getVertical env v2.
Proof.
  intros H. unfold getVertical.
  destruct v1 as [|c1 v1].
  - symmetry in H. apply toLowerCase_empty in H. by subst.
  - destruct v2 as [|c2 v2]; [discriminate|].
    cbn [JS.truthy]. by rewrite H.
Qed.

Lemma getVertical_ignores_case_witness :
  JS.toLowerCase "SUPPORT" = JS.toLowerCase "Support"
  /\ getVertical env_dg "SUPPORT" = getVertical env_dg "Support".
Proof.
  split; [reflexivity|].
  exact (getVertical_ignores_case env_dg "SUPPORT" "Support" eq_refl).
Defined.

(** X14. A custom persona stored under a key that is not in lower case is
    never found: lookups behave as if the entry were not there, whatever
    identifier is asked for (the key itself included). *)
Theorem custom_key_with_capitals_is_never_found env k v :
  JS.toLowerCase k <> k ->
  getVertical env v
  = getVertical (with_customVerticals (delete k (customVerticals env)) env) v.
Proof.
  intros Hk. unfold getVertical. simpl.
  rewrite lookup_delete_ne; [done|].
  intros ->. apply Hk. apply toLowerCase_idempotent.
Qed.

Lemma custom_key_with_capitals_is_never_found_witness :
  JS.toLowerCase "Retail" <> "Retail"
  /\ customVerticals env_custom !! "Retail"
       = Some {| name := "Retail"; greeting := "Welcome to the shop."; tools := [] |}
  /\ getVertical env_custom "Retail"
       = getVertical (with_customVerticals (delete "Retail" (customVerticals env_custom))
                        env_custom) "Retail".
Proof.
  assert (JS.toLowerCase "Retail" <> "Retail") as Hk by discriminate.
  split; [exact Hk|]. split; [by vm_compute|].
  exact (custom_key_with_capitals_is_never_found env_custom "Retail" "Retail" Hk).
Defined.

Lemma elem_of_custom_ids env id :
  id ∈ custom_ids env <-> is_Some (customVerticals env !! id).
Proof.
  unfold custom_ids. rewrite list_elem_of_fmap. split.
  - intros ([k cfg] & -> & H). apply elem_of_map_to_list in H. by eexists.
  - intros [cfg H]. exists (id, cfg). split; [done|]. by apply elem_of_map_to_list.
Qed.

Lemma builtIn_ids_verticals id : id ∈ builtIn_ids <-> is_Some (verticals !! id).
Proof.
  split.
  - intros H. unfold builtIn_ids in H.
    repeat (apply elem_of_cons in H as [->|H]; [by eexists|]).
    by apply elem_of_nil in H.
  - intros [cfg H]. unfold verticals in H.
    apply elem_of_list_to_map_2 in H.
    repeat (apply elem_of_cons in H as [[= -> _]|H];
            [apply (bool_decide_unpack _); by vm_compute|]).
    by apply elem_of_nil in H.
Qed.

(** X15. The list of persona identifiers has no duplicates; it starts with
    the six built-in identifiers and holds, besides them, exactly the keys of
    the custom table.  A listed identifier that is non-empty and in lower case
    resolves to its own entry: the custom one when there is one, the
    built-in one otherwise. *)
Theorem listed_ids_are_distinct_and_resolve env :
  NoDup (getVerticalIds env)
  /\ take 6 (getVerticalIds env) = builtIn_ids
  /\ (forall id, id ∈ getVerticalIds env <->
                 id ∈ builtIn_ids \/ is_Some (customVerticals env !! id))
  /\ (forall id, id ∈ getVerticalIds env -> id <> "" -> JS.toLowerCase id = id ->
                 (customVerticals env ∪ verticals) !! id = Some (getVertical env id)).
Proof.
  assert (forall id, id ∈ getVerticalIds env <->
                     id ∈ builtIn_ids \/ is_Some (customVerticals env !! id)) as Hin.
  { intros id. unfold getVerticalIds. cbn zeta.
    rewrite elem_of_app, list_elem_of_filter, elem_of_custom_ids.
    destruct (decide (id ∈ builtIn_ids)); tauto. }
  split; [|split; [reflexivity|split; [exact Hin|]]].
  - unfold getVerticalIds. cbn zeta. apply NoDup_app. split; [|split].
    + apply (bool_decide_unpack _). by vm_compute.
    + intros id H1 H2. apply list_elem_of_filter in H2 as [H2 _]. done.
    + apply NoDup_filter. unfold custom_ids. apply NoDup_fst_map_to_list.
  - intros id Hid Hne Hlow. apply Hin in Hid.
    unfold getVertical.
    assert (JS.truthy id = true) as -> by (by destruct id).
    rewrite Hlow, lookup_union.
    destruct (customVerticals env !! id) as [custom|] eqn:Hc.
    + by destruct (verticals !! id).
    + destruct Hid as [Hb|[? ?]]; [|discriminate].
      apply builtIn_ids_verticals in Hb as [cfg ->]. done.
Qed.

(** * TwiML *)

Lemma append_cons x (a b : string) : (String x a ++ b)%string = String x (a ++ b).
Proof. reflexivity. Qed.

Lemma append_nil (b : string) : ("" ++ b)%string = b.
Proof. reflexivity. Qed.

Lemma string_app_assoc (a b c : string) : ((a ++ b) ++ c = a ++ (b ++ c))%string.
Proof. induction a as [|x a IH]; [done|]. by rewrite !append_cons, IH. Qed.

Lemma replace_char_app c r a b :
  Twilio.replace_char c r (a ++ b)
  = (Twilio.replace_char c r a ++ Twilio.replace_char c r b)%string.
Proof.
  induction a as [|x a IH]; [done|].
  rewrite append_cons. cbn [Twilio.replace_char].
  destruct (Ascii.eqb x c); rewrite IH; [|done].
  by rewrite string_app_assoc.
Qed.

Lemma escapeXml_cons c s :
  Twilio.escapeXml (String c s) = (entity c ++ Twilio.escapeXml s)%string.
Proof.
  unfold Twilio.escapeXml, entity.
  cbn [Twilio.replace_char].
  destruct (Ascii.eqb_spec c Twilio.c_amp) as [->|?].
  { rewrite !replace_char_app. reflexivity. }
  cbn [Twilio.replace_char].
  destruct (Ascii.eqb_spec c Twilio.c_lt) as [->|?].
  { rewrite !replace_char_app. reflexivity. }
  cbn [Twilio.replace_char].
  destruct (Ascii.eqb_spec c Twilio.c_gt) as [->|?].
  { rewrite !replace_char_app. reflexivity. }
  cbn [Twilio.replace_char].
  destruct (Ascii.eqb_spec c Twilio.c_quot) as [->|?].
  { rewrite !replace_char_app. reflexivity. }
  cbn [Twilio.replace_char].
  destruct (Ascii.eqb_spec c Twilio.c_apos) as [->|?]; reflexivity.
Qed.

(** The five replacements, applied one after the other, escape each
    character of the input once: an ampersand produced by an earlier
    replacement is never escaped again. *)
Lemma escapeXml_single_pass s : Twilio.escapeXml s = escape_each s.
Proof. induction s as [|c s IH]; [done|]. by rewrite escapeXml_cons, IH. Qed.

Lemma string_forall_app p (a b : string) :
  string_forall p (a ++ b) = string_forall p a && string_forall p b.
Proof.
  induction a as [|x a IH]; [done|].
  rewrite append_cons. simpl. by rewrite IH, andb_assoc.
Qed.

(** The five cases of a special character, and the case of any other. *)
Ltac is_it c x :=
  let E := fresh "E" in
  destruct (Ascii.eqb c x) eqn:E;
  [apply Ascii.eqb_eq in E; subst c|apply Ascii.eqb_neq in E].

Ltac by_character c :=
  is_it c Twilio.c_amp;
  [|is_it c Twilio.c_lt;
    [|is_it c Twilio.c_gt;
      [|is_it c Twilio.c_quot;
        [|is_it c Twilio.c_apos]]]].

Lemma entity_plain c : is_special c = false -> entity c = String c EmptyString.
Proof.
  unfold is_special, is_markup, entity. intros H.
  by_character c; try discriminate. done.
Qed.

Lemma entity_no_markup c : string_forall (fun x => negb (is_markup x)) (entity c) = true.
Proof.
  unfold entity. by_character c; try reflexivity.
  simpl. unfold is_markup.
  repeat match goal with
         | H : ?x <> ?y |- _ => apply Ascii.eqb_neq in H; rewrite H; clear H
         end.
  reflexivity.
Qed.

Lemma escapeXml_leaves_no_markup_1 s :
  string_forall (fun c => negb (is_markup c)) (Twilio.escapeXml s) = true.
Proof.
  rewrite escapeXml_single_pass.
  induction s as [|c s IH]; [done|].
  cbn [escape_each]. by rewrite string_forall_app, entity_no_markup, IH.
Qed.

(** X16. Escaped text carries no markup: the result of [escapeXml] contains
    none of the characters [<], [>], double quote and apostrophe, whatever
    the input; and text without any of the five special characters is
    returned unchanged. *)
Theorem escapeXml_leaves_no_markup s :
  string_forall (fun c => negb (is_markup c)) (Twilio.escapeXml s) = true
  /\ (string_forall (fun c => negb (is_special c)) s = true -> Twilio.escapeXml s = s).
Proof.
  split; [apply escapeXml_leaves_no_markup_1|].
  rewrite escapeXml_single_pass.
  induction s as [|c s IH]; [done|].
  cbn [escape_each string_forall]. intros H.
  apply andb_true_iff in H as [Hc Hs]. apply negb_true_iff in Hc.
  by rewrite (entity_plain c Hc), append_cons, append_nil, (IH Hs).
Qed.

Lemma entity_injective c1 c2 (r1 r2 : string) :
  (entity c1 ++ r1 = entity c2 ++ r2)%string -> c1 = c2 /\ r1 = r2.
Proof.
  unfold entity. intros H.
  by_character c1; by_character c2;
    cbv [append Twilio.c_amp Twilio.c_lt Twilio.c_gt Twilio.c_quot Twilio.c_apos] in *;
    try discriminate; try (injection H as ? ?; by subst);
    try (injection H as -> ?; done);
    try (split; [done|congruence]).
Qed.

(** X17. Escaping loses nothing: two messages with the same escaped form are
    the same message. *)
Theorem escapeXml_injective s1 s2 :
  Twilio.escapeXml s1 = Twilio.escapeXml s2 -> s1 = s2.
Proof.
  rewrite !escapeXml_single_pass. revert s2.
  induction s1 as [|c1 s1 IH]; intros [|c2 s2] H; [done| | |].
  - exfalso. cbn [escape_each] in H. unfold entity in H.
    by_character c2; cbv [append] in H; discriminate.
  - exfalso. cbn [escape_each] in H. unfold entity in H.
    by_character c1; cbv [append] in H; discriminate.
  - cbn [escape_each] in H. apply entity_injective in H as [-> H].
    by rewrite (IH _ H).
Qed.

Lemma escapeXml_injective_witness :
  Twilio.escapeXml "Tom & Jerry <live>" = Twilio.escapeXml ("Tom & " ++ "Jerry <live>")
  /\ "Tom & Jerry <live>" = ("Tom & " ++ "Jerry <live>")%string.
Proof.
  split; [reflexivity|].
  exact (escapeXml_injective "Tom & Jerry <live>" ("Tom & " ++ "Jerry <live>") eq_refl).
Defined.

Lemma count_char_app c (a b : string) :
  count_char c (a ++ b) = (count_char c a + count_char c b)%nat.
Proof.
  induction a as [|x a IH]; [done|].
  rewrite append_cons. simpl. rewrite IH. lia.
Qed.

Lemma count_char_forall p c s :
  p c = false -> string_forall p s = true -> count_char c s = 0%nat.
Proof.
  intros Hc. induction s as [|x s IH]; [done|]. simpl. intros H.
  apply andb_true_iff in H as [Hx Hs]. rewrite (IH Hs).
  destruct (Ascii.eqb_spec x c) as [->|?]; [congruence|done].
Qed.

Lemma count_markup_escapeXml c s :
  is_markup c = true -> count_char c (Twilio.escapeXml s) = 0%nat.
Proof.
  intros Hc. apply (count_char_forall (fun x => negb (is_markup x))).
  - by rewrite Hc.
  - apply escapeXml_leaves_no_markup_1.
Qed.

(** X18. A spoken message or a redirect address cannot change the markup of
    the response: whatever they contain, the TwiML documents built around
    them hold as many [<], [>], double quotes and apostrophes as the
    documents built around empty text. *)
Theorem say_markup_is_fixed message redirectUrl c :
  is_markup c = true ->
  count_char c (Twilio.body (Twilio.twimlSayAndHangup message))
  = count_char c (Twilio.body (Twilio.twimlSayAndHangup ""))
  /\ count_char c (Twilio.body (Twilio.twimlSayAndRedirect message redirectUrl))
     = count_char c (Twilio.body (Twilio.twimlSayAndRedirect "" "")).
Proof.
  intros Hc. unfold Twilio.twimlSayAndHangup, Twilio.twimlSayAndRedirect, Twilio.body.
  rewrite !count_char_app, !(count_markup_escapeXml c) by done. done.
Qed.

Lemma say_markup_is_fixed_witness :
  is_markup "<" = true
  /\ count_char "<" (Twilio.body (Twilio.twimlSayAndHangup "</Say><Hangup/>")) = 6%nat
  /\ count_char "<" (Twilio.body (Twilio.twimlSayAndRedirect "a < b" "http://x/?a=1&b=<2>"))
     = 7%nat.
Proof.
  split; [reflexivity|].
  exact (say_markup_is_fixed "</Say><Hangup/>" "http://x/?a=1&b=<2>" "<" eq_refl).
Defined.

Lemma strip_trailing_slash_cons c s :
  s <> "" -> Twilio.strip_trailing_slash (String c s) = String c (Twilio.strip_trailing_slash s).
Proof. by destruct s. Qed.

Lemma strip_trailing_slash_snoc u : Twilio.strip_trailing_slash (u ++ "/") = u.
Proof.
  induction u as [|c u IH]; [done|].
  rewrite append_cons, strip_trailing_slash_cons, IH; [done|]. by destruct u.
Qed.

(** X19. The address of the media stream is built from a base address
    without its final slash: [BASE_URL] with or without one slash at the end
    gives the same stream address, with a single slash before
    [voice/stream].  When [BASE_URL] is unset, empty or just a slash the
    local default is used. *)
Theorem stream_url_drops_one_trailing_slash u :
  u <> "" ->
  Twilio.streamUrl (Some (u ++ "/")%string) = (u ++ "/voice/stream")%string
  /\ (ends_with_slash u = false ->
      Twilio.streamUrl (Some u) = (u ++ "/voice/stream")%string)
  /\ Twilio.streamUrl None = "http://localhost:3000/voice/stream"
  /\ Twilio.streamUrl (Some "") = Twilio.streamUrl None
  /\ Twilio.streamUrl (Some "/") = Twilio.streamUrl None.
Proof.
  intros Hu. unfold Twilio.streamUrl, Twilio.baseUrl. cbn zeta.
  split; [|split; [|done]].
  - rewrite strip_trailing_slash_snoc. by destruct u.
  - unfold ends_with_slash. intros H. apply negb_false_iff, String.eqb_eq in H.
    rewrite H. by destruct u.
Qed.

Lemma stream_url_drops_one_trailing_slash_witness :
  "https://bot.example.com" <> ""
  /\ Twilio.streamUrl (Some "https://bot.example.com/")
     = "https://bot.example.com/voice/stream"
  /\ ends_with_slash "https://bot.example.com" = false
  /\ Twilio.streamUrl (Some "https://bot.example.com")
     = "https://bot.example.com/voice/stream".
Proof.
  assert ("https://bot.example.com" <> "") as Hu by discriminate.
  destruct (stream_url_drops_one_trailing_slash "https://bot.example.com" Hu)
    as (H1 & H2 & _).
  split; [exact Hu|]. split; [exact H1|]. split; [reflexivity|exact (H2 eq_refl)].
Defined.




(** * The reasoning engine *)

Lemma trim_starts_clean c s :
  JS.is_white_space c = false -> JS.truthy (JS.trim (String c s)) = true.
Proof.
  intros Hc. unfold JS.trim. cbn [JS.trimStart]. rewrite Hc.
  cbn [JS.trimEnd]. destruct (JS.trimEnd s); by rewrite ?Hc.
Qed.

Lemma no_key_not_blank p : blank (Brain.no_key p) = false.
Proof. unfold blank, Brain.no_key. by rewrite append_cons, trim_starts_clean. Qed.

Lemma runBrain_not_blank env lenv o config history options reply :
  (Brain.runBrain env lenv o config history options).2 = Some reply -> blank reply = false.
Proof.
  unfold Brain.runBrain. cbn zeta.
  destruct (Brain.getClient _ _ _) as [client|]; cbn [snd].
  2: { intros [= <-]. apply no_key_not_blank. }
  destruct (Brain.completion o) as [[|msg choices]|]; cbn [snd]; [| |done].
  { by intros [= <-]. }
  destruct (Brain.tool_calls msg) as [|toolCall calls]; cbn [snd].
  - destruct (Brain.message_content msg) as [t|]; [|by intros [= <-]].
    destruct (JS.truthy t); cbn [andb]; [|by intros [= <-]].
    destruct (JS.truthy (JS.trim t)) eqn:E; intros [= <-]; [|done].
    unfold blank. by rewrite trim_idempotent, E.
  - destruct (Brain.followUp o) as [choices2|]; cbn [snd]; [|done].
    destruct (head choices2 ≫= Brain.message_content) as [t|]; [|by intros [= <-]].
    destruct (JS.truthy t); cbn [andb]; [|by intros [= <-]].
    destruct (JS.truthy (JS.trim t)) eqn:E; intros [= <-]; [|done].
    unfold blank. by rewrite E.
Qed.

(** X21. The reasoning engine never answers with a blank reply: whatever the
    provider returns (no choice, no content, white space only, a tool call)
    and whatever the configuration, a reply that is not a rejection has
    visible text.  Hence the agent turn that the call handler appends to the
    history when such a reply arrives is never blank. *)
Theorem reply_is_never_blank env lenv o config history options :
  let result := (Brain.runBrain env lenv o config history options).2 in
  (forall reply, result = Some reply -> blank reply = false)
  /\ (forall k s, Forall (fun m => blank (content m) = false)
                    (appended (BrainSettled k result) s)
                /\ messages (ctx (step env (BrainSettled k result) s).1)
                   = messages (ctx s) ++ appended (BrainSettled k result) s).
Proof.
  cbn zeta. split; [intros reply; apply runBrain_not_blank|].
  intros k s. split; [|apply step_appends].
  unfold appended.
  destruct (Brain.runBrain env lenv o config history options).2 as [reply|] eqn:E;
    [|constructor].
  destruct (tasks s !! k) as [[]|]; try constructor; [|constructor].
  by apply runBrain_not_blank in E.
Qed.

(** X22. A call to the reasoning engine is rejected only when a request to
    the provider is: the first one, or the follow-up after a tool call.
    Without a client for the provider it makes no request and settles with
    the sentence that names the missing key. *)
Theorem runBrain_rejects_iff env lenv o config history options :
  let r := Brain.runBrain env lenv o config history options in
  let p := default (Brain.getProvider env lenv) (Brain.provider options) in
  (r.2 = None <->
     is_Some (Brain.getClient env lenv p)
     /\ (Brain.completion o = None
         \/ (exists msg rest call calls,
               Brain.completion o = Some (msg :: rest)
               /\ Brain.tool_calls msg = call :: calls
               /\ Brain.followUp o = None)))
  /\ (Brain.getClient env lenv p = None -> r = ([], Some (Brain.no_key p))).
Proof.
  cbn zeta. unfold Brain.runBrain. cbn zeta.
  destruct (Brain.getClient _ _ _) as [client|]; cbn [snd].
  2: { split; [|done]. split; [done|]. by intros [[? ?] _]. }
  split; [|done].
  destruct (Brain.completion o) as [[|msg choices]|]; cbn [snd].
  - split; [done|]. intros [_ [?|(? & ? & ? & ? & ? & _)]]; discriminate.
  - destruct (Brain.tool_calls msg) as [|toolCall calls] eqn:Ht; cbn [snd].
    + split; [done|]. intros [_ [?|(? & ? & ? & ? & [= <- <-] & ? & _)]]; congruence.
    + destruct (Brain.followUp o) as [choices2|]; cbn [snd].
      * split; [done|]. intros [_ [?|(? & ? & ? & ? & _ & _ & ?)]]; discriminate.
      * split; [|done]. intros _. split; [by eexists|]. right. by eexists _, _, _, _.
  - split; [|done]. intros _. split; [by eexists|]. by left.
Qed.

(** X23. The list of providers and the default provider agree: every listed
    provider has a client, no provider is listed twice, the default provider
    is the first of the list whenever the list is not empty, and the list is
    empty exactly when the default provider has no client (the case in which
    [runBrain] answers with the missing-key sentence). *)
Theorem default_provider_heads_the_available_ones env lenv :
  let available := Brain.getAvailableProviders env lenv in
  let p := Brain.getProvider env lenv in
  Forall (fun x => is_Some (Brain.getClient env lenv x)) available
  /\ NoDup available
  /\ (available <> [] -> head available = Some p)
  /\ (available = [] <-> Brain.getClient env lenv p = None).
Proof.
  cbn zeta.
  unfold Brain.getAvailableProviders, Brain.getProvider, Brain.getClient,
    Brain.groqClient, Brain.openaiClient, Brain.ollamaClient.
  destruct (JS.truthy (Brain.groqApiKey lenv)), (openai_configured env),
    (Brain.is_ollama lenv); cbn;
    (split; [repeat constructor; by eexists|]);
    (split; [apply (bool_decide_unpack _); by vm_compute|]);
    (split; [done|]); split; done.
Qed.

Lemma mem_keys_implemented name :
  Brain.mem name Brain.toolDefinitions_keys = true <-> implemented name.
Proof.
  unfold implemented, Brain.mem, Brain.toolDefinitions_keys. cbn [existsb].
  split.
  - intros H.
    repeat (apply orb_true_iff in H as [H|H];
            [apply String.eqb_eq in H; subst name; by vm_compute|]).
    discriminate.
  - intros H. destruct (_ || _) eqn:E; [done|]. exfalso. apply H.
    repeat (apply orb_false_iff in E as [?E E]).
    unfold Brain.runTool.
    repeat match goal with
           | H : (_ =? _)%string = false |- _ => rewrite H; clear H
           end.
    reflexivity.
Qed.

(** X24. The table of tool definitions and the tool runner agree: a name has
    a definition of its own exactly when [runTool] implements it, that is
    answers something else than its not-implemented sentence.  Every tool of
    a built-in persona is offered to the provider and implemented. *)
Theorem defined_tools_are_the_implemented_ones :
  (forall name, Brain.mem name Brain.toolDefinitions_keys = true <-> implemented name)
  /\ Forall (fun config => Brain.offered_tools config = tools config
                           /\ Forall implemented (tools config))
       builtIn_personas.
Proof.
  split; [apply mem_keys_implemented|].
  repeat constructor; by (apply mem_keys_implemented; vm_compute).
Qed.

(** X25. With no key for any provider of the reasoning engine, the engine
    makes no request and never fails; the call handler then has the
    missing-key sentence synthesized for the caller and records it in the
    history as the agent's turn. *)
Theorem missing_key_is_spoken_to_the_caller env lenv o k timeout config history s :
  JS.truthy (Brain.groqApiKey lenv) = false ->
  openai_configured env = false ->
  Brain.is_ollama lenv = false ->
  tasks s !! k = Some (AwaitRunBrain timeout) ->
  let sentence := "No API key for groq. Set GROQ_API_KEY and/or OPENAI_API_KEY in .env." in
  Brain.runBrain env lenv o config history Brain.no_options = ([], Some sentence)
  /\ (step env (brain_settles env lenv o k config history) s).2 = [TextToSpeech k sentence]
  /\ messages (ctx (step env (brain_settles env lenv o k config history) s).1)
     = messages (ctx s) ++ [{| role := assistant; content := sentence |}].
Proof.
  intros Hg Ho Hl Hk. cbn zeta.
  assert (Brain.runBrain env lenv o config history Brain.no_options
          = ([], Some "No API key for groq. Set GROQ_API_KEY and/or OPENAI_API_KEY in .env."))
    as Hr.
  { unfold Brain.runBrain, Brain.getProvider, Brain.getClient, Brain.groqClient.
    cbn [default Brain.provider Brain.no_options]. rewrite Hg, Ho, Hl.
    change ("groq" =? "groq")%string with true. reflexivity. }
  split; [exact Hr|].
  unfold brain_settles. rewrite Hr. cbn [snd step].
  unfold resume_brain. rewrite Hk. done.
Qed.

Lemma missing_key_is_spoken_to_the_caller_witness :
  JS.truthy (Brain.groqApiKey no_llm) = false
  /\ openai_configured env_dg = false
  /\ Brain.is_ollama no_llm = false
  /\ tasks in_turn !! 1%nat = Some (AwaitRunBrain 2)
  /\ (step env_dg (brain_settles env_dg no_llm blank_answer 1 sales (messages (ctx in_turn)))
        in_turn).2
     = [TextToSpeech 1 "No API key for groq. Set GROQ_API_KEY and/or OPENAI_API_KEY in .env."].
Proof.
  split; [reflexivity|]. split; [reflexivity|]. split; [reflexivity|].
  split; [reflexivity|].
  exact (proj1 (proj2 (missing_key_is_spoken_to_the_caller env_dg no_llm blank_answer 1 2
                         sales (messages (ctx in_turn)) in_turn
                         eq_refl eq_refl eq_refl eq_refl))).
Defined.

(** * The voice channel of the test page *)

Lemma respects_test_run (I : Session -> Prop) (Q : Effect -> Prop) evs :
  (forall ev, In ev evs -> respects I Q (TestVoice.step ev)) ->
  respects I Q (TestVoice.run evs).
Proof.
  induction evs as [|ev evs IH]; intros Hstep; simpl.
  - apply respects_skip.
  - apply respects_and_then; [apply Hstep; by left|].
    apply IH. intros ev' Hin. apply Hstep. by right.
Qed.

Ltac test_step_leaves :=
  match goal with
  | |- respects _ _ (TestVoice.step ?ev) =>
      destruct ev as [[?data|]| | |?r|?c|?c ?d|?c|?c]; simpl in *;
      unfold TestVoice.on_message; respects_struct
  end.

Ltac held_ok Hs :=
  let b' := fresh "b'" in let br' := fresh "br'" in
  let Hb' := fresh "Hb'" in let Hcur := fresh "Hcur" in
  intros b' br' Hcur Hb'; simpl in *;
  repeat match goal with
         | H : <[_ := _]> _ !! _ = Some _ |- _ =>
             apply lookup_put_inv in H as [[-> ->]|[? H]]; [try done|]
         end;
  try (eapply Hs; done).

Ltac test_transcript :=
  match goal with
  | |- respects _ _ (TestVoice.onTranscript _ _) =>
      let s := fresh "s" in let Hs := fresh "Hs" in
      intros s Hs; unfold TestVoice.onTranscript;
      destruct (negb (is_open (readyState s))) eqn:?; (split; [done|effects_ok])
  end.

Ltac held_absurd Hs :=
  exfalso;
  match goal with
  | H' : bridges _ !! ?b = Some ?br, H'' : connection ?br = Some _ |- _ =>
      first [ rewrite (Hs _ _ eq_refl H') in H'' | rewrite (Hs _ _ ltac:(eassumption) H') in H'' ];
      discriminate
  end.

Lemma held_released_test_step ev :
  respects held_released (fun e => is_provider_effect e = false) (TestVoice.step ev).
Proof.
  unfold held_released.
  test_step_leaves; try test_transcript.
  all: leaf; (split; [first [finish | held_ok Hs]|effects_ok]).
  all: try finish.
  all: try held_absurd Hs.
Qed.

Lemma test_teardown_releases td s :
  TestVoice.is_teardown td = true -> held_released (TestVoice.step td s).1.
Proof.
  intros Htd. destruct td; try discriminate; simpl.
  all: unfold held_released; unfold_leaves; crush_proc; intros b' br' Hcur Hb';
       simplify_eq; simpl in *;
       try (apply lookup_put_inv in Hb' as [[_ ->]|[? ?]]; done); congruence.
Qed.

(** X26. On the test page a closed or failed channel stops transcription for
    good: after the close or error event, whatever follows (frames, provider
    events, further close or error events), nothing is opened, written or
    finished on the provider side, and the bridge holds no connection. *)
Theorem test_channel_stops_for_good td evs s :
  TestVoice.is_teardown td = true ->
  let r := TestVoice.run evs (TestVoice.step td s).1 in
  forallb (fun e => negb (is_provider_effect e)) r.2 = true
  /\ held_released r.1.
Proof.
  intros Htd r. subst r.
  destruct (respects_test_run held_released (fun e => is_provider_effect e = false) evs
              (fun ev _ => held_released_test_step ev) (TestVoice.step td s).1)
    as [H1 H2]; [by apply test_teardown_releases|].
  split; [|done]. apply forallb_forall. intros e He.
  rewrite List.Forall_forall in H2. by rewrite (H2 e He).
Qed.

Lemma test_channel_stops_for_good_witness :
  TestVoice.is_teardown TestVoice.Error = true
  /\ (TestVoice.handleTestVoice env_dg 0).2 = [ProviderOpen 0 (live_schema TestVoice.options)]
  /\ forallb (fun e => negb (is_provider_effect e))
       (TestVoice.run [TestVoice.ConnOpen 0; TestVoice.Message (Some [x01; x02])]
          (TestVoice.step TestVoice.Error (TestVoice.handleTestVoice env_dg 0).1).1).2 = true.
Proof.
  split; [reflexivity|]. split; [reflexivity|].
  exact (proj1 (test_channel_stops_for_good TestVoice.Error
                  [TestVoice.ConnOpen 0; TestVoice.Message (Some [x01; x02])]
                  (TestVoice.handleTestVoice env_dg 0).1 eq_refl)).
Defined.

Ltac one_ok Hs :=
  let Hlen := fresh "Hlen" in let Hc := fresh "Hc" in
  destruct Hs as [Hlen Hc];
  split; [simpl; rewrite ?length_alter; done|];
  let b' := fresh "b'" in let br' := fresh "br'" in let c' := fresh "c'" in
  let Hb' := fresh "Hb'" in let Hc' := fresh "Hc'" in
  intros b' br' c' Hb' Hc'; simpl in *;
  repeat match goal with
         | H : <[_ := _]> _ !! _ = Some _ |- _ =>
             apply lookup_put_inv in H as [[-> ->]|[? H]]; [simpl in *; try done|]
         end;
  try (eapply Hc; done).

Lemma one_connection_test_step ev :
  respects one_connection on_first_connection (TestVoice.step ev).
Proof.
  unfold one_connection, on_first_connection.
  test_step_leaves; try test_transcript.
  all: leaf; (split; [first [finish | one_ok Hs]|effects_ok]).
  all: try finish.
  all: eapply (proj2 Hs); done.
Qed.

(** X27. A session of the test page uses one provider connection at most:
    the one opened when the channel is accepted.  No event opens another
    one, and every frame forwarded and every finish request goes to that
    first connection. *)
Theorem test_channel_uses_one_connection env t0 evs :
  let r := TestVoice.run evs (TestVoice.handleTestVoice env t0).1 in
  (length (connections r.1) <= 1)%nat
  /\ Forall on_first_connection r.2
  /\ (forall e, In e ((TestVoice.handleTestVoice env t0).2 ++ r.2) ->
                forall c schema, e = ProviderOpen c schema ->
                  c = 0%nat /\ schema = live_schema TestVoice.options
                  /\ deepgram_configured env = true).
Proof.
  intros r. subst r.
  destruct (respects_test_run one_connection on_first_connection evs
              (fun ev _ => one_connection_test_step ev) (TestVoice.handleTestVoice env t0).1)
    as [[H1 _] H2].
  { unfold TestVoice.handleTestVoice, createSttStream, and_then, update, Bridge.start,
      Bridge.put. simpl.
    destruct (deepgram_configured env); simpl; unfold one_connection; simpl;
      (split; [lia|]).
    - intros b br c Hb Hc. destruct b as [|b]; [|by destruct b].
      simpl in Hb. simplify_eq. simpl in Hc. by simplify_eq.
    - intros b br c Hb Hc. destruct b as [|b]; [|by destruct b].
      simpl in Hb. by simplify_eq. }
  split; [done|]. split; [done|].
  intros e He c schema ->. apply in_app_or in He as [He|He].
  - unfold TestVoice.handleTestVoice, createSttStream, and_then, update, Bridge.start,
      Bridge.put in He. simpl in He.
    destruct (deepgram_configured env); simpl in He; destruct He as [He|[]];
      by simplify_eq.
  - rewrite List.Forall_forall in H2. by apply H2 in He.
Qed.

Lemma repeat_proc_emit n (p : Proc) s e :
  p s = (s, [e]) -> repeat_proc n p s = (s, replicate n e).
Proof.
  intros Hp. induction n as [|n IH]; [done|].
  simpl. unfold and_then. rewrite Hp. simpl. by rewrite IH.
Qed.

(** X28. The test page is sent every transcript that has text, interim ones
    included, as long as its channel is open: a provider transcript makes
    each registered listener send one message carrying the trimmed text and
    the final flag, and changes nothing in the session; with an empty
    transcript or a channel that is not open nothing is sent.  No other event
    sends anything to the page. *)
Theorem test_transcripts_are_relayed c cn d s :
  connections s !! c = Some cn ->
  TestVoice.step (TestVoice.ConnTranscript c d) s =
    (s, if JS.truthy (Bridge.transcript_text d) && is_open (readyState s)
        then replicate (transcript_listeners cn)
               (WsSend (TestVoice.transcript_event (JS.trim (Bridge.transcript_text d))
                          (Bridge.transcript_isFinal d)))
        else [])
  /\ (forall ev, TestVoice.is_transcript ev = false ->
        forallb (fun e => negb (is_WsSend e)) (TestVoice.step ev s).2 = true).
Proof.
  intros Hc. split.
  - simpl. unfold Bridge.on_transcript. rewrite Hc.
    unfold Bridge.listener, when.
    destruct (JS.truthy (Bridge.transcript_text d)); cbn [andb].
    + destruct (is_open (readyState s)) eqn:Ho.
      * apply repeat_proc_emit. unfold TestVoice.onTranscript. by rewrite Ho.
      * apply repeat_proc_noop. unfold TestVoice.onTranscript. by rewrite Ho.
    + by apply repeat_proc_noop.
  - intros ev Hev. destruct ev as [[data|]| | |r|c'|c' d'|c'|c']; try discriminate;
      simpl; unfold TestVoice.on_message; unfold_leaves; crush_proc; done.
Qed.

Lemma test_transcripts_are_relayed_witness :
  connections test_listening !! 0%nat = Some {| owner := 0; transcript_listeners := 1 |}
  /\ TestVoice.step (TestVoice.ConnTranscript 0 (interim_transcript " I need ")) test_listening
     = (test_listening, [WsSend (TestVoice.transcript_event "I need" false)]).
Proof.
  split; [reflexivity|].
  exact (proj1 (test_transcripts_are_relayed 0 _ (interim_transcript " I need ")
                  test_listening eq_refl)).
Defined.

(** * The greeting *)

(** X29. The greeting has no fallback: when its synthesis settles, the
    speaking flag is cleared and the task is over, whatever the outcome; on
    success the audio goes through the output sender, and on failure nothing
    is sent, nothing else is synthesized in its place (the fallback phrase is
    not used) and the rejection is left unhandled. *)
Theorem greeting_has_no_fallback env k o s :
  tasks s !! k = Some AwaitGreeting ->
  let r := step env (TtsSettled k o) s in
  isSpeaking (ctx r.1) = false
  /\ tasks r.1 !! k = Some (Settled (bool_decide (is_Some (textToSpeech env o))))
  /\ forallb (fun e => negb (is_TextToSpeech e)) r.2 = true
  /\ (forall audio, textToSpeech env o = Some audio ->
        r.2 = (send_media (Some audio) s).2)
  /\ (textToSpeech env o = None -> r.2 = [UnhandledRejection k]).
Proof.
  intros Hk. cbn zeta. cbn [step]. unfold resume_tts. rewrite Hk.
  assert (k < length (tasks s))%nat as Hlt by (by eapply lookup_lt_Some).
  destruct (textToSpeech env o) as [audio|].
  - rewrite !and_then_state, !and_then_effects.
    rewrite (send_media_state (Some audio) s).
    unfold park, update. cbn [fst snd]. rewrite !app_nil_r.
    split; [done|]. split; [by apply list_lookup_insert_eq|].
    split; [|split; [by intros ? [= <-]|done]].
    unfold send_media. destruct (streamSid (ctx s)); [|done].
    by destruct (_ && _).
  - unfold and_then, update, park, emit. cbn.
    split; [done|]. split; [by apply list_lookup_insert_eq|]. done.
Qed.

Lemma greeting_has_no_fallback_witness :
  tasks started_openai !! 0%nat = Some AwaitGreeting
  /\ textToSpeech env_openai silent_oracle = None
  /\ (step env_openai (TtsSettled 0 silent_oracle) started_openai).2 = [UnhandledRejection 0].
Proof.
  split; [reflexivity|]. split; [reflexivity|].
  destruct (greeting_has_no_fallback env_openai 0 silent_oracle started_openai eq_refl)
    as (_ & _ & _ & _ & H).
  exact (H eq_refl).
Defined.
